(** * claude-tui: the terminal widget of [src/terminal.py]

    A shallow embedding of [TerminalWidget] (PTY reader, output
    processing, screen rendering, key encoding, resize handling) and of
    the screen and escape-sequence interpreter it drives.

    Python [str] values are sequences of Unicode code points; Qt key and
    modifier values are integers; a pyte screen line is a [dict] from
    column to character cell. *)

From Stdlib Require Import String Ascii.
From Stdlib Require Import List ZArith NArith Lia Bool Arith.
Import ListNotations.

Local Open Scope Z_scope.

(* ================================================================== *)
(** ** Python values used by the widget *)

Module Py.

(** A Python [str]: a sequence of code points. *)
Definition pystr := list N.

(** ASCII literal to [str]. *)
Definition str (s : string) : pystr :=
  map N_of_ascii (list_ascii_of_string s).

Definition pystr_eqb (a b : pystr) : bool :=
  if list_eq_dec N.eq_dec a b then true else false.

(** [c.isspace()] for a one-character [str]: the code points CPython
    classifies as whitespace, which are the ones [str.rstrip()] strips. *)
Definition isspace (c : N) : bool :=
  (((9 <=? c) && (c <=? 13)) || ((28 <=? c) && (c <=? 32))
   || (c =? 133) || (c =? 160) || (c =? 5760)
   || ((8192 <=? c) && (c <=? 8202))
   || (c =? 8232) || (c =? 8233) || (c =? 8239) || (c =? 8287)
   || (c =? 12288))%N.

(** Drop the longest prefix whose elements satisfy [p]. *)
Fixpoint dropwhile {A} (p : A -> bool) (l : list A) : list A :=
  match l with
  | [] => []
  | x :: r => if p x then dropwhile p r else l
  end.

(** [s.rstrip()]. *)
Definition rstrip (s : pystr) : pystr :=
  rev (dropwhile isspace (rev s)).

(** [sep.join(parts)]. *)
Fixpoint join (sep : pystr) (parts : list pystr) : pystr :=
  match parts with
  | [] => []
  | [p] => p
  | p :: rest => p ++ sep ++ join sep rest
  end.

(** A Python [dict] with integer keys: insertion-ordered bindings,
    one per key. *)
Definition dict (V : Type) := list (Z * V).

(** [d[k] = v]: an existing key keeps its place, a new key goes last. *)
Fixpoint setitem {V} (d : dict V) (k : Z) (v : V) : dict V :=
  match d with
  | [] => [(k, v)]
  | (k', v') :: r =>
      if k' =? k then (k, v) :: r else (k', v') :: setitem r k v
  end.

(** Lookup; [None] when the key is absent. *)
Fixpoint get {V} (d : dict V) (k : Z) : option V :=
  match d with
  | [] => None
  | (k', v') :: r => if k' =? k then Some v' else get r k
  end.

(** [d.values()], in insertion order. *)
Definition values {V} (d : dict V) : list V := map snd d.

(** The bindings whose key satisfies [keep] (the others are popped). *)
Definition restrict {V} (keep : Z -> bool) (d : dict V) : dict V :=
  filter (fun kv => keep (fst kv)) d.

(** [range(n)]. *)
Definition range (n : Z) : list Z :=
  map Z.of_nat (seq 0 (Z.to_nat n)).

(** [collections.deque(maxlen=m).append(x)]: a full deque drops its
    leftmost element first; with [m = 0] nothing is ever stored. *)
Definition deque_append {A} (maxlen : Z) (d : list A) (x : A) : list A :=
  if maxlen <=? 0 then d
  else if maxlen <=? Z.of_nat (length d) then tl d ++ [x]
  else d ++ [x].

End Py.

Import Py.

(* ================================================================== *)
(** ** The screen: grid, cursor, scroll region, scrollback

    [src/terminal.py] builds the screen with
    [pyte.HistoryScreen(120, 30, history=10000)] and reads it through
    [screen.lines], [screen.columns], [screen.buffer[y][x].data] and
    [screen.history.top] (each entry read with [.values()]).  The record
    below has these parts, and the cursor, current attributes and scroll
    region of the specification's Screen Model.  The screen operations
    are not under [src/]; they follow sections 3 and 4.3 of the
    specification. *)

Module Screen.

Inductive Color : Type :=
| DefaultColor
| Indexed (n : Z).

(** A cell: its text and its display attributes. *)
Record Char : Type := mkChar {
  data : pystr;
  fg : Color;
  bg : Color;
  bold : bool;
  underline : bool;
  inverse : bool
}.

(** The default blank cell. *)
Definition default_char : Char :=
  mkChar [32%N] DefaultColor DefaultColor false false false.

Definition with_data (a : Char) (d : pystr) : Char :=
  mkChar d (fg a) (bg a) (bold a) (underline a) (inverse a).

(** One row: a [dict] from column to cell; an absent column reads as
    the default blank cell. *)
Definition Line := dict Char.

Definition blank_line : Line := [].

Record t : Type := mkScreen {
  lines : Z;
  columns : Z;
  buffer : list Line;
  cursor_y : Z;
  cursor_x : Z;
  cursor_attrs : Char;
  margin_top : Z;
  margin_bottom : Z;
  history_top : list Line;
  history_maxlen : Z
}.

(** Modelled from the spec: the state [pyte.HistoryScreen(columns,
    lines, history=h)] starts in (the constructor is not under [src/]):
    a blank grid, the cursor at the origin, the scroll region the whole
    grid, an empty scrollback bounded by [h]. *)
Definition HistoryScreen (cols rows : Z) (h : Z) : t :=
  mkScreen rows cols (repeat blank_line (Z.to_nat rows))
           0 0 default_char 0 (rows - 1) [] h.

Definition set_buffer (s : t) (b : list Line) : t :=
  mkScreen (lines s) (columns s) b (cursor_y s) (cursor_x s)
           (cursor_attrs s) (margin_top s) (margin_bottom s)
           (history_top s) (history_maxlen s).

Definition set_cursor (s : t) (y x : Z) : t :=
  mkScreen (lines s) (columns s) (buffer s) y x
           (cursor_attrs s) (margin_top s) (margin_bottom s)
           (history_top s) (history_maxlen s).

Definition set_cursor_attrs (s : t) (a : Char) : t :=
  mkScreen (lines s) (columns s) (buffer s) (cursor_y s) (cursor_x s)
           a (margin_top s) (margin_bottom s)
           (history_top s) (history_maxlen s).

Definition set_margins (s : t) (top bottom : Z) : t :=
  mkScreen (lines s) (columns s) (buffer s) (cursor_y s) (cursor_x s)
           (cursor_attrs s) top bottom
           (history_top s) (history_maxlen s).

(** [buffer[y][x]] as the renderer reads it: a missing row or column
    yields the default blank cell. *)
Definition cell (s : t) (y x : Z) : Char :=
  if y <? 0 then default_char
  else match nth_error (buffer s) (Z.to_nat y) with
       | Some l => match get l x with Some c => c | None => default_char end
       | None => default_char
       end.

(** *** Operations (specification section 4.3) *)

(** Modelled from the spec: clamping of a coordinate to [lo..hi]. *)
Definition clamp (lo hi v : Z) : Z := Z.max lo (Z.min hi v).

(** Modelled from the spec: access to a row of the fixed-size grid; a
    row outside the grid is an error. *)
Definition row (s : t) (y : Z) : option Line :=
  if y <? 0 then None else nth_error (buffer s) (Z.to_nat y).

(** Modelled from the spec: replacing the [n]-th row; an index outside
    the list is an error. *)
Fixpoint list_set {A} (l : list A) (n : nat) (x : A) : option (list A) :=
  match l, n with
  | [], _ => None
  | _ :: r, O => Some (x :: r)
  | h :: r, S n' =>
      match list_set r n' x with
      | Some r' => Some (h :: r')
      | None => None
      end
  end.

(** Modelled from the spec: storing a row of the fixed-size grid. *)
Definition set_row (s : t) (y : Z) (l : Line) : option t :=
  if y <? 0 then None
  else match list_set (buffer s) (Z.to_nat y) l with
       | Some b => Some (set_buffer s b)
       | None => None
       end.

(** Modelled from the spec: [scroll_up] by one row (the library's
    scrolling is not under [src/]).  The top row of the scroll region
    is evicted into the scrollback, respecting its capacity; the rows
    of the region below it shift up; the exposed bottom row of the
    region is blank. *)
Definition scroll_up1 (s : t) : option t :=
  match row s (margin_top s) with
  | None => None
  | Some evicted =>
      let tp := Z.to_nat (margin_top s) in
      let bt := Z.to_nat (margin_bottom s) in
      Some (mkScreen (lines s) (columns s)
              (firstn tp (buffer s)
               ++ firstn (bt - tp) (skipn (S tp) (buffer s))
               ++ [blank_line]
               ++ skipn (S bt) (buffer s))
              (cursor_y s) (cursor_x s) (cursor_attrs s)
              (margin_top s) (margin_bottom s)
              (deque_append (history_maxlen s) (history_top s) evicted)
              (history_maxlen s))
  end.

(** Modelled from the spec: [scroll_up(n)] evicts exactly [n] rows. *)
Fixpoint scroll_up (n : nat) (s : t) : option t :=
  match n with
  | O => Some s
  | S k => match scroll_up1 s with
           | Some s' => scroll_up k s'
           | None => None
           end
  end.

(** Modelled from the spec: line feed.  At the bottom of the scroll
    region the region scrolls; elsewhere the cursor moves down one
    row, staying inside the grid. *)
Definition linefeed (s : t) : option t :=
  if cursor_y s =? margin_bottom s then scroll_up1 s
  else Some (set_cursor s (Z.min (cursor_y s + 1) (lines s - 1))
                        (cursor_x s)).

(** Modelled from the spec: carriage return, to the first column. *)
Definition carriage_return (s : t) : t := set_cursor s (cursor_y s) 0.

(** Modelled from the spec: [put_char] places a printable character at
    the cursor with the current attributes and advances the cursor,
    wrapping at the column edge onto the next row. *)
Definition put_char (s : t) (ch : N) : option t :=
  match row s (cursor_y s) with
  | None => None
  | Some l =>
      match set_row s (cursor_y s)
              (setitem l (cursor_x s) (with_data (cursor_attrs s) [ch])) with
      | None => None
      | Some s1 =>
          if cursor_x s + 1 <? columns s
          then Some (set_cursor s1 (cursor_y s) (cursor_x s + 1))
          else linefeed (carriage_return s1)
      end
  end.

Inductive Motion : Type :=
| Up (n : Z)
| Down (n : Z)
| Forward (n : Z)
| Backward (n : Z)
| NextLine (n : Z)
| PrevLine (n : Z)
| ToColumn (col : Z)
| ToRow (r : Z)
| Position (r col : Z).

(** Modelled from the spec: [move_cursor]; every request is clamped
    to the grid, none is an error.  Absolute positions are 1-based as
    they arrive in control sequences; home is [Position 1 1]. *)
Definition move_cursor (s : t) (m : Motion) : t :=
  let cy := clamp 0 (lines s - 1) in
  let cx := clamp 0 (columns s - 1) in
  match m with
  | Up n => set_cursor s (cy (cursor_y s - n)) (cursor_x s)
  | Down n => set_cursor s (cy (cursor_y s + n)) (cursor_x s)
  | Forward n => set_cursor s (cursor_y s) (cx (cursor_x s + n))
  | Backward n => set_cursor s (cursor_y s) (cx (cursor_x s - n))
  | NextLine n => set_cursor s (cy (cursor_y s + n)) 0
  | PrevLine n => set_cursor s (cy (cursor_y s - n)) 0
  | ToColumn c => set_cursor s (cursor_y s) (cx (c - 1))
  | ToRow r => set_cursor s (cy (r - 1)) (cursor_x s)
  | Position r c => set_cursor s (cy (r - 1)) (cx (c - 1))
  end.

Inductive Region : Type :=
| LineToEnd | LineToStart | LineAll
| DisplayToEnd | DisplayToStart | DisplayAll.

(** Modelled from the spec: [f] applied to every row together with its
    index. *)
Definition map_rows (f : Z -> Line -> Line) (b : list Line) : list Line :=
  map (fun yl => f (fst yl) (snd yl)) (combine (range (Z.of_nat (length b))) b).

(** Modelled from the spec: [erase(region)]; erased cells become the
    default blank cell again.  The cursor does not move. *)
Definition erase (s : t) (r : Region) : option t :=
  let y := cursor_y s in
  let x := cursor_x s in
  match r with
  | LineToEnd =>
      match row s y with
      | Some l => set_row s y (restrict (fun k => k <? x) l)
      | None => None
      end
  | LineToStart =>
      match row s y with
      | Some l => set_row s y (restrict (fun k => x <? k) l)
      | None => None
      end
  | LineAll =>
      match row s y with
      | Some _ => set_row s y blank_line
      | None => None
      end
  | DisplayToEnd =>
      Some (set_buffer s (map_rows (fun i l =>
              if i <? y then l
              else if i =? y then restrict (fun k => k <? x) l
              else blank_line) (buffer s)))
  | DisplayToStart =>
      Some (set_buffer s (map_rows (fun i l =>
              if y <? i then l
              else if i =? y then restrict (fun k => x <? k) l
              else blank_line) (buffer s)))
  | DisplayAll =>
      Some (set_buffer s (map_rows (fun _ _ => blank_line) (buffer s)))
  end.

(** Modelled from the spec: one graphic-rendition parameter applied to
    the current attributes. *)
Definition sgr (a : Char) (p : Z) : Char :=
  if p =? 0 then with_data default_char (data a)
  else if p =? 1 then mkChar (data a) (fg a) (bg a) true (underline a) (inverse a)
  else if p =? 4 then mkChar (data a) (fg a) (bg a) (bold a) true (inverse a)
  else if p =? 7 then mkChar (data a) (fg a) (bg a) (bold a) (underline a) true
  else if p =? 22 then mkChar (data a) (fg a) (bg a) false (underline a) (inverse a)
  else if p =? 24 then mkChar (data a) (fg a) (bg a) (bold a) false (inverse a)
  else if p =? 27 then mkChar (data a) (fg a) (bg a) (bold a) (underline a) false
  else if (30 <=? p) && (p <=? 37)
    then mkChar (data a) (Indexed (p - 30)) (bg a) (bold a) (underline a) (inverse a)
  else if p =? 39
    then mkChar (data a) DefaultColor (bg a) (bold a) (underline a) (inverse a)
  else if (40 <=? p) && (p <=? 47)
    then mkChar (data a) (fg a) (Indexed (p - 40)) (bold a) (underline a) (inverse a)
  else if p =? 49
    then mkChar (data a) (fg a) DefaultColor (bold a) (underline a) (inverse a)
  else if (90 <=? p) && (p <=? 97)
    then mkChar (data a) (Indexed (p - 90 + 8)) (bg a) (bold a) (underline a) (inverse a)
  else if (100 <=? p) && (p <=? 107)
    then mkChar (data a) (fg a) (Indexed (p - 100 + 8)) (bold a) (underline a) (inverse a)
  else a.

(** Modelled from the spec: [set_attributes] (colours, bold,
    underline, inverse, reset); unknown parameters change nothing. *)
Definition set_attributes (s : t) (ps : list Z) : t :=
  set_cursor_attrs s (fold_left sgr ps (cursor_attrs s)).

(** Modelled from the spec: the scroll region [top..bottom] (1-based,
    as in the control sequence).  A region that is not at least two
    rows inside the grid is ignored; a valid one homes the cursor. *)
Definition set_scroll_region (s : t) (top bottom : Z) : t :=
  if (1 <=? top) && (top <? bottom) && (bottom <=? lines s)
  then set_cursor (set_margins s (top - 1) (bottom - 1)) 0 0
  else s.

(** Modelled from the spec: [resize] (the library's resize is not
    under [src/]).  The grid becomes a [rows] x [cols] array: rows
    beyond the new row count are discarded and do not enter the
    scrollback, columns beyond the new column count are truncated, new
    cells are blank; the cursor is clamped to the new bounds and the
    scroll region becomes the whole grid.  A request without at least
    one row and one column changes nothing. *)
Definition resize (rows cols : Z) (s : t) : t :=
  if (rows <=? 0) || (cols <=? 0) then s
  else
    mkScreen rows cols
      (map (restrict (fun k => k <? cols))
           (firstn (Z.to_nat rows) (buffer s)
            ++ repeat blank_line (Z.to_nat rows - length (buffer s))))
      (clamp 0 (rows - 1) (cursor_y s))
      (clamp 0 (cols - 1) (cursor_x s))
      (cursor_attrs s)
      0 (rows - 1)
      (history_top s) (history_maxlen s).

End Screen.

(* ================================================================== *)
(** ** The escape-sequence interpreter

    [src/terminal.py] creates it once, [pyte.Stream(self.screen)], and
    feeds it every chunk read from the PTY.  Its code is not under
    [src/]; the parser below follows sections 3 and 4.2 of the
    specification: a parser state, an accumulation buffer, and the
    control functions the specification lists as the minimum. *)

Module Stream.

(** Parser state. *)
Inductive State : Type :=
| Ground
| Escape
| CsiCollect
| OscCollect
| OscEscape.

(** The interpreter state: parser state and accumulation buffer. *)
Record t : Type := mkStream {
  state : State;
  collected : list N
}.

Definition initial : t := mkStream Ground [].

(** Code points with a role in the grammar. *)
Definition BEL : N := 7.
Definition LF : N := 10.
Definition CR : N := 13.
Definition ESC : N := 27.
Definition DEL : N := 127.

Definition is_digit (c : N) : bool := ((48 <=? c) && (c <=? 57))%N.
Definition is_semicolon (c : N) : bool := (c =? 59)%N.
(** Parameter bytes [0x30..0x3f] and intermediate bytes [0x20..0x2f]. *)
Definition is_csi_body (c : N) : bool := ((32 <=? c) && (c <=? 63))%N.
(** Final bytes [0x40..0x7e]. *)
Definition is_csi_final (c : N) : bool := ((64 <=? c) && (c <=? 126))%N.

(** Modelled from the spec: the numeric parameters of a collected
    control sequence, separated by [;]; an empty parameter is 0. *)
Fixpoint params_from (cur : Z) (acc : list Z) (body : list N) : list Z :=
  match body with
  | [] => rev (cur :: acc)
  | c :: r =>
      if is_semicolon c then params_from 0 (cur :: acc) r
      else params_from (10 * cur + (Z.of_N c - 48)) acc r
  end.

Definition params (body : list N) : list Z := params_from 0 [] body.

(** Modelled from the spec: a sequence body made of digits and [;]
    only. *)
Definition plain_body (body : list N) : bool :=
  forallb (fun c => is_digit c || is_semicolon c) body.

(** Modelled from the spec: the [i]-th parameter; a missing or zero one
    takes the default. *)
Definition arg (ps : list Z) (i : nat) (default : Z) : Z :=
  let v := nth i ps 0 in if v =? 0 then default else v.

(** Modelled from the spec: a completed control sequence acts on the
    screen.  Cursor motion ([A B C D E F G H d f]), erase in display
    and in line ([J K], modes 0, 1, 2), scroll up ([S]), graphic
    rendition ([m]), scroll region ([r]).  Anything else, and any
    body that is not plain parameters, is ignored. *)
Definition csi_dispatch (body : list N) (final : N) (s : Screen.t)
  : option Screen.t :=
  if negb (plain_body body) then Some s
  else
    let ps := params body in
    let n := arg ps 0 1 in
    let final_is := N.eqb final in
    if final_is 65%N then Some (Screen.move_cursor s (Screen.Up n))
     else if final_is 66%N then Some (Screen.move_cursor s (Screen.Down n))
     else if final_is 67%N then Some (Screen.move_cursor s (Screen.Forward n))
     else if final_is 68%N then Some (Screen.move_cursor s (Screen.Backward n))
     else if final_is 69%N then Some (Screen.move_cursor s (Screen.NextLine n))
     else if final_is 70%N then Some (Screen.move_cursor s (Screen.PrevLine n))
     else if final_is 71%N then Some (Screen.move_cursor s (Screen.ToColumn n))
     else if final_is 72%N || final_is 102%N
       then Some (Screen.move_cursor s (Screen.Position n (arg ps 1 1)))
     else if final_is 100%N then Some (Screen.move_cursor s (Screen.ToRow n))
     else if final_is 74%N then
       (let m := nth 0 ps 0 in
        if m =? 0 then Screen.erase s Screen.DisplayToEnd
        else if m =? 1 then Screen.erase s Screen.DisplayToStart
        else if m =? 2 then Screen.erase s Screen.DisplayAll
        else Some s)
     else if final_is 75%N then
       (let m := nth 0 ps 0 in
        if m =? 0 then Screen.erase s Screen.LineToEnd
        else if m =? 1 then Screen.erase s Screen.LineToStart
        else if m =? 2 then Screen.erase s Screen.LineAll
        else Some s)
     else if final_is 83%N then Screen.scroll_up (Z.to_nat n) s
     else if final_is 109%N then Some (Screen.set_attributes s ps)
     else if final_is 114%N
       then Some (Screen.set_scroll_region s n (arg ps 1 (Screen.lines s)))
     else Some s.

(** Modelled from the spec: one input character.  In the ground state
    a printable character is placed, line feed and carriage return
    act, ESC opens a sequence, any other control character is
    ignored.  A sequence is buffered while it is a prefix of a valid
    one, acted upon once complete, and discarded when invalid; either
    way parsing resumes in the ground state at the next character.
    An operating-system command is consumed up to BEL or ESC-backslash
    and discarded. *)
Definition feed_char (st : t * Screen.t) (c : N) : option (t * Screen.t) :=
  let (p, s) := st in
  match state p with
  | Ground =>
      if (c =? ESC)%N then Some (mkStream Escape [], s)
      else if (c =? LF)%N then
        match Screen.linefeed s with
        | Some s' => Some (p, s')
        | None => None
        end
      else if (c =? CR)%N then Some (p, Screen.carriage_return s)
      else if ((c <? 32) || (c =? DEL))%N then Some (p, s)
      else match Screen.put_char s c with
           | Some s' => Some (p, s')
           | None => None
           end
  | Escape =>
      if (c =? 91)%N then Some (mkStream CsiCollect [], s)
      else if (c =? 93)%N then Some (mkStream OscCollect [], s)
      else Some (initial, s)
  | CsiCollect =>
      if is_csi_body c then Some (mkStream CsiCollect (collected p ++ [c]), s)
      else if is_csi_final c then
        match csi_dispatch (collected p) c s with
        | Some s' => Some (initial, s')
        | None => None
        end
      else Some (initial, s)
  | OscCollect =>
      if (c =? BEL)%N then Some (initial, s)
      else if (c =? ESC)%N then Some (mkStream OscEscape (collected p), s)
      else Some (mkStream OscCollect (collected p ++ [c]), s)
  | OscEscape => Some (initial, s)
  end.

(** Modelled from the spec: [stream.feed(data)] (the library's feed is
    not under [src/]): the characters of [data] in order; the
    interpreter state left by one call is the one the next call starts
    from. *)
Fixpoint feed (data : pystr) (st : t * Screen.t) : option (t * Screen.t) :=
  match data with
  | [] => Some st
  | c :: rest =>
      match feed_char st c with
      | Some st' => feed rest st'
      | None => None
      end
  end.

End Stream.

(* ================================================================== *)
(** ** Qt key and modifier values ([Qt.Key], [Qt.KeyboardModifier]) *)

Module Qt.

Definition Key_Escape : Z := 0x01000000.
Definition Key_Tab : Z := 0x01000001.
Definition Key_Backspace : Z := 0x01000003.
Definition Key_Return : Z := 0x01000004.
Definition Key_Enter : Z := 0x01000005.
Definition Key_Delete : Z := 0x01000007.
Definition Key_Home : Z := 0x01000010.
Definition Key_End : Z := 0x01000011.
Definition Key_Left : Z := 0x01000012.
Definition Key_Up : Z := 0x01000013.
Definition Key_Right : Z := 0x01000014.
Definition Key_Down : Z := 0x01000015.
Definition Key_PageUp : Z := 0x01000016.
Definition Key_PageDown : Z := 0x01000017.

Definition Key_A : Z := 0x41.
Definition Key_C : Z := 0x43.
Definition Key_D : Z := 0x44.
Definition Key_L : Z := 0x4c.
Definition Key_V : Z := 0x56.
Definition Key_Z : Z := 0x5a.

Definition NoModifier : Z := 0.
Definition ShiftModifier : Z := 0x02000000.
Definition ControlModifier : Z := 0x04000000.
Definition AltModifier : Z := 0x08000000.

End Qt.

(* ================================================================== *)
(** ** [TerminalWidget] *)

Module Terminal.

(** Calls made on the PTY object. *)
Inductive PtyCall : Type :=
| PtyWrite (data : pystr)
| PtySetSize (cols rows : Z).

(** Calls made on the display side of the widget. *)
Inductive UiCall : Type :=
| SetPlainText (text : pystr)
| ScrollToBottom
| ClipboardSetText.

Record TerminalWidget : Type := mkWidget {
  pty_process : bool;            (* is there a PTY object *)
  pty_calls : list PtyCall;
  screen : Screen.t;
  stream : Stream.t;
  running : bool;
  _last_text : pystr;
  _user_scrolling : bool;
  ui_calls : list UiCall
}.

(** How [start_pty] went: the shell runs; creating the PTY raised (no
    PTY object is kept); or spawning the shell raised (the PTY object
    is kept, [running] stays unset).  A failure shows its message. *)
Inductive StartOutcome : Type :=
| Started
| PtyFailed (message : pystr)
| SpawnFailed (message : pystr).

(** [__init__], after [start_pty]. *)
Definition init (start : StartOutcome) : TerminalWidget :=
  match start with
  | Started =>
      mkWidget true [] (Screen.HistoryScreen 120 30 10000) Stream.initial
               true [] false []
  | PtyFailed message =>
      mkWidget false [] (Screen.HistoryScreen 120 30 10000) Stream.initial
               false [] false [SetPlainText message]
  | SpawnFailed message =>
      mkWidget true [] (Screen.HistoryScreen 120 30 10000) Stream.initial
               false [] false [SetPlainText message]
  end.

(** [char.data or " "]. *)
Definition char_text (c : Screen.Char) : pystr :=
  match Screen.data c with
  | [] => [32%N]
  | d => d
  end.

(** A scrollback line, as [render_screen] turns it into text. *)
Definition history_line_text (hist_line : Screen.Line) : pystr :=
  rstrip (concat (map char_text (values hist_line))).

(** Row [y] of the grid, as [render_screen] turns it into text. *)
Definition screen_line_text (s : Screen.t) (y : Z) : pystr :=
  rstrip (concat (map (fun x => char_text (Screen.cell s y x))
                      (range (Screen.columns s)))).

Definition is_empty (l : pystr) : bool :=
  match l with [] => true | _ => false end.

(** [while lines and not lines[-1]: lines.pop()]. *)
Definition pop_trailing_empty (lines : list pystr) : list pystr :=
  rev (dropwhile is_empty (rev lines)).

(** [new_text] of [render_screen]. *)
Definition screen_text (s : Screen.t) : pystr :=
  join [10%N]
    (pop_trailing_empty
       (map history_line_text (Screen.history_top s)
        ++ map (screen_line_text s) (range (Screen.lines s)))).

Definition render_screen (w : TerminalWidget) : TerminalWidget :=
  let new_text := screen_text (screen w) in
  if negb (pystr_eqb new_text (_last_text w)) then
    mkWidget (pty_process w) (pty_calls w) (screen w) (stream w)
             (running w) new_text (_user_scrolling w)
             (ui_calls w ++ SetPlainText new_text
                :: (if negb (_user_scrolling w) then [ScrollToBottom] else []))
  else w.

(** [process_output]: feed the interpreter, then render.  [None]
    stands for an exception escaping [stream.feed]. *)
Definition process_output (w : TerminalWidget) (data : pystr)
  : option TerminalWidget :=
  match Stream.feed data (stream w, screen w) with
  | Some (p, s) =>
      Some (render_screen
              (mkWidget (pty_process w) (pty_calls w) s p (running w)
                        (_last_text w) (_user_scrolling w) (ui_calls w)))
  | None => None
  end.

(** [write_to_pty]: a failing write is caught and only printed. *)
Definition write_to_pty (w : TerminalWidget) (data : pystr) : TerminalWidget :=
  if pty_process w then
    mkWidget (pty_process w) (pty_calls w ++ [PtyWrite data]) (screen w)
             (stream w) (running w) (_last_text w) (_user_scrolling w)
             (ui_calls w)
  else w.

(** [copy_selection]; [selected] is the selected text. *)
Definition copy_selection (w : TerminalWidget) (selected : pystr) : TerminalWidget :=
  match selected with
  | [] => w
  | _ => mkWidget (pty_process w) (pty_calls w) (screen w) (stream w)
                  (running w) (_last_text w) (_user_scrolling w)
                  (ui_calls w ++ [ClipboardSetText])
  end.

(** [paste_clipboard]; [clipboard] is the clipboard text. *)
Definition paste_clipboard (w : TerminalWidget) (clipboard : pystr) : TerminalWidget :=
  match clipboard with
  | [] => w
  | _ => write_to_pty w clipboard
  end.

(** What [keyPressEvent] reads besides the event itself. *)
Record Desktop : Type := mkDesktop {
  selected_text : pystr;
  clipboard_text : pystr
}.

Definition keyPressEvent (w : TerminalWidget) (env : Desktop)
           (key modifiers : Z) (text : pystr) : TerminalWidget :=
  if (modifiers =? Z.lor Qt.ControlModifier Qt.ShiftModifier)
     && (key =? Qt.Key_C) then copy_selection w (selected_text env)
  else if (modifiers =? Z.lor Qt.ControlModifier Qt.ShiftModifier)
     && (key =? Qt.Key_V) then paste_clipboard w (clipboard_text env)
  else if (key =? Qt.Key_Return) || (key =? Qt.Key_Enter)
    then write_to_pty w [13%N]
  else if key =? Qt.Key_Backspace then write_to_pty w [127%N]
  else if key =? Qt.Key_Tab then write_to_pty w [9%N]
  else if key =? Qt.Key_Escape then write_to_pty w [27%N]
  else if key =? Qt.Key_Up then write_to_pty w (27%N :: str "[A")
  else if key =? Qt.Key_Down then write_to_pty w (27%N :: str "[B")
  else if key =? Qt.Key_Right then write_to_pty w (27%N :: str "[C")
  else if key =? Qt.Key_Left then write_to_pty w (27%N :: str "[D")
  else if key =? Qt.Key_Home then write_to_pty w (27%N :: str "[H")
  else if key =? Qt.Key_End then write_to_pty w (27%N :: str "[F")
  else if key =? Qt.Key_Delete then write_to_pty w (27%N :: str "[3~")
  else if key =? Qt.Key_PageUp then write_to_pty w (27%N :: str "[5~")
  else if key =? Qt.Key_PageDown then write_to_pty w (27%N :: str "[6~")
  else if modifiers =? Qt.ControlModifier then
    (if key =? Qt.Key_C then write_to_pty w [3%N]
     else if key =? Qt.Key_D then write_to_pty w [4%N]
     else if key =? Qt.Key_Z then write_to_pty w [26%N]
     else if key =? Qt.Key_L then write_to_pty w [12%N]
     else if (Qt.Key_A <=? key) && (key <=? Qt.Key_Z)
       then write_to_pty w [Z.to_N (key - Qt.Key_A + 1)]
     else w)
  else match text with
       | [] => w
       | _ => write_to_pty w text
       end.

(** [resizeEvent].  [None] stands for the [ZeroDivisionError] of a
    zero font metric, raised before the [try].  [set_size_ok] tells
    whether [pty_process.set_size] returns; when it raises instead, the
    [except] clause is entered before [screen.resize] is reached. *)
Definition resizeEvent (w : TerminalWidget)
           (viewport_width viewport_height char_width char_height : Z)
           (set_size_ok : bool) : option TerminalWidget :=
  if pty_process w then
    if (char_width =? 0) || (char_height =? 0) then None
    else
      let cols := Z.max 80 (viewport_width / char_width) in
      let rows := Z.max 24 (viewport_height / char_height) in
      Some (mkWidget (pty_process w) (pty_calls w ++ [PtySetSize cols rows])
              (if set_size_ok then Screen.resize rows cols (screen w)
               else screen w)
              (stream w) (running w) (_last_text w) (_user_scrolling w)
              (ui_calls w))
  else Some w.

(** *** The reader thread *)

Inductive ReadOutcome : Type :=
| Data (data : pystr)
| Raises.

(** One turn of the loop of [read_pty], as the world presents it:
    the value of [self.running] at the loop test (another thread may
    clear it), what [pty_process.read()] does, and the value of
    [self.running] seen by the handler. *)
Record Turn : Type := mkTurn {
  running_at_test : bool;
  outcome : ReadOutcome;
  running_at_except : bool
}.

Inductive WorkerEvent : Type :=
| PtyRead
| DataReady (data : pystr)
| Sleep.

Inductive WorkerStatus : Type :=
| Returned           (* the loop was left and [read_pty] returned *)
| StillLooping.      (* the listed turns are used up *)

(** The notice emitted on a failing read. *)
Definition session_ended : pystr :=
  10%N :: str "[Session ended]" ++ [10%N].

Fixpoint read_pty (has_pty : bool) (world : list Turn)
  : list WorkerEvent * WorkerStatus :=
  match world with
  | [] => ([], StillLooping)
  | turn :: rest =>
      if running_at_test turn && has_pty then
        match outcome turn with
        | Data d =>
            let (events, status) := read_pty has_pty rest in
            (PtyRead :: (match d with [] => [] | _ => [DataReady d] end)
               ++ Sleep :: events, status)
        | Raises =>
            (PtyRead :: (if running_at_except turn
                         then [DataReady session_ended] else []),
             Returned)
        end
      else ([], Returned)
  end.

End Terminal.

(* ================================================================== *)
(** ** The properties, as the specification words them *)

Module Spec.

Import Terminal.

(** *** Screen Model invariants (specification section 3) *)

Definition cursor_in_grid (s : Screen.t) : Prop :=
  0 <= Screen.cursor_y s < Screen.lines s
  /\ 0 <= Screen.cursor_x s < Screen.columns s.

Definition scrollback_bounded (s : Screen.t) : Prop :=
  Z.of_nat (length (Screen.history_top s)) <= Screen.history_maxlen s.

(** Every stored cell of a row lies in columns [0 .. cols-1]. *)
Definition row_in_columns (cols : Z) (l : Screen.Line) : Prop :=
  Forall (fun kv => 0 <= fst kv < cols) l.

(** A well-formed screen: a grid of at least one cell with as many
    rows as [lines] says, every stored cell inside it, the cursor and
    the scroll region inside it, the scrollback within its bound. *)
Definition well_formed (s : Screen.t) : Prop :=
  0 < Screen.lines s
  /\ 0 < Screen.columns s
  /\ Z.of_nat (length (Screen.buffer s)) = Screen.lines s
  /\ Forall (row_in_columns (Screen.columns s)) (Screen.buffer s)
  /\ cursor_in_grid s
  /\ (0 <= Screen.margin_top s <= Screen.margin_bottom s
      /\ Screen.margin_bottom s < Screen.lines s)
  /\ scrollback_bounded s.

(** *** Successive [process_output] calls, one per chunk *)

Fixpoint process_outputs (w : TerminalWidget) (chunks : list pystr)
  : option TerminalWidget :=
  match chunks with
  | [] => Some w
  | data :: rest =>
      match process_output w data with
      | Some w' => process_outputs w' rest
      | None => None
      end
  end.

(** The Screen Model together with the interpreter state. *)
Definition model (w : TerminalWidget) : Stream.t * Screen.t :=
  (stream w, screen w).

(** A control sequence: ESC, [[], the parameter and intermediate
    characters [body], the final character. *)
Definition csi_sequence (body : list N) (final : N) : pystr :=
  27%N :: 91%N :: body ++ [final].

(** The interpreter state while the first [k] characters of a control
    sequence with body [body] have arrived and its final character has
    not: nothing of it, the ESC, or the opening and the first [k - 2]
    characters of the body, held in the accumulation buffer. *)
Definition collecting (k : nat) (body : list N) : Stream.t :=
  match k with
  | O => Stream.initial
  | S O => Stream.mkStream Stream.Escape []
  | S (S j) => Stream.mkStream Stream.CsiCollect (firstn j body)
  end.



(** *** Key Encoder table (specification section 4.4)

    Named keys first, then Control with a letter (Control being the
    only modifier), then literal text; nothing otherwise. *)
Definition encode (key modifiers : Z) (text : pystr) : pystr :=
  if key =? Qt.Key_Up then 27%N :: str "[A"
  else if key =? Qt.Key_Down then 27%N :: str "[B"
  else if key =? Qt.Key_Right then 27%N :: str "[C"
  else if key =? Qt.Key_Left then 27%N :: str "[D"
  else if (key =? Qt.Key_Return) || (key =? Qt.Key_Enter) then [13%N]
  else if key =? Qt.Key_Backspace then [127%N]
  else if key =? Qt.Key_Tab then [9%N]
  else if key =? Qt.Key_Escape then [27%N]
  else if key =? Qt.Key_Delete then 27%N :: str "[3~"
  else if key =? Qt.Key_Home then 27%N :: str "[H"
  else if key =? Qt.Key_End then 27%N :: str "[F"
  else if key =? Qt.Key_PageUp then 27%N :: str "[5~"
  else if key =? Qt.Key_PageDown then 27%N :: str "[6~"
  else if (modifiers =? Qt.ControlModifier) && (key =? Qt.Key_C) then [3%N]
  else if (modifiers =? Qt.ControlModifier) && (key =? Qt.Key_D) then [4%N]
  else if (modifiers =? Qt.ControlModifier) && (key =? Qt.Key_Z) then [26%N]
  else if (modifiers =? Qt.ControlModifier) && (key =? Qt.Key_L) then [12%N]
  else if (modifiers =? Qt.ControlModifier)
          && (Qt.Key_A <=? key) && (key <=? Qt.Key_Z)
    then [Z.to_N (key - Qt.Key_A + 1)]
  else text.

(** The encoder's output handed to the PTY: one [write_to_pty] of the
    bytes, nothing at all for no output. *)
Definition send (w : TerminalWidget) (bytes : pystr) : TerminalWidget :=
  match bytes with
  | [] => w
  | _ => write_to_pty w bytes
  end.

(** The keys the table names. *)
Definition named_key (key : Z) : bool :=
  existsb (Z.eqb key)
    [Qt.Key_Up; Qt.Key_Down; Qt.Key_Right; Qt.Key_Left; Qt.Key_Return;
     Qt.Key_Enter; Qt.Key_Backspace; Qt.Key_Tab; Qt.Key_Escape;
     Qt.Key_Delete; Qt.Key_Home; Qt.Key_End; Qt.Key_PageUp;
     Qt.Key_PageDown].

(** Ctrl+Shift+C and Ctrl+Shift+V: the clipboard shortcuts. *)
Definition clipboard_shortcut (key modifiers : Z) : bool :=
  (modifiers =? Z.lor Qt.ControlModifier Qt.ShiftModifier)
  && ((key =? Qt.Key_C) || (key =? Qt.Key_V)).

(** Control alone with a key that is neither named nor a letter. *)
Definition control_with_other_key (key modifiers : Z) : bool :=
  (modifiers =? Qt.ControlModifier)
  && negb (named_key key)
  && negb ((Qt.Key_A <=? key) && (key <=? Qt.Key_Z)).

(** *** Render Projector (specification section 4.5) *)

(** A blank cell: the default blank or an empty one. *)
Definition blank_cell (c : Screen.Char) : bool :=
  match Screen.data c with
  | [] => true
  | [c0] => (c0 =? 32)%N
  | _ => false
  end.

(** The cell of a row at a column; an absent cell is the default
    blank cell. *)
Definition cell_at (l : Screen.Line) (x : Z) : Screen.Char :=
  match get l x with
  | Some c => c
  | None => Screen.default_char
  end.

(** The first column past every stored cell of a row. *)
Definition line_width (l : Screen.Line) : Z :=
  fold_right (fun kv m => Z.max (fst kv + 1) m) 0 l.

(** The cells of a row, left to right. *)
Definition row_cells (width : Z) (l : Screen.Line) : list Screen.Char :=
  map (cell_at l) (range width).

(** Right-trim: the trailing blank cells are stripped. *)
Definition strip_trailing_blank (cells : list Screen.Char) : list Screen.Char :=
  rev (dropwhile blank_cell (rev cells)).

Definition cells_text (cells : list Screen.Char) : pystr :=
  concat (map char_text cells).

(** Scrollback rows, oldest first, then the grid rows. *)
Definition all_rows (s : Screen.t) : list (list Screen.Char) :=
  map (fun l => row_cells (line_width l) l) (Screen.history_top s)
  ++ map (fun y => map (Screen.cell s y) (range (Screen.columns s)))
         (range (Screen.lines s)).

Definition no_cells (cells : list Screen.Char) : bool :=
  match cells with [] => true | _ => false end.

(** [project]: rows right-trimmed, trailing all-blank rows removed,
    the rest joined by line breaks. *)
Definition project (s : Screen.t) : pystr :=
  join [10%N]
    (map cells_text
       (rev (dropwhile no_cells
               (rev (map strip_trailing_blank (all_rows s)))))).

(** *** Control sequences the interpreter acts upon *)

Definition supported_final (c : N) : bool :=
  existsb (N.eqb c)
    [65; 66; 67; 68; 69; 70; 71; 72; 74; 75; 83; 100; 102; 109; 114]%N.

(** *** Rows the renderer reads faithfully, and one it does not *)

(** A row that stores every column from 0 up to its width, in order. *)
Definition dense_row (l : Screen.Line) : Prop :=
  map fst l = range (Z.of_nat (length l)).

(** A cell whose text is not empty and does not end in whitespace. *)
Definition solid_cell (c : Screen.Char) : bool :=
  match rev (Screen.data c) with
  | [] => false
  | x :: _ => negb (isspace x)
  end.

Definition plain_cell (c : Screen.Char) : Prop :=
  blank_cell c = true \/ solid_cell c = true.

(** A default-attribute cell showing one character. *)
Definition glyph (c : N) : Screen.Char :=
  Screen.with_data Screen.default_char [c].

(** A scrollback row written at columns 5 and 6 only, as left by
    [ESC [ 6 G] followed by the two letters of Hi. *)
Definition gap_row : Screen.Line := [(5, glyph 72); (6, glyph 105)].

(** A blank 2 x 10 grid whose scrollback holds [gap_row]. *)
Definition gap_screen : Screen.t :=
  Screen.mkScreen 2 10 [Screen.blank_line; Screen.blank_line]
                  0 0 Screen.default_char 0 1 [gap_row] 100.

(** *** The reader thread: what successful turns deliver *)

(** The events of turns that all read successfully. *)
Fixpoint delivered (reads : list (pystr * bool)) : list WorkerEvent :=
  match reads with
  | [] => []
  | (d, _) :: rest =>
      PtyRead :: (match d with [] => [] | _ => [DataReady d] end)
        ++ Sleep :: delivered rest
  end.

(** A turn in which the session is running and the read returns [d];
    the flag the handler would see plays no part. *)
Definition good_turn (r : pystr * bool) : Turn :=
  mkTurn true (Data (fst r)) (snd r).

(** *** What every screen operation preserves *)

(** The screen [s'] is well formed and has the dimensions and the
    scrollback bound of [s]. *)
Definition preserved (s s' : Screen.t) : Prop :=
  well_formed s'
  /\ Screen.lines s' = Screen.lines s
  /\ Screen.columns s' = Screen.columns s
  /\ Screen.history_maxlen s' = Screen.history_maxlen s.

End Spec.

(* ================================================================== *)
(** ** [TerminalWidget]: the remaining methods *)

Module TerminalOps.

Import Terminal.

(** [cleanup]: [running] is cleared; the PTY object, when there is one,
    is closed (an exception of [close] is swallowed) and kept.  The
    second component tells whether [pty_process.close()] was called. *)
Definition cleanup (w : TerminalWidget) : TerminalWidget * bool :=
  (mkWidget (pty_process w) (pty_calls w) (screen w) (stream w) false
            (_last_text w) (_user_scrolling w) (ui_calls w),
   pty_process w).

(** [auto_press_one], run by a timer 1.5 s after a successful start. *)
Definition auto_press_one (w : TerminalWidget) : TerminalWidget :=
  if running w then write_to_pty w (str "1") else w.

(** The command typed by the timer 0.5 s after a successful start:
    [write_to_pty("claude\r")]. *)
Definition type_claude (w : TerminalWidget) : TerminalWidget :=
  write_to_pty w (str "claude" ++ [13%N]).

(** [_on_scroll(value)], [maximum] being the scrollbar's maximum. *)
Definition _on_scroll (w : TerminalWidget) (value maximum : Z) : TerminalWidget :=
  mkWidget (pty_process w) (pty_calls w) (screen w) (stream w) (running w)
           (_last_text w) (value <? maximum - 10) (ui_calls w).

(** The text the display holds: that of the last [setPlainText], the
    empty text before any. *)
Fixpoint displayed_from (shown : pystr) (calls : list UiCall) : pystr :=
  match calls with
  | [] => shown
  | SetPlainText text :: rest => displayed_from text rest
  | _ :: rest => displayed_from shown rest
  end.

Definition displayed (w : TerminalWidget) : pystr :=
  displayed_from [] (ui_calls w).

(** The payloads the reader thread hands to [data_ready]. *)
Fixpoint emitted (events : list WorkerEvent) : list pystr :=
  match events with
  | [] => []
  | DataReady d :: rest => d :: emitted rest
  | _ :: rest => emitted rest
  end.

(** The number of [pty_process.read()] calls. *)
Fixpoint reads_made (events : list WorkerEvent) : nat :=
  match events with
  | [] => O
  | PtyRead :: rest => S (reads_made rest)
  | _ :: rest => reads_made rest
  end.

(** The non-empty data of the turns, in order. *)
Fixpoint data_read (turns : list Turn) : list pystr :=
  match turns with
  | [] => []
  | turn :: rest =>
      match outcome turn with
      | Data (c :: d) => (c :: d) :: data_read rest
      | _ => data_read rest
      end
  end.

End TerminalOps.

(* ================================================================== *)
(** ** [theme.py]: the palette and the current theme *)

Module Theme.

(** A [dict] from [str] to [str], in insertion order. *)
Definition palette := list (pystr * pystr).

(** [d[k] = v]. *)
Fixpoint setitem (d : palette) (k v : pystr) : palette :=
  match d with
  | [] => [(k, v)]
  | (k', v') :: r =>
      if pystr_eqb k' k then (k, v) :: r else (k', v') :: setitem r k v
  end.

(** [d.update(other)]. *)
Definition update (d other : palette) : palette :=
  fold_left (fun acc kv => setitem acc (fst kv) (snd kv)) other d.

(** [d[k]]; [None] stands for [KeyError]. *)
Fixpoint getitem (d : palette) (k : pystr) : option pystr :=
  match d with
  | [] => None
  | (k', v') :: r => if pystr_eqb k' k then Some v' else getitem r k
  end.

Definition DARK_THEME : palette :=
  [ (str "bg_primary", str "#1c1c1a");
    (str "bg_secondary", str "#252523");
    (str "bg_tertiary", str "#2e2e2b");
    (str "bg_hover", str "#3a3a36");
    (str "accent", str "#82827d");
    (str "accent_light", str "#9a9a95");
    (str "text_primary", str "#e8e8e6");
    (str "text_secondary", str "#a8a8a4");
    (str "text_muted", str "#6e6e6a");
    (str "border", str "#3a3a36");
    (str "terminal_bg", str "#1c1c1a");
    (str "terminal_fg", str "#e8e8e6");
    (str "close_hover", str "#e55050") ].

Definition LIGHT_THEME : palette :=
  [ (str "bg_primary", str "#ffffff");
    (str "bg_secondary", str "#f5f5f5");
    (str "bg_tertiary", str "#e8e8e8");
    (str "bg_hover", str "#d0d0d0");
    (str "accent", str "#6b6b6b");
    (str "accent_light", str "#888888");
    (str "text_primary", str "#1a1a1a");
    (str "text_secondary", str "#4a4a4a");
    (str "text_muted", str "#888888");
    (str "border", str "#d0d0d0");
    (str "terminal_bg", str "#ffffff");
    (str "terminal_fg", str "#1a1a1a");
    (str "close_hover", str "#e55050") ].

(** The module's globals: [_current_theme] and the one [COLORS] dict
    every importer shares. *)
Record State : Type := mkTheme {
  _current_theme : pystr;
  COLORS : palette
}.

(** The globals when the module is loaded: [COLORS = DARK_THEME.copy()]. *)
Definition loaded : State := mkTheme (str "dark") DARK_THEME.

Definition get_theme (s : State) : pystr := _current_theme s.

Definition set_theme (s : State) (theme : pystr) : State :=
  mkTheme theme
    (if pystr_eqb theme (str "light")
     then update (COLORS s) LIGHT_THEME
     else update (COLORS s) DARK_THEME).

(** [toggle_theme]: the new state and the name returned. *)
Definition toggle_theme (s : State) : State * pystr :=
  let new_theme :=
    if pystr_eqb (_current_theme s) (str "dark") then str "light"
    else str "dark" in
  (set_theme s new_theme, new_theme).

(** A call of the module's interface. *)
Inductive Call : Type :=
| SetTheme (theme : pystr)
| ToggleTheme.

Definition call (s : State) (c : Call) : State :=
  match c with
  | SetTheme theme => set_theme s theme
  | ToggleTheme => fst (toggle_theme s)
  end.

(** The colours the widgets look up ([COLORS['...']] in [terminal.py],
    [window.py], [widgets.py] and [app.py]). *)
Definition looked_up : list pystr :=
  [ str "accent"; str "bg_hover"; str "bg_primary"; str "bg_secondary";
    str "bg_tertiary"; str "border"; str "close_hover"; str "terminal_bg";
    str "terminal_fg"; str "text_muted"; str "text_primary";
    str "text_secondary" ].

End Theme.

(* ================================================================== *)
(** ** [translator.py]: the Russian-to-English translator *)

Module Translator.

(** What [load_model] meets: both parts load; the import or the
    tokenizer raises [e], nothing being set; or the model raises [e],
    the tokenizer being set. *)
Inductive LoadOutcome : Type :=
| Loaded
| TokenizerFails (e : pystr)
| ModelFails (e : pystr).

(** What the [try] block of [translate] meets: the decoded result, or
    an exception [e]. *)
Inductive RunOutcome : Type :=
| Decoded (result : pystr)
| RunFails (e : pystr).

(** The fields of [Translator]; [_on_status] tells whether a status
    callback is set. *)
Record t : Type := mkTranslator {
  model : bool;
  tokenizer : bool;
  _on_status : bool
}.

(** [Translator()]. *)
Definition new : t := mkTranslator false false false.

Definition set_status_callback (tr : t) : t :=
  mkTranslator (model tr) (tokenizer tr) true.

(** [_update_status]: the calls made on the status callback. *)
Definition _update_status (tr : t) (status : pystr) : list pystr :=
  if _on_status tr then [status] else [].

(** [s.lstrip()] and [s.strip()]. *)
Definition lstrip (s : pystr) : pystr := dropwhile isspace s.
Definition strip (s : pystr) : pystr := rstrip (lstrip s).

(** [load_model]: the translator, the value returned and the statuses
    reported. *)
Definition load_model (tr : t) (load : LoadOutcome) : t * bool * list pystr :=
  match load with
  | Loaded =>
      (mkTranslator true true (_on_status tr), true,
       _update_status tr (str "Loading translator...")
       ++ _update_status tr (str "Translator ready"))
  | TokenizerFails e =>
      (tr, false,
       _update_status tr (str "Loading translator...")
       ++ _update_status tr (str "Translator error: " ++ e))
  | ModelFails e =>
      (mkTranslator (model tr) true (_on_status tr), false,
       _update_status tr (str "Loading translator...")
       ++ _update_status tr (str "Translator error: " ++ e))
  end.

(** [translate]: the translator, the value returned ([None] is Python's
    [None]) and the statuses reported. *)
Definition translate (tr : t) (text : pystr) (load : LoadOutcome)
           (run : RunOutcome) : t * option pystr * list pystr :=
  match text, strip text with
  | [], _ | _, [] => (tr, Some [], [])
  | _, _ =>
      let '(tr1, ok, statuses) :=
        if model tr then (tr, true, []) else load_model tr load in
      if ok then
        match run with
        | Decoded result => (tr1, Some result, statuses)
        | RunFails e =>
            (tr1, None,
             statuses ++ _update_status tr1 (str "Translation error: " ++ e))
        end
      else (tr1, None, statuses)
  end.

(** One [translate] call with what it meets. *)
Record Request : Type := mkRequest {
  text : pystr;
  load : LoadOutcome;
  run : RunOutcome
}.

(** Successive calls: the translator left and all statuses reported. *)
Fixpoint translate_all (tr : t) (requests : list Request) : t * list pystr :=
  match requests with
  | [] => (tr, [])
  | r :: rest =>
      let '(tr1, _, statuses) := translate tr (text r) (load r) (run r) in
      let (tr2, more) := translate_all tr1 rest in
      (tr2, statuses ++ more)
  end.

End Translator.

(* ================================================================== *)
(** ** [voice.py]: the voice recognizer *)

Module Voice.

(** An exception met by [load_model]: an [ImportError], or another
    exception with its text. *)
Inductive Raised : Type :=
| ImportError
| OtherError (e : pystr).

(** What [load_model] meets: the model loads, [import gigaam] raises,
    or [gigaam.load_model] raises. *)
Inductive LoadOutcome : Type :=
| ModelLoaded
| ImportRaises (r : Raised)
| LoadRaises (r : Raised).

(** What opening and starting the input stream meets. *)
Inductive StartOutcome : Type :=
| StreamStarted
| StartRaises (e : pystr).

(** What stopping and closing the input stream meets. *)
Inductive StopOutcome : Type :=
| StreamStopped
| StopRaises (e : pystr).

(** What the [try] block of [_transcribe] meets: every step succeeds
    and the model returns a transcription; the temporary file or
    [sf.write] raises; [model.transcribe] or the unlink raises. *)
Inductive TranscribeOutcome : Type :=
| Transcribed (transcription : pystr)
| WriteRaises (e : pystr)
| TranscribeRaises (e : pystr).

Section Recognizer.

(** One audio sample; a block handed to the audio callback is a list of
    samples, and so is the concatenated audio. *)
Variable sample : Type.

(** What the recognizer does to the outside: calls of the status and
    result callbacks, and the audio written for transcription. *)
Inductive Effect : Type :=
| StatusUpdate (status : pystr)
| ResultReady (text : pystr)
| WavWritten (audio : list sample).

(** The fields of [VoiceRecognizer] that the methods use; [_on_result]
    and [_on_status] tell whether the callback is set. *)
Record t : Type := mkRecognizer {
  model : bool;
  is_recording : bool;
  recorded_audio : list (list sample);
  _on_result : bool;
  _on_status : bool
}.

(** [VoiceRecognizer()]. *)
Definition new : t := mkRecognizer false false [] false false.

Definition set_callbacks (v : t) (on_result on_status : bool) : t :=
  mkRecognizer (model v) (is_recording v) (recorded_audio v) on_result on_status.

Definition _update_status (v : t) (status : pystr) : list Effect :=
  if _on_status v then [StatusUpdate status] else [].

Definition load_error (v : t) (r : Raised) : list Effect :=
  match r with
  | ImportError =>
      _update_status v (str "GigaAM not installed. Run: pip install gigaam")
  | OtherError e => _update_status v (str "Failed to load model: " ++ e)
  end.

Definition load_model (v : t) (load : LoadOutcome) : t * bool * list Effect :=
  match load with
  | ModelLoaded =>
      (mkRecognizer true (is_recording v) (recorded_audio v)
                    (_on_result v) (_on_status v),
       true,
       _update_status v (str "Loading GigaAM model...")
       ++ _update_status v (str "GigaAM model loaded"))
  | ImportRaises r => (v, false, load_error v r)
  | LoadRaises r =>
      (v, false,
       _update_status v (str "Loading GigaAM model...") ++ load_error v r)
  end.

(** [_audio_callback(indata, frames, time, status)]; [status] is
    [Some] of its text when the flags are set. *)
Definition _audio_callback (v : t) (indata : list sample)
           (status : option pystr) : t * list Effect :=
  (if is_recording v
   then mkRecognizer (model v) true (recorded_audio v ++ [indata])
                     (_on_result v) (_on_status v)
   else v,
   match status with
   | Some s => _update_status v (str "Audio error: " ++ s)
   | None => []
   end).

Definition start_recording (v : t) (start : StartOutcome) : t * list Effect :=
  if is_recording v then (v, [])
  else
    match start with
    | StreamStarted =>
        (mkRecognizer (model v) true [] (_on_result v) (_on_status v),
         _update_status v (str "Recording..."))
    | StartRaises e =>
        (mkRecognizer (model v) false [] (_on_result v) (_on_status v),
         _update_status v (str "Recording...")
         ++ _update_status v (str "Failed to start recording: " ++ e))
    end.

Definition _transcribe (v : t) (audio_data : list sample) (load : LoadOutcome)
           (tr : TranscribeOutcome) : t * option pystr * list Effect :=
  let '(v1, ok, effects) :=
    if model v then (v, true, []) else load_model v load in
  if ok then
    match tr with
    | Transcribed transcription =>
        (v1, Some transcription,
         effects ++ [WavWritten audio_data]
         ++ _update_status v1 (str "Transcribing...")
         ++ _update_status v1 (str "Ready"))
    | WriteRaises e =>
        (v1, None,
         effects ++ _update_status v1 (str "Transcription error: " ++ e))
    | TranscribeRaises e =>
        (v1, None,
         effects ++ [WavWritten audio_data]
         ++ _update_status v1 (str "Transcribing...")
         ++ _update_status v1 (str "Transcription error: " ++ e))
    end
  else (v1, None, effects).

Definition stop_recording (v : t) (stop : StopOutcome) (load : LoadOutcome)
           (tr : TranscribeOutcome) : t * option pystr * list Effect :=
  if negb (is_recording v) then (v, None, [])
  else
    let v1 := mkRecognizer (model v) false (recorded_audio v)
                           (_on_result v) (_on_status v) in
    let stopping :=
      _update_status v1 (str "Processing...")
      ++ match stop with
         | StreamStopped => []
         | StopRaises e => _update_status v1 (str "Error stopping stream: " ++ e)
         end in
    match recorded_audio v1 with
    | [] => (v1, None, stopping ++ _update_status v1 (str "No audio recorded"))
    | _ :: _ =>
        let '(v2, transcription, effects) :=
          _transcribe v1 (concat (recorded_audio v1)) load tr in
        (v2, transcription,
         stopping ++ effects
         ++ match transcription with
            | Some (c :: rest) =>
                if _on_result v2 then [ResultReady (c :: rest)] else []
            | _ => []
            end)
    end.

Definition toggle_recording (v : t) (start : StartOutcome) (stop : StopOutcome)
           (load : LoadOutcome) (tr : TranscribeOutcome)
  : t * bool * list Effect :=
  if is_recording v then
    let '(v1, _, effects) := stop_recording v stop load tr in
    (v1, false, effects)
  else
    let (v1, effects) := start_recording v start in
    (v1, true, effects).

(** The audio callback run on successive blocks. *)
Fixpoint hear (v : t) (blocks : list (list sample * option pystr))
  : t * list Effect :=
  match blocks with
  | [] => (v, [])
  | (indata, status) :: rest =>
      let (v1, effects) := _audio_callback v indata status in
      let (v2, more) := hear v1 rest in
      (v2, effects ++ more)
  end.

(** The results handed to the result callback, and the audio written. *)
Fixpoint results (effects : list Effect) : list pystr :=
  match effects with
  | [] => []
  | ResultReady text :: rest => text :: results rest
  | _ :: rest => results rest
  end.

Fixpoint written (effects : list Effect) : list (list sample) :=
  match effects with
  | [] => []
  | WavWritten audio :: rest => audio :: written rest
  | _ :: rest => written rest
  end.

End Recognizer.

Arguments StatusUpdate {sample}.
Arguments ResultReady {sample}.
Arguments WavWritten {sample}.
Arguments mkRecognizer {sample}.
Arguments model {sample}.
Arguments is_recording {sample}.
Arguments recorded_audio {sample}.
Arguments _on_result {sample}.
Arguments _on_status {sample}.
Arguments new {sample}.
Arguments set_callbacks {sample}.
Arguments _update_status {sample}.
Arguments load_error {sample}.
Arguments load_model {sample}.
Arguments _audio_callback {sample}.
Arguments start_recording {sample}.
Arguments _transcribe {sample}.
Arguments stop_recording {sample}.
Arguments toggle_recording {sample}.
Arguments hear {sample}.
Arguments results {sample}.
Arguments written {sample}.

End Voice.

(* ================================================================== *)
(** ** [widgets.py]: the title bar drag and the status bar *)

Module Widgets.

(** [QPoint], with its subtraction. *)
Definition QPoint : Type := (Z * Z)%type.

Definition sub (a b : QPoint) : QPoint := (fst a - fst b, snd a - snd b).

(** [Qt.MouseButton.LeftButton]. *)
Definition LeftButton : Z := 1.

(** The fields of [TitleBar] that the mouse handlers use. *)
Record TitleBar : Type := mkTitleBar {
  dragging : bool;
  drag_position : QPoint
}.

Definition new_title_bar : TitleBar := mkTitleBar false (0, 0).

(** The handlers take the title bar and the top-left corner of the
    parent window's frame, which [parent_window.move] sets. *)
Definition mousePressEvent (tb : TitleBar) (top_left : QPoint)
           (button : Z) (global : QPoint) : TitleBar :=
  if button =? LeftButton then mkTitleBar true (sub global top_left) else tb.

Definition mouseMoveEvent (tb : TitleBar) (top_left : QPoint)
           (buttons : Z) (global : QPoint) : QPoint :=
  if dragging tb && (buttons =? LeftButton)
  then sub global (drag_position tb) else top_left.

Definition mouseReleaseEvent (tb : TitleBar) : TitleBar :=
  mkTitleBar false (drag_position tb).

(** Mouse events on the title bar, and their effect on the title bar
    and on the window's position. *)
Inductive Mouse : Type :=
| Press (button : Z) (global : QPoint)
| Move (buttons : Z) (global : QPoint)
| Release.

Definition mouse (s : TitleBar * QPoint) (e : Mouse) : TitleBar * QPoint :=
  match e with
  | Press button global => (mousePressEvent (fst s) (snd s) button global, snd s)
  | Move buttons global => (fst s, mouseMoveEvent (fst s) (snd s) buttons global)
  | Release => (mouseReleaseEvent (fst s), snd s)
  end.

(** The fields of [StatusBar]: the recording flag and the texts of the
    status label and of the theme button. *)
Record StatusBar : Type := mkStatusBar {
  is_recording : bool;
  status_label : pystr;
  theme_btn : pystr
}.

(** The crescent moon, and the sun with its variation selector. *)
Definition theme_icon (theme : pystr) : pystr :=
  if pystr_eqb theme (str "dark") then [127769%N] else [9728%N; 65039%N].

(** [StatusBar()], [theme] being what [get_theme()] returns. *)
Definition new_status_bar (theme : pystr) : StatusBar :=
  mkStatusBar false (str "Ready") (theme_icon theme).

Definition update_theme_icon (sb : StatusBar) (theme : pystr) : StatusBar :=
  mkStatusBar (is_recording sb) (status_label sb) (theme_icon theme).

Definition set_recording (sb : StatusBar) (recording : bool) : StatusBar :=
  mkStatusBar recording (status_label sb) (theme_btn sb).

Definition set_status (sb : StatusBar) (text : pystr) : StatusBar :=
  mkStatusBar (is_recording sb) text (theme_btn sb).

End Widgets.

(* ================================================================== *)
(** ** [window.py]: the main window, its tabs and its shortcuts *)

From Stdlib Require DecimalString DecimalZ Sorted.

Module Window.

Import Terminal.

Definition Key_Q : Z := 0x51.
Definition Key_T : Z := 0x54.
Definition Key_W : Z := 0x57.

(** [f"{n}"] for an [int]. *)
Definition decimal (n : Z) : pystr :=
  str (DecimalString.NilEmpty.string_of_int (Z.to_int n)).

(** [f"Claude {n}"]. *)
Definition session_name (n : Z) : pystr := str "Claude " ++ decimal n.

(** [l.pop(index)]: the element and the rest; [None] is [IndexError]. *)
Definition pop {A} (l : list A) (index : Z) : option (A * list A) :=
  let i := if index <? 0 then index + Z.of_nat (length l) else index in
  if (0 <=? i) && (i <? Z.of_nat (length l)) then
    match nth_error l (Z.to_nat i) with
    | Some a => Some (a, firstn (Z.to_nat i) l ++ skipn (S (Z.to_nat i)) l)
    | None => None
    end
  else None.

(** [[f(i, x) for i, x in enumerate(l, i)]]. *)
Fixpoint enumerate_map {A B} (f : Z -> A -> B) (i : Z) (l : list A) : list B :=
  match l with
  | [] => []
  | a :: rest => f i a :: enumerate_map f (i + 1) rest
  end.

(** A tab button: its text, the index its [clicked] handler passes to
    [switch_tab], whether it wears the selected style, and whether it
    is checked. *)
Record TabButton : Type := mkTab {
  text : pystr;
  clicked_idx : Z;
  selected : bool;
  checked : bool
}.

Definition update_tab_style (btn : TabButton) (is_selected : bool) : TabButton :=
  mkTab (text btn) (clicked_idx btn) is_selected (checked btn).

Definition setChecked (btn : TabButton) (is_checked : bool) : TabButton :=
  mkTab (text btn) (clicked_idx btn) (selected btn) is_checked.

Definition connect_clicked (btn : TabButton) (idx : Z) : TabButton :=
  mkTab (text btn) idx (selected btn) (checked btn).

(** A terminal of the window, with the number of single-shot timers
    [lambda: terminal.write_to_pty("\r")] still pending on it. *)
Record Session : Type := mkSession {
  terminal : TerminalWidget;
  enter_timers : nat
}.

(** What one event of the window meets outside it. *)
Record World : Type := mkWorld {
  pty_start : StartOutcome;
  desktop : Desktop;
  stream_start : Voice.StartOutcome;
  stream_stop : Voice.StopOutcome;
  voice_load : Voice.LoadOutcome;
  transcribe : Voice.TranscribeOutcome;
  translator_load : Translator.LoadOutcome;
  translator_run : Translator.RunOutcome
}.

Section App.

Variable sample : Type.

(** The fields of [ClaudeWindow], the module state of [theme.py],
    whether [close()] has been accepted, and the position in
    [terminals] of the terminal that holds the keyboard focus, [None]
    when no terminal holds it. *)
Record ClaudeWindow : Type := mkWindow {
  session_counter : Z;
  tab_buttons : list TabButton;
  terminals : list Session;
  current_tab_index : Z;
  status_bar : Widgets.StatusBar;
  voice_recognizer : Voice.t sample;
  translator : Translator.t;
  theme : Theme.State;
  closed : bool;
  focus : option nat
}.

Definition with_tabs (w : ClaudeWindow) (counter : Z)
           (buttons : list TabButton) (sessions : list Session) (current : Z)
  : ClaudeWindow :=
  mkWindow counter buttons sessions current (status_bar w)
           (voice_recognizer w) (translator w) (theme w) (closed w) (focus w).

Definition with_status_bar (w : ClaudeWindow) (sb : Widgets.StatusBar)
  : ClaudeWindow :=
  mkWindow (session_counter w) (tab_buttons w) (terminals w)
           (current_tab_index w) sb (voice_recognizer w) (translator w)
           (theme w) (closed w) (focus w).

(** [setFocus()] on the terminal at [position], or the focus leaving
    the terminals. *)
Definition with_focus (w : ClaudeWindow) (holder : option nat) : ClaudeWindow :=
  mkWindow (session_counter w) (tab_buttons w) (terminals w)
           (current_tab_index w) (status_bar w) (voice_recognizer w)
           (translator w) (theme w) (closed w) holder.

(** The focus after the terminal at position [gone] has left
    [terminals]: the positions behind it move up; the terminal removed
    no longer holds the focus ([switch_tab] hands it on right after). *)
Definition focus_after_pop (holder : option nat) (gone : nat) : option nat :=
  match holder with
  | Some position =>
      if (position <? gone)%nat then Some position
      else if (position =? gone)%nat then None
      else Some (position - 1)%nat
  | None => None
  end.

Definition set_status (w : ClaudeWindow) (status : pystr) : ClaudeWindow :=
  with_status_bar w (Widgets.set_status (status_bar w) status).

Definition set_recording (w : ClaudeWindow) (recording : bool) : ClaudeWindow :=
  with_status_bar w (Widgets.set_recording (status_bar w) recording).

(** [_on_voice_status]. *)
Definition _on_voice_status (w : ClaudeWindow) (status : pystr) : ClaudeWindow :=
  set_status w status.

(** [switch_tab]; its last statement gives the focus to the terminal
    switched to. *)
Definition switch_tab (w : ClaudeWindow) (index : Z) : ClaudeWindow :=
  if (0 <=? index) && (index <? Z.of_nat (length (terminals w))) then
    with_focus
      (with_tabs w (session_counter w)
                 (enumerate_map
                    (fun i btn =>
                       setChecked (update_tab_style btn (i =? index))
                                  (i =? index))
                    0 (tab_buttons w))
                 (terminals w) index)
      (Some (Z.to_nat index))
  else w.

(** [create_session], [start] being what the new terminal's
    [start_pty] meets; its last statement gives the focus to the new
    terminal. *)
Definition create_session (w : ClaudeWindow) (start : StartOutcome)
  : ClaudeWindow :=
  let counter := session_counter w + 1 in
  let tab_index := Z.of_nat (length (tab_buttons w)) in
  let tab_btn :=
    update_tab_style (mkTab (session_name counter) tab_index false false) false in
  let w1 := with_tabs w counter (tab_buttons w ++ [tab_btn])
                      (terminals w ++ [mkSession (init start) 0])
                      (current_tab_index w) in
  with_focus
    (set_status (switch_tab w1 tab_index)
                (str "Created: " ++ session_name counter))
    (Some (length (terminals w))).

(** [close_session]; [None] for [index] is the default argument, and
    [None] for the result is an [IndexError] from [tab_buttons.pop].
    The closed terminal is cleaned up and leaves the window with its
    button. *)
Definition close_session (w : ClaudeWindow) (index : option Z)
  : option ClaudeWindow :=
  let index := match index with
               | Some i => i
               | None => current_tab_index w
               end in
  if (1 <? Z.of_nat (length (terminals w)))
     && (0 <=? index) && (index <? Z.of_nat (length (terminals w))) then
    match pop (terminals w) index with
    | Some (_, sessions) =>
        match pop (tab_buttons w) index with
        | Some (_, buttons) =>
            let w1 :=
              with_focus
                (with_tabs w (session_counter w)
                           (enumerate_map (fun i b => connect_clicked b i)
                                          0 buttons)
                           sessions (current_tab_index w))
                (focus_after_pop (focus w) (Z.to_nat index)) in
            let new_index := Z.min index (Z.of_nat (length sessions) - 1) in
            Some (set_status (switch_tab w1 new_index) (str "Session closed"))
        | None => None
        end
    | None => None
    end
  else Some w.

(** [_on_voice_result]. *)
Definition _on_voice_result (w : ClaudeWindow) (result : pystr) (world : World)
  : ClaudeWindow :=
  let current := current_tab_index w in
  let w' :=
    match result with
    | [] => w
    | _ :: _ =>
        if (0 <=? current) && (current <? Z.of_nat (length (terminals w))) then
          match nth_error (terminals w) (Z.to_nat current) with
          | Some session =>
              let w1 := _on_voice_status w (str "Translating...") in
              let '(tr, translated, statuses) :=
                Translator.translate (translator w1) result
                                     (translator_load world)
                                     (translator_run world) in
              let w2 :=
                fold_left _on_voice_status statuses
                          (mkWindow (session_counter w1) (tab_buttons w1)
                                    (terminals w1) (current_tab_index w1)
                                    (status_bar w1) (voice_recognizer w1) tr
                                    (theme w1) (closed w1) (focus w1)) in
              let output := match translated with
                            | Some (c :: rest) => c :: rest
                            | _ => result
                            end in
              let session' :=
                mkSession (write_to_pty (terminal session) output)
                          (S (enter_timers session)) in
              let w3 :=
                with_tabs w2 (session_counter w2) (tab_buttons w2)
                          (firstn (Z.to_nat current) (terminals w2)
                           ++ session'
                           :: skipn (S (Z.to_nat current)) (terminals w2))
                          (current_tab_index w2) in
              _on_voice_status w3 (str "Sent: " ++ firstn 40 output ++ str "...")
          | None => w
          end
        else w
    end in
  set_recording w' false.

(** The recognizer's callbacks, run in the order it made the calls. *)
Definition callback (world : World) (w : ClaudeWindow)
           (effect : Voice.Effect sample) : ClaudeWindow :=
  match effect with
  | Voice.StatusUpdate status => _on_voice_status w status
  | Voice.ResultReady result => _on_voice_result w result world
  | Voice.WavWritten _ => w
  end.

(** [_toggle_voice_recording]. *)
Definition _toggle_voice_recording (w : ClaudeWindow) (world : World)
  : ClaudeWindow :=
  let '(v, is_recording, effects) :=
    Voice.toggle_recording (voice_recognizer w) (stream_start world)
                           (stream_stop world) (voice_load world)
                           (transcribe world) in
  let w1 := mkWindow (session_counter w) (tab_buttons w) (terminals w)
                     (current_tab_index w) (status_bar w) v (translator w)
                     (theme w) (closed w) (focus w) in
  set_recording (fold_left (callback world) effects w1) is_recording.

(** The recognizer's audio callback, called by the input stream with a
    block of samples; the statuses it reports reach [_on_voice_status]. *)
Definition audio_heard (w : ClaudeWindow) (indata : list sample)
           (status : option pystr) (world : World) : ClaudeWindow :=
  let (v, effects) :=
    Voice._audio_callback (voice_recognizer w) indata status in
  fold_left (callback world) effects
            (mkWindow (session_counter w) (tab_buttons w) (terminals w)
                      (current_tab_index w) (status_bar w) v (translator w)
                      (theme w) (closed w) (focus w)).

(** [_apply_theme], as far as it changes the state: the tab buttons are
    restyled. *)
Definition _apply_theme (w : ClaudeWindow) : ClaudeWindow :=
  with_tabs w (session_counter w)
            (enumerate_map
               (fun i btn => update_tab_style btn (i =? current_tab_index w))
               0 (tab_buttons w))
            (terminals w) (current_tab_index w).

(** [_toggle_theme]. *)
Definition _toggle_theme (w : ClaudeWindow) : ClaudeWindow :=
  let (state, new_theme) := Theme.toggle_theme (theme w) in
  let w1 := mkWindow (session_counter w) (tab_buttons w) (terminals w)
                     (current_tab_index w)
                     (Widgets.update_theme_icon (status_bar w) new_theme)
                     (voice_recognizer w) (translator w) state (closed w)
                     (focus w) in
  set_status (_apply_theme w1) (str "Theme: " ++ new_theme).

(** [closeEvent], reached through [close()]. *)
Definition closeEvent (w : ClaudeWindow) : ClaudeWindow :=
  mkWindow (session_counter w) (tab_buttons w)
           (map (fun s => mkSession (fst (TerminalOps.cleanup (terminal s)))
                                    (enter_timers s))
                (terminals w))
           (current_tab_index w) (status_bar w) (voice_recognizer w)
           (translator w) (theme w) true (focus w).

(** [keyPressEvent]. *)
Definition keyPressEvent (w : ClaudeWindow) (key modifiers : Z)
           (event_text : pystr) (world : World) : option ClaudeWindow :=
  let forward :=
    let current := current_tab_index w in
    if (0 <=? current) && (current <? Z.of_nat (length (terminals w))) then
      match nth_error (terminals w) (Z.to_nat current) with
      | Some session =>
          Some (with_tabs w (session_counter w) (tab_buttons w)
                  (firstn (Z.to_nat current) (terminals w)
                   ++ mkSession
                        (Terminal.keyPressEvent (terminal session)
                           (desktop world) key modifiers event_text)
                        (enter_timers session)
                   :: skipn (S (Z.to_nat current)) (terminals w))
                  (current_tab_index w))
      | None => Some w
      end
    else Some w in
  if modifiers =? Qt.ControlModifier then
    if key =? Key_T then Some (create_session w (pty_start world))
    else if key =? Key_W then close_session w None
    else forward
  else if modifiers =? Qt.AltModifier then
    if key =? Key_T then Some (_toggle_voice_recording w world)
    else forward
  else if modifiers =? Z.lor Qt.ControlModifier Qt.ShiftModifier then
    if key =? Key_Q then Some (closeEvent w)
    else forward
  else forward.

(** A click on the tab button at [position]: Qt toggles the checkable
    button, then its [clicked] handler calls [switch_tab]. *)
Definition tab_clicked (w : ClaudeWindow) (position : nat) : ClaudeWindow :=
  match nth_error (tab_buttons w) position with
  | Some btn =>
      switch_tab
        (with_tabs w (session_counter w)
                   (firstn position (tab_buttons w)
                    ++ setChecked btn (negb (checked btn))
                    :: skipn (S position) (tab_buttons w))
                   (terminals w) (current_tab_index w))
        (clicked_idx btn)
  | None => w
  end.

(** A pending Enter timer of the terminal at [position] fires. *)
Definition enter_timer_fires (w : ClaudeWindow) (position : nat) : ClaudeWindow :=
  match nth_error (terminals w) position with
  | Some (mkSession t (S pending)) =>
      with_tabs w (session_counter w) (tab_buttons w)
                (firstn position (terminals w)
                 ++ mkSession (write_to_pty t [13%N]) pending
                 :: skipn (S position) (terminals w))
                (current_tab_index w)
  | _ => w
  end.

(** A key press.  Qt hands it to the widget that holds the keyboard
    focus.  [TerminalWidget.keyPressEvent] neither ignores the event
    nor calls the inherited handler, so a key taken by a terminal is
    not passed on to the window; [ClaudeWindow.keyPressEvent] runs when
    no terminal holds the focus. *)
Definition key_pressed (w : ClaudeWindow) (key modifiers : Z)
           (event_text : pystr) (world : World) : option ClaudeWindow :=
  match focus w with
  | Some position =>
      match nth_error (terminals w) position with
      | Some session =>
          Some (with_tabs w (session_counter w) (tab_buttons w)
                  (firstn position (terminals w)
                   ++ mkSession
                        (Terminal.keyPressEvent (terminal session)
                           (desktop world) key modifiers event_text)
                        (enter_timers session)
                   :: skipn (S position) (terminals w))
                  (current_tab_index w))
      | None => keyPressEvent w key modifiers event_text world
      end
  | None => keyPressEvent w key modifiers event_text world
  end.

(** A click inside the terminal on display, which takes the focus. *)
Definition terminal_clicked (w : ClaudeWindow) : ClaudeWindow :=
  let current := current_tab_index w in
  if (0 <=? current) && (current <? Z.of_nat (length (terminals w)))
  then with_focus w (Some (Z.to_nat current)) else w.

(** [ClaudeWindow()], as [main] of [app.py] creates it: the theme
    module freshly loaded, the translator singleton created. *)
Definition new (start : StartOutcome) : ClaudeWindow :=
  create_session
    (mkWindow 0 [] [] (-1)
              (Widgets.new_status_bar (Theme.get_theme Theme.loaded))
              (Voice.set_callbacks Voice.new true true)
              (Translator.set_status_callback Translator.new)
              Theme.loaded false None)
    start.

(** What reaches the window: clicks on its buttons, a click inside the
    terminal on display, the focus leaving the terminals (for a button,
    or another window), a key press, a block of audio from the input
    stream, a pending Enter timer. *)
Inductive Event : Type :=
| NewTabClicked
| TabClicked (position : nat)
| TerminalClicked
| FocusLeft
| KeyPressed (key modifiers : Z) (event_text : pystr)
| MicClicked
| ThemeClicked
| CloseClicked
| AudioHeard (indata : list sample) (status : option pystr)
| EnterTimerFires (position : nat).

Definition handle (w : ClaudeWindow) (e : Event) (world : World)
  : option ClaudeWindow :=
  match e with
  | NewTabClicked => Some (create_session w (pty_start world))
  | TabClicked position => Some (tab_clicked w position)
  | TerminalClicked => Some (terminal_clicked w)
  | FocusLeft => Some (with_focus w None)
  | KeyPressed key modifiers event_text =>
      key_pressed w key modifiers event_text world
  | MicClicked => Some (_toggle_voice_recording w world)
  | ThemeClicked => Some (_toggle_theme w)
  | CloseClicked => Some (closeEvent w)
  | AudioHeard indata status => Some (audio_heard w indata status world)
  | EnterTimerFires position => Some (enter_timer_fires w position)
  end.

(** Successive events; an uncaught exception stops the run. *)
Fixpoint run (w : ClaudeWindow) (events : list (Event * World))
  : option ClaudeWindow :=
  match events with
  | [] => Some w
  | (e, world) :: rest =>
      match handle w e world with
      | Some w1 => run w1 rest
      | None => None
      end
  end.

End App.

Arguments NewTabClicked {sample}.
Arguments TabClicked {sample}.
Arguments TerminalClicked {sample}.
Arguments FocusLeft {sample}.
Arguments KeyPressed {sample}.
Arguments MicClicked {sample}.
Arguments ThemeClicked {sample}.
Arguments CloseClicked {sample}.
Arguments AudioHeard {sample}.
Arguments EnterTimerFires {sample}.
Arguments focus {sample}.
Arguments with_focus {sample}.
Arguments audio_heard {sample}.
Arguments key_pressed {sample}.
Arguments terminal_clicked {sample}.

Arguments mkWindow {sample}.
Arguments session_counter {sample}.
Arguments tab_buttons {sample}.
Arguments terminals {sample}.
Arguments current_tab_index {sample}.
Arguments status_bar {sample}.
Arguments voice_recognizer {sample}.
Arguments translator {sample}.
Arguments theme {sample}.
Arguments closed {sample}.
Arguments with_tabs {sample}.
Arguments with_status_bar {sample}.
Arguments set_status {sample}.
Arguments set_recording {sample}.
Arguments _on_voice_status {sample}.
Arguments switch_tab {sample}.
Arguments create_session {sample}.
Arguments close_session {sample}.
Arguments _on_voice_result {sample}.
Arguments callback {sample}.
Arguments _toggle_voice_recording {sample}.
Arguments _apply_theme {sample}.
Arguments _toggle_theme {sample}.
Arguments closeEvent {sample}.
Arguments keyPressEvent {sample}.
Arguments tab_clicked {sample}.
Arguments enter_timer_fires {sample}.
Arguments new {sample}.
Arguments handle {sample}.
Arguments run {sample}.

(** The tab bar and the terminals are in step: as many buttons as
    terminals, at least one; the current index is the index of one of
    them; the button at each position switches to that position, and
    is checked and styled as selected exactly when it is the current
    one. *)
Definition consistent {sample} (w : ClaudeWindow sample) : Prop :=
  length (tab_buttons w) = length (terminals w)
  /\ (1 <= length (terminals w))%nat
  /\ 0 <= current_tab_index w < Z.of_nat (length (terminals w))
  /\ forall i btn,
       nth_error (tab_buttons w) i = Some btn ->
       clicked_idx btn = Z.of_nat i
       /\ checked btn = (Z.of_nat i =? current_tab_index w)
       /\ selected btn = (Z.of_nat i =? current_tab_index w).

(** The part of [consistent] that [switch_tab] relies on and does not
    itself establish. *)
Definition wired {sample} (w : ClaudeWindow sample) : Prop :=
  length (tab_buttons w) = length (terminals w)
  /\ forall i btn,
       nth_error (tab_buttons w) i = Some btn -> clicked_idx btn = Z.of_nat i.

(** The tabs read [Claude n] for the session numbers [numbers], left
    to right. *)
Definition numbered {sample} (w : ClaudeWindow sample) (numbers : list Z) : Prop :=
  map text (tab_buttons w) = map session_name numbers
  /\ Sorted.StronglySorted Z.lt numbers
  /\ Forall (fun n => 1 <= n <= session_counter w) numbers.

(** [w'] has the tab bar, the number of terminals, the recognizer and
    the theme of [w]. *)
Definition keeps {sample} (w w' : ClaudeWindow sample) : Prop :=
  tab_buttons w' = tab_buttons w
  /\ length (terminals w') = length (terminals w)
  /\ current_tab_index w' = current_tab_index w
  /\ session_counter w' = session_counter w
  /\ voice_recognizer w' = voice_recognizer w
  /\ theme w' = theme w
  /\ Widgets.theme_btn (status_bar w') = Widgets.theme_btn (status_bar w)
  /\ focus w' = focus w.

(** The theme button shows the current theme. *)
Definition icon_current {sample} (w : ClaudeWindow sample) : Prop :=
  Widgets.theme_btn (status_bar w)
  = Widgets.theme_icon (Theme.get_theme (theme w)).

(** The terminal that holds the focus, if one does, is the current
    one. *)
Definition focus_current {sample} (w : ClaudeWindow sample) : Prop :=
  focus w = None \/ focus w = Some (Z.to_nat (current_tab_index w)).

(** A sound window: consistent tabs, numbered labels, the theme shown,
    the focus on the current terminal if on any. *)
Definition sound {sample} (w : ClaudeWindow sample) : Prop :=
  consistent w /\ (exists numbers, numbered w numbers)
  /\ icon_current w /\ focus_current w.

(** The microphone button shows whether the recognizer records. *)
Definition indicator_current {sample} (w : ClaudeWindow sample) : Prop :=
  Widgets.is_recording (status_bar w)
  = Voice.is_recording (voice_recognizer w).

End Window.

(* ================================================================== *)
(** * Verification *)

Import Terminal.

(** ** Python helpers *)

Lemma pystr_eqb_spec (a b : pystr) : reflect (a = b) (pystr_eqb a b).
Proof.
  unfold pystr_eqb. destruct (list_eq_dec N.eq_dec a b); constructor; assumption.
Qed.

Lemma pystr_eqb_refl (a : pystr) : pystr_eqb a a = true.
Proof. destruct (pystr_eqb_spec a a); congruence. Qed.

(** ** Rendering: change detection *)

Lemma render_screen_last_text (w : TerminalWidget) :
  _last_text (render_screen w) = screen_text (screen w).
Proof.
  unfold render_screen.
  destruct (pystr_eqb_spec (screen_text (screen w)) (_last_text w)) as [E|E];
    simpl; congruence.
Qed.

Lemma render_screen_screen (w : TerminalWidget) :
  screen (render_screen w) = screen w /\ stream (render_screen w) = stream w.
Proof.
  unfold render_screen.
  destruct (negb (pystr_eqb (screen_text (screen w)) (_last_text w)));
    simpl; auto.
Qed.

Lemma render_screen_unchanged (w : TerminalWidget) :
  screen_text (screen w) = _last_text w -> render_screen w = w.
Proof.
  intros E. unfold render_screen. rewrite E, pystr_eqb_refl. reflexivity.
Qed.

(** C5.  Rendering twice with no change to the screen in between: the
    second call finds its text equal to the cached one, leaves the widget
    exactly as the first call left it (same cached text, no further
    display call), and that cached text is the text of the screen. *)
Theorem render_screen_idempotent (w : TerminalWidget) :
  render_screen (render_screen w) = render_screen w
  /\ _last_text (render_screen (render_screen w)) = _last_text (render_screen w)
  /\ ui_calls (render_screen (render_screen w)) = ui_calls (render_screen w)
  /\ _last_text (render_screen w) = screen_text (screen w).
Proof.
  assert (H : render_screen (render_screen w) = render_screen w).
  { apply render_screen_unchanged.
    rewrite render_screen_last_text.
    destruct (render_screen_screen w) as [-> _]. reflexivity. }
  rewrite H. repeat split. apply render_screen_last_text.
Qed.

(** ** Key encoding *)

Ltac qt_values :=
  unfold Qt.Key_Escape, Qt.Key_Tab, Qt.Key_Backspace, Qt.Key_Return,
    Qt.Key_Enter, Qt.Key_Delete, Qt.Key_Home, Qt.Key_End, Qt.Key_Left,
    Qt.Key_Up, Qt.Key_Right, Qt.Key_Down, Qt.Key_PageUp, Qt.Key_PageDown,
    Qt.Key_A, Qt.Key_C, Qt.Key_D, Qt.Key_L, Qt.Key_V, Qt.Key_Z,
    Qt.NoModifier, Qt.ShiftModifier, Qt.ControlModifier, Qt.AltModifier in *.

Ltac bool_facts :=
  repeat match goal with
    | H : (_ && _) = true |- _ => apply andb_true_iff in H; destruct H
    | H : (_ || _) = false |- _ => apply orb_false_iff in H; destruct H
    | H : (_ =? _) = true |- _ => apply Z.eqb_eq in H
    | H : (_ =? _) = false |- _ => apply Z.eqb_neq in H
    | H : (_ <=? _) = true |- _ => apply Z.leb_le in H
    | H : (_ <=? _) = false |- _ => apply Z.leb_gt in H
    | H : negb _ = true |- _ => apply negb_true_iff in H
    | H : negb _ = false |- _ => apply negb_false_iff in H
    end.

Ltac split_cond :=
  match goal with
  | |- context [if ?c then _ else _] =>
      let E := fresh "E" in
      destruct c eqn:E; bool_facts; try lia
  end.

(** C6 (as amended).  For every key event that is not a clipboard
    shortcut (Ctrl+Shift+C, Ctrl+Shift+V) and is not Control alone with
    an unnamed non-letter key carrying text, the widget does exactly
    what handing the bytes of the encoder table to the PTY does: one
    write of the table's bytes, or nothing when the table gives no
    output. *)
Theorem key_encoding_table (w : TerminalWidget) (env : Desktop)
        (key modifiers : Z) (text : pystr) :
  Spec.clipboard_shortcut key modifiers = false ->
  Spec.control_with_other_key key modifiers = false \/ text = [] ->
  keyPressEvent w env key modifiers text
  = Spec.send w (Spec.encode key modifiers text).
Proof.
  intros Hclip Hother.
  unfold Spec.clipboard_shortcut in Hclip.
  unfold Spec.control_with_other_key, Spec.named_key, existsb in Hother.
  unfold keyPressEvent, Spec.encode.
  qt_values.
  change (Z.lor 67108864 33554432) with 100663296 in *.
  repeat split_cond; try reflexivity.
  destruct Hother as [Hc | ->]; [exfalso | reflexivity].
  repeat match goal with
         | H : ?a <> ?b |- _ =>
             rewrite (proj2 (Z.eqb_neq a b) H) in Hc; clear H
         end.
  simpl in Hc. discriminate.
Qed.

Lemma key_encoding_table_witness :
  keyPressEvent (init Started) (mkDesktop [] []) Qt.Key_Up Qt.NoModifier []
  = Spec.send (init Started) (Spec.encode Qt.Key_Up Qt.NoModifier [])
  /\ pty_calls (keyPressEvent (init Started) (mkDesktop [] []) Qt.Key_Up
                              Qt.NoModifier [])
     = [PtyWrite (27%N :: str "[A")].
Proof.
  split; [|reflexivity].
  apply (key_encoding_table (init Started) (mkDesktop [] []) Qt.Key_Up
                            Qt.NoModifier []).
  - reflexivity.
  - left. reflexivity.
Defined.

(** Ctrl+C is the explicit byte 0x03 whatever text the event carries. *)
Lemma key_encoding_ctrl_c (text : pystr) :
  Spec.encode Qt.Key_C Qt.ControlModifier text = [3%N]
  /\ pty_calls (keyPressEvent (init Started) (mkDesktop [] []) Qt.Key_C
                              Qt.ControlModifier text) = [PtyWrite [3%N]].
Proof. split; reflexivity. Qed.

(** Literal text passes through unchanged, beyond ASCII too. *)
Lemma key_encoding_unicode_text :
  pty_calls (keyPressEvent (init Started) (mkDesktop [] []) 0x416
                           Qt.NoModifier [1078%N; 128512%N])
  = [PtyWrite [1078%N; 128512%N]].
Proof. reflexivity. Qed.

(** C6 fails as stated: for Ctrl+Shift+V, whose event text is the
    control character 0x16, the table gives that text, yet the widget
    writes the clipboard text to the PTY instead. *)
Lemma key_encoding_clipboard_counterexample :
  Spec.encode Qt.Key_V (Z.lor Qt.ControlModifier Qt.ShiftModifier) [22%N]
  = [22%N]
  /\ pty_calls (keyPressEvent (init Started) (mkDesktop [] (str "ls")) Qt.Key_V
                  (Z.lor Qt.ControlModifier Qt.ShiftModifier) [22%N])
     = [PtyWrite (str "ls")]
  /\ keyPressEvent (init Started) (mkDesktop [] (str "ls")) Qt.Key_V
                  (Z.lor Qt.ControlModifier Qt.ShiftModifier) [22%N]
     <> Spec.send (init Started)
          (Spec.encode Qt.Key_V
             (Z.lor Qt.ControlModifier Qt.ShiftModifier) [22%N]).
Proof.
  split; [reflexivity|]. split; [reflexivity|]. discriminate.
Qed.

(** Ctrl+Shift+C copies the selection and writes nothing, whatever the
    text of the event. *)
Lemma key_encoding_copy_shortcut (w : TerminalWidget) (env : Desktop)
      (text : pystr) :
  pty_calls (keyPressEvent w env Qt.Key_C
               (Z.lor Qt.ControlModifier Qt.ShiftModifier) text)
  = pty_calls w.
Proof.
  unfold keyPressEvent. cbn. unfold copy_selection.
  destruct (selected_text env); reflexivity.
Qed.

(** Control alone with a key that is neither named nor a letter: the
    text of the event is not passed on. *)
Lemma key_encoding_control_other_key :
  pty_calls (keyPressEvent (init Started) (mkDesktop [] []) 0x5b
                           Qt.ControlModifier [27%N]) = []
  /\ Spec.encode 0x5b Qt.ControlModifier [27%N] = [27%N].
Proof. split; reflexivity. Qed.

(** ** The reader thread *)

Lemma read_pty_good_turns (reads : list (pystr * bool)) (world : list Turn) :
  read_pty true (map Spec.good_turn reads ++ world)
  = (Spec.delivered reads ++ fst (read_pty true world), snd (read_pty true world)).
Proof.
  induction reads as [|[d b] reads IH]; simpl.
  - destruct (read_pty true world); reflexivity.
  - rewrite IH. simpl. rewrite <- app_assoc. reflexivity.
Qed.

(** C9.  The session is running and has a PTY; some reads succeed, then
    one raises while [running] is still set.  The worker has then read
    once more than it succeeded, has delivered the data of the
    successful reads followed by exactly one session-ended notice, and
    has returned: whatever the PTY would do afterwards ([later]) is
    never looked at, and nothing is raised. *)
Theorem read_failure_ends_session
        (reads : list (pystr * bool)) (flag : bool) (later : list Turn) :
  flag = true ->
  read_pty true (map Spec.good_turn reads ++ mkTurn true Raises flag :: later)
  = (Spec.delivered reads ++ [PtyRead; DataReady session_ended], Returned).
Proof.
  intros ->. rewrite read_pty_good_turns. reflexivity.
Qed.

Lemma read_failure_ends_session_witness :
  read_pty true (map Spec.good_turn [(str "C:\>", true); ([], false)]
                 ++ mkTurn true Raises true :: [Spec.good_turn (str "x", true)])
  = (Spec.delivered [(str "C:\>", true); ([], false)]
     ++ [PtyRead; DataReady session_ended], Returned).
Proof.
  apply (read_failure_ends_session [(str "C:\>", true); ([], false)] true
                                   [Spec.good_turn (str "x", true)]).
  reflexivity.
Defined.

(** When [cleanup] has already cleared [running], a failing read ends
    the loop silently. *)
Lemma read_failure_after_cleanup (later : list Turn) :
  read_pty true (mkTurn true Raises false :: later) = ([PtyRead], Returned).
Proof. reflexivity. Qed.

(** ** Resize events *)

Lemma resize_dimensions (rows cols : Z) (s : Screen.t) :
  0 < rows -> 0 < cols ->
  Screen.lines (Screen.resize rows cols s) = rows
  /\ Screen.columns (Screen.resize rows cols s) = cols.
Proof.
  intros Hr Hc. unfold Screen.resize.
  destruct (Z.leb_spec rows 0); [lia|].
  destruct (Z.leb_spec cols 0); [lia|]. simpl. auto.
Qed.

(** C10.  A resize event with usable font metrics returns; with a PTY
    attached it asks the PTY for exactly [max(80, width // char_width)]
    columns and [max(24, height // char_height)] rows, at least 80 and
    24, and the screen either keeps its size (the PTY refused) or takes
    exactly these counts; a grid of at least 80 x 24 stays at least
    80 x 24. *)
Theorem resize_event_minimum_grid (w : TerminalWidget)
        (vw vh cw ch : Z) (ok : bool) :
  cw <> 0 -> ch <> 0 ->
  exists w',
    resizeEvent w vw vh cw ch ok = Some w'
    /\ (pty_process w = true ->
        pty_calls w' = pty_calls w ++ [PtySetSize (Z.max 80 (vw / cw))
                                                (Z.max 24 (vh / ch))]
        /\ 80 <= Z.max 80 (vw / cw) /\ 24 <= Z.max 24 (vh / ch)
        /\ screen w' = (if ok
                        then Screen.resize (Z.max 24 (vh / ch))
                                           (Z.max 80 (vw / cw)) (screen w)
                        else screen w)
        /\ (ok = true ->
            Screen.columns (screen w') = Z.max 80 (vw / cw)
            /\ Screen.lines (screen w') = Z.max 24 (vh / ch)))
    /\ (80 <= Screen.columns (screen w) -> 24 <= Screen.lines (screen w) ->
        80 <= Screen.columns (screen w') /\ 24 <= Screen.lines (screen w')).
Proof.
  intros Hcw Hch. unfold resizeEvent.
  destruct (pty_process w) eqn:Hp.
  - destruct (Z.eqb_spec cw 0) as [|_]; [contradiction|].
    destruct (Z.eqb_spec ch 0) as [|_]; [contradiction|]. simpl.
    eexists. split; [reflexivity|]. simpl.
    destruct (resize_dimensions (Z.max 24 (vh / ch)) (Z.max 80 (vw / cw))
                (screen w)) as [Hl Hc]; try lia.
    split.
    + intros _. split; [reflexivity|]. split; [lia|]. split; [lia|].
      split; [reflexivity|]. intros ->. split; assumption.
    + intros H80 H24. destruct ok; [rewrite Hl, Hc|]; lia.
  - eexists. split; [reflexivity|]. split; [discriminate|]. auto.
Qed.

Lemma resize_event_minimum_grid_witness :
  exists w',
    resizeEvent (init Started) 100 100 7 15 true = Some w'
    /\ (pty_process (init Started) = true ->
        pty_calls w' = pty_calls (init Started) ++ [PtySetSize (Z.max 80 (100 / 7))
                                                (Z.max 24 (100 / 15))]
        /\ 80 <= Z.max 80 (100 / 7) /\ 24 <= Z.max 24 (100 / 15)
        /\ screen w' = (if true
                        then Screen.resize (Z.max 24 (100 / 15))
                                           (Z.max 80 (100 / 7)) (screen (init Started))
                        else screen (init Started))
        /\ (true = true ->
            Screen.columns (screen w') = Z.max 80 (100 / 7)
            /\ Screen.lines (screen w') = Z.max 24 (100 / 15)))
    /\ (80 <= Screen.columns (screen (init Started)) ->
        24 <= Screen.lines (screen (init Started)) ->
        80 <= Screen.columns (screen w') /\ 24 <= Screen.lines (screen w')).
Proof.
  apply (resize_event_minimum_grid (init Started) 100 100 7 15 true); lia.
Defined.

(** ** Screen invariants *)

Lemma Forall_firstn_keep {A} (P : A -> Prop) (n : nat) (l : list A) :
  Forall P l -> Forall P (firstn n l).
Proof.
  intros H. rewrite <- (firstn_skipn n l) in H.
  apply Forall_app in H. tauto.
Qed.

Lemma Forall_skipn_keep {A} (P : A -> Prop) (n : nat) (l : list A) :
  Forall P l -> Forall P (skipn n l).
Proof.
  intros H. rewrite <- (firstn_skipn n l) in H.
  apply Forall_app in H. tauto.
Qed.

Lemma list_set_some {A} (P : A -> Prop) (l : list A) (n : nat) (x : A) :
  (n < length l)%nat ->
  exists l', Screen.list_set l n x = Some l'
             /\ length l' = length l
             /\ (Forall P l -> P x -> Forall P l').
Proof.
  revert n. induction l as [|h r IH]; intros n Hn; simpl in Hn; [lia|].
  destruct n as [|n]; simpl.
  - eexists. split; [reflexivity|]. split; [reflexivity|].
    intros HF Hx. inversion HF; subst. constructor; assumption.
  - destruct (IH n) as (r' & -> & Hlen & HF'); [lia|].
    eexists. split; [reflexivity|]. split; [simpl; congruence|].
    intros HF Hx. inversion HF; subst. constructor; auto.
Qed.

Lemma row_some (s : Screen.t) (y : Z) :
  0 <= y < Z.of_nat (length (Screen.buffer s)) ->
  exists l, Screen.row s y = Some l /\ In l (Screen.buffer s).
Proof.
  intros Hy. unfold Screen.row.
  destruct (Z.ltb_spec y 0); [lia|].
  destruct (nth_error (Screen.buffer s) (Z.to_nat y)) as [l|] eqn:E.
  - exists l. split; [reflexivity|]. eapply nth_error_In; eassumption.
  - exfalso. apply (proj2 (nth_error_Some (Screen.buffer s) (Z.to_nat y))); [lia|assumption].
Qed.

Lemma restrict_in_columns (cols : Z) (keep : Z -> bool) (l : Screen.Line) :
  Spec.row_in_columns cols l -> Spec.row_in_columns cols (restrict keep l).
Proof.
  unfold Spec.row_in_columns, restrict. rewrite !Forall_forall.
  intros H kv Hin. apply filter_In in Hin. apply H, Hin.
Qed.

Lemma setitem_in_columns (cols : Z) (l : Screen.Line) (k : Z) (v : Screen.Char) :
  0 <= k < cols ->
  Spec.row_in_columns cols l -> Spec.row_in_columns cols (setitem l k v).
Proof.
  intros Hk. unfold Spec.row_in_columns.
  induction l as [|[k' v'] r IH]; simpl; intros HF.
  - constructor; [assumption|constructor].
  - inversion HF; subst. destruct (k' =? k).
    + constructor; assumption.
    + constructor; auto.
Qed.

Lemma deque_append_bounded {A} (maxlen : Z) (d : list A) (x : A) :
  Z.of_nat (length d) <= maxlen ->
  Z.of_nat (length (deque_append maxlen d x)) <= maxlen.
Proof.
  intros H. unfold deque_append.
  destruct (Z.leb_spec maxlen 0); [assumption|].
  destruct (Z.leb_spec maxlen (Z.of_nat (length d))).
  - rewrite length_app, length_tl. simpl. lia.
  - rewrite length_app. simpl. lia.
Qed.

Ltac screen_fields :=
  cbn [Screen.lines Screen.columns Screen.buffer Screen.cursor_y
       Screen.cursor_x Screen.cursor_attrs Screen.margin_top
       Screen.margin_bottom Screen.history_top Screen.history_maxlen
       Screen.set_buffer Screen.set_cursor Screen.set_cursor_attrs
       Screen.set_margins Screen.carriage_return] in *.

Ltac wf_parts H :=
  let Hl := fresh "Hlines" in
  let Hc := fresh "Hcols" in
  let Hb := fresh "Hlen" in
  let Hr := fresh "Hrows" in
  let Hy := fresh "Hcy" in
  let Hx := fresh "Hcx" in
  let Hm := fresh "Hmar" in
  let Hmb := fresh "Hmbot" in
  let Hh := fresh "Hhist" in
  destruct H as (Hl & Hc & Hb & Hr & [Hy Hx] & [Hm Hmb] & Hh).

Lemma scroll_up1_ok (s : Screen.t) :
  Spec.well_formed s ->
  exists s', Screen.scroll_up1 s = Some s'
             /\ Spec.well_formed s'
             /\ Screen.lines s' = Screen.lines s
             /\ Screen.columns s' = Screen.columns s
             /\ Screen.history_maxlen s' = Screen.history_maxlen s.
Proof.
  intros H. wf_parts H. unfold Screen.scroll_up1.
  destruct (row_some s (Screen.margin_top s)) as (l & -> & Hin); [lia|].
  eexists. split; [reflexivity|]. split; [|screen_fields; auto].
  unfold Spec.well_formed, Spec.cursor_in_grid, Spec.scrollback_bounded.
  screen_fields.
  repeat split; try lia.
  - rewrite !length_app, !length_firstn, !length_skipn.
    cbn [length]. lia.
  - repeat (apply Forall_app; split);
      auto using Forall_firstn_keep, Forall_skipn_keep.
    constructor; constructor.
  - apply deque_append_bounded. assumption.
Qed.


Lemma preserved_refl (s : Screen.t) : Spec.well_formed s -> Spec.preserved s s.
Proof. unfold Spec.preserved; auto. Qed.

Lemma preserved_trans (s1 s2 s3 : Screen.t) :
  Spec.preserved s1 s2 -> Spec.preserved s2 s3 -> Spec.preserved s1 s3.
Proof. unfold Spec.preserved. intuition congruence. Qed.

Lemma clamp_range (lo hi v : Z) :
  lo <= hi -> lo <= Screen.clamp lo hi v <= hi.
Proof. unfold Screen.clamp. lia. Qed.

Lemma wf_set_cursor (s : Screen.t) (y x : Z) :
  Spec.well_formed s ->
  0 <= y < Screen.lines s -> 0 <= x < Screen.columns s ->
  Spec.preserved s (Screen.set_cursor s y x).
Proof.
  intros H Hy Hx. wf_parts H.
  unfold Spec.preserved, Spec.well_formed, Spec.cursor_in_grid,
    Spec.scrollback_bounded.
  screen_fields. repeat split; auto; lia.
Qed.

Lemma wf_set_buffer (s : Screen.t) (b : list Screen.Line) :
  Spec.well_formed s ->
  length b = length (Screen.buffer s) ->
  Forall (Spec.row_in_columns (Screen.columns s)) b ->
  Spec.preserved s (Screen.set_buffer s b).
Proof.
  intros H Hb HF. wf_parts H.
  unfold Spec.preserved, Spec.well_formed, Spec.cursor_in_grid,
    Spec.scrollback_bounded.
  screen_fields. repeat split; auto; lia.
Qed.

Lemma set_row_ok (s : Screen.t) (y : Z) (l : Screen.Line) :
  Spec.well_formed s ->
  0 <= y < Screen.lines s ->
  Spec.row_in_columns (Screen.columns s) l ->
  exists s', Screen.set_row s y l = Some s' /\ Spec.preserved s s'
             /\ Screen.cursor_y s' = Screen.cursor_y s
             /\ Screen.cursor_x s' = Screen.cursor_x s.
Proof.
  intros H Hy Hl. pose proof H as H'. wf_parts H'. unfold Screen.set_row.
  destruct (Z.ltb_spec y 0); [lia|].
  destruct (list_set_some (Spec.row_in_columns (Screen.columns s))
              (Screen.buffer s) (Z.to_nat y) l) as (b & -> & Hlen' & HF);
    [lia|].
  eexists. split; [reflexivity|]. split; [|split; reflexivity].
  apply wf_set_buffer; auto.
Qed.

Lemma scroll_up1_preserved (s : Screen.t) :
  Spec.well_formed s ->
  exists s', Screen.scroll_up1 s = Some s' /\ Spec.preserved s s'.
Proof.
  intros H. destruct (scroll_up1_ok s H) as (s' & E & Hp).
  exists s'. split; [assumption|exact Hp].
Qed.

Lemma scroll_up_preserved (n : nat) (s : Screen.t) :
  Spec.well_formed s ->
  exists s', Screen.scroll_up n s = Some s' /\ Spec.preserved s s'.
Proof.
  revert s. induction n as [|n IH]; intros s H; simpl.
  - exists s. split; [reflexivity|apply preserved_refl; assumption].
  - destruct (scroll_up1_preserved s H) as (s1 & -> & Hp1).
    destruct (IH s1 (proj1 Hp1)) as (s2 & -> & Hp2).
    exists s2. split; [reflexivity|eapply preserved_trans; eassumption].
Qed.

Lemma linefeed_preserved (s : Screen.t) :
  Spec.well_formed s ->
  exists s', Screen.linefeed s = Some s' /\ Spec.preserved s s'.
Proof.
  intros H. unfold Screen.linefeed.
  destruct (Z.eqb_spec (Screen.cursor_y s) (Screen.margin_bottom s)).
  - apply scroll_up1_preserved; assumption.
  - eexists. split; [reflexivity|].
    pose proof H as H'. wf_parts H'.
    apply wf_set_cursor; auto; lia.
Qed.

Lemma carriage_return_preserved (s : Screen.t) :
  Spec.well_formed s -> Spec.preserved s (Screen.carriage_return s).
Proof.
  intros H. pose proof H as H'. wf_parts H'.
  apply wf_set_cursor; auto; lia.
Qed.

Lemma put_char_preserved (s : Screen.t) (ch : N) :
  Spec.well_formed s ->
  exists s', Screen.put_char s ch = Some s' /\ Spec.preserved s s'.
Proof.
  intros H. pose proof H as H'. wf_parts H'. unfold Screen.put_char.
  destruct (row_some s (Screen.cursor_y s)) as (l & -> & Hin); [lia|].
  destruct (set_row_ok s (Screen.cursor_y s)
              (setitem l (Screen.cursor_x s)
                 (Screen.with_data (Screen.cursor_attrs s) [ch])) H)
    as (s1 & -> & Hp1 & Hy1 & Hx1); [lia| |].
  { apply setitem_in_columns; [lia|].
    rewrite Forall_forall in Hrows. apply Hrows, Hin. }
  destruct Hp1 as (Hwf1 & Hl1 & Hc1 & Hm1).
  destruct (Z.ltb_spec (Screen.cursor_x s + 1) (Screen.columns s)).
  - eexists. split; [reflexivity|].
    apply (preserved_trans s s1); [unfold Spec.preserved; auto|].
    apply wf_set_cursor; auto; lia.
  - destruct (linefeed_preserved (Screen.carriage_return s1)) as (s2 & -> & Hp2).
    { apply carriage_return_preserved; assumption. }
    exists s2. split; [reflexivity|].
    apply (preserved_trans s s1); [unfold Spec.preserved; auto|].
    apply (preserved_trans s1 (Screen.carriage_return s1)); [|assumption].
    apply carriage_return_preserved; assumption.
Qed.

Lemma move_cursor_preserved (s : Screen.t) (m : Screen.Motion) :
  Spec.well_formed s -> Spec.preserved s (Screen.move_cursor s m).
Proof.
  intros H. pose proof H as H'. wf_parts H'.
  pose proof (fun v => clamp_range 0 (Screen.lines s - 1) v ltac:(lia)) as Cy.
  pose proof (fun v => clamp_range 0 (Screen.columns s - 1) v ltac:(lia)) as Cx.
  destruct m; unfold Screen.move_cursor; apply wf_set_cursor; auto;
    try lia;
    match goal with
    | |- _ <= Screen.clamp 0 (Screen.lines s - 1) ?v < _ =>
        specialize (Cy v); lia
    | |- _ <= Screen.clamp 0 (Screen.columns s - 1) ?v < _ =>
        specialize (Cx v); lia
    end.
Qed.

Lemma length_range (n : Z) : length (range n) = Z.to_nat n.
Proof. unfold range. rewrite length_map, length_seq. reflexivity. Qed.

Lemma map_rows_ok (P : Screen.Line -> Prop) (f : Z -> Screen.Line -> Screen.Line)
      (b : list Screen.Line) :
  (forall i l, P l -> P (f i l)) ->
  Forall P b ->
  length (Screen.map_rows f b) = length b /\ Forall P (Screen.map_rows f b).
Proof.
  intros Hf HF. unfold Screen.map_rows. split.
  - rewrite length_map, length_combine, length_range. lia.
  - rewrite Forall_forall in *. intros l' Hin.
    apply in_map_iff in Hin. destruct Hin as ([i l] & <- & Hin).
    apply in_combine_r in Hin. simpl. auto.
Qed.

Lemma blank_line_in_columns (cols : Z) : Spec.row_in_columns cols Screen.blank_line.
Proof. constructor. Qed.

Lemma erase_preserved (s : Screen.t) (r : Screen.Region) :
  Spec.well_formed s ->
  exists s', Screen.erase s r = Some s' /\ Spec.preserved s s'.
Proof.
  intros H. pose proof H as H'. wf_parts H'.
  assert (Hrow : forall l, In l (Screen.buffer s) ->
                           Spec.row_in_columns (Screen.columns s) l).
  { rewrite Forall_forall in Hrows. exact Hrows. }
  destruct r; unfold Screen.erase.
  1-3: destruct (row_some s (Screen.cursor_y s)) as (l & -> & Hin); [lia|];
       match goal with
       | |- context [Screen.set_row ?s0 ?y ?l'] =>
           destruct (set_row_ok s0 y l' H) as (s1 & -> & Hp & _);
           [lia | auto using restrict_in_columns, blank_line_in_columns |]
       end;
       exists s1; split; [reflexivity|assumption].
  all: eexists; (split; [reflexivity|]);
       match goal with
       | |- Spec.preserved ?s0 (Screen.set_buffer _ (Screen.map_rows ?f ?b)) =>
           destruct (map_rows_ok (Spec.row_in_columns (Screen.columns s0)) f b)
             as [Hlen' HF']; [|assumption|apply wf_set_buffer; assumption]
       end;
       intros i l Hl; cbv beta;
       repeat match goal with
              | |- context [if ?c then _ else _] => destruct c
              end;
       auto using restrict_in_columns, blank_line_in_columns.
Qed.

Lemma set_attributes_preserved (s : Screen.t) (ps : list Z) :
  Spec.well_formed s -> Spec.preserved s (Screen.set_attributes s ps).
Proof.
  intros H. unfold Screen.set_attributes, Spec.preserved, Spec.well_formed,
              Spec.cursor_in_grid, Spec.scrollback_bounded in *.
  screen_fields. intuition.
Qed.

Lemma set_scroll_region_preserved (s : Screen.t) (top bottom : Z) :
  Spec.well_formed s -> Spec.preserved s (Screen.set_scroll_region s top bottom).
Proof.
  intros H. unfold Screen.set_scroll_region.
  destruct ((1 <=? top) && (top <? bottom) && (bottom <=? Screen.lines s))
    eqn:E; [|apply preserved_refl; assumption].
  apply andb_true_iff in E. destruct E as [E E3].
  apply andb_true_iff in E. destruct E as [E1 E2].
  apply Z.leb_le in E1, E3. apply Z.ltb_lt in E2.
  wf_parts H.
  unfold Spec.preserved, Spec.well_formed, Spec.cursor_in_grid,
    Spec.scrollback_bounded.
  screen_fields. repeat split; auto; lia.
Qed.

Lemma csi_dispatch_preserved (body : list N) (final : N) (s : Screen.t) :
  Spec.well_formed s ->
  exists s', Stream.csi_dispatch body final s = Some s' /\ Spec.preserved s s'.
Proof.
  intros H. unfold Stream.csi_dispatch.
  destruct (negb (Stream.plain_body body)).
  { exists s. split; [reflexivity|apply preserved_refl; assumption]. }
  cbv zeta.
  repeat match goal with
         | |- context [if ?c then _ else _] => destruct c
         end;
    try (eexists; split; [reflexivity|];
         first [ apply move_cursor_preserved
               | apply set_attributes_preserved
               | apply set_scroll_region_preserved
               | apply preserved_refl ]; assumption);
    first [ apply erase_preserved | apply scroll_up_preserved ]; assumption.
Qed.

Lemma feed_char_preserved (p : Stream.t) (s : Screen.t) (c : N) :
  Spec.well_formed s ->
  exists p' s', Stream.feed_char (p, s) c = Some (p', s') /\ Spec.preserved s s'.
Proof.
  intros H. unfold Stream.feed_char.
  destruct (Stream.state p).
  - destruct (c =? Stream.ESC)%N.
    { do 2 eexists. split; [reflexivity|apply preserved_refl; assumption]. }
    destruct (c =? Stream.LF)%N.
    { destruct (linefeed_preserved s H) as (s' & -> & Hp).
      do 2 eexists. split; [reflexivity|assumption]. }
    destruct (c =? Stream.CR)%N.
    { do 2 eexists. split; [reflexivity|].
      apply carriage_return_preserved; assumption. }
    destruct ((c <? 32) || (c =? Stream.DEL))%N.
    { do 2 eexists. split; [reflexivity|apply preserved_refl; assumption]. }
    destruct (put_char_preserved s c H) as (s' & -> & Hp).
    do 2 eexists. split; [reflexivity|assumption].
  - repeat match goal with
           | |- context [if ?c then _ else _] => destruct c
           end;
      do 2 eexists; (split; [reflexivity|apply preserved_refl; assumption]).
  - destruct (Stream.is_csi_body c).
    { do 2 eexists. split; [reflexivity|apply preserved_refl; assumption]. }
    destruct (Stream.is_csi_final c).
    + destruct (csi_dispatch_preserved (Stream.collected p) c s H)
        as (s' & -> & Hp).
      do 2 eexists. split; [reflexivity|assumption].
    + do 2 eexists. split; [reflexivity|apply preserved_refl; assumption].
  - repeat match goal with
           | |- context [if ?c then _ else _] => destruct c
           end;
      do 2 eexists; (split; [reflexivity|apply preserved_refl; assumption]).
  - do 2 eexists. split; [reflexivity|apply preserved_refl; assumption].
Qed.

Lemma feed_preserved (data : pystr) (p : Stream.t) (s : Screen.t) :
  Spec.well_formed s ->
  exists p' s', Stream.feed data (p, s) = Some (p', s') /\ Spec.preserved s s'.
Proof.
  revert p s. induction data as [|c rest IH]; intros p s H; cbn [Stream.feed].
  - do 2 eexists. split; [reflexivity|apply preserved_refl; assumption].
  - destruct (feed_char_preserved p s c H) as (p1 & s1 & -> & Hp1).
    destruct (IH p1 s1 (proj1 Hp1)) as (p2 & s2 & -> & Hp2).
    do 2 eexists. split; [reflexivity|eapply preserved_trans; eassumption].
Qed.

(** ** Chunking *)

Lemma feed_app (a b : pystr) (st : Stream.t * Screen.t) :
  Stream.feed (a ++ b) st
  = match Stream.feed a st with
    | Some st' => Stream.feed b st'
    | None => None
    end.
Proof.
  revert st. induction a as [|c a IH]; intros st; cbn [Stream.feed app].
  - reflexivity.
  - destruct (Stream.feed_char st c); [apply IH|reflexivity].
Qed.

Lemma process_output_model (w : TerminalWidget) (data : pystr) :
  option_map Spec.model (process_output w data)
  = Stream.feed data (Spec.model w).
Proof.
  unfold process_output, Spec.model.
  destruct (Stream.feed data (stream w, screen w)) as [[p s]|]; [|reflexivity].
  cbn [option_map].
  match goal with
  | |- context [render_screen ?x] =>
      destruct (render_screen_screen x) as [-> ->]
  end.
  reflexivity.
Qed.

Lemma process_outputs_model (chunks : list pystr) (w : TerminalWidget) :
  option_map Spec.model (Spec.process_outputs w chunks)
  = Stream.feed (concat chunks) (Spec.model w).
Proof.
  revert w. induction chunks as [|d rest IH]; intros w;
    cbn [Spec.process_outputs concat].
  - reflexivity.
  - rewrite feed_app, <- process_output_model.
    destruct (process_output w d) as [w'|]; cbn [option_map];
      [apply IH|reflexivity].
Qed.

Lemma process_output_fed (w : TerminalWidget) (data : pystr)
      (p : Stream.t) (s : Screen.t) :
  Stream.feed data (Spec.model w) = Some (p, s) ->
  exists w', process_output w data = Some w' /\ screen w' = s /\ stream w' = p.
Proof.
  unfold Spec.model, process_output. intros ->.
  eexists. split; [reflexivity|].
  match goal with
  | |- context [render_screen ?x] =>
      destruct (render_screen_screen x) as [-> ->]
  end.
  split; reflexivity.
Qed.

Lemma feed_csi_body (body rest acc : list N) (s : Screen.t) :
  forallb Stream.is_csi_body body = true ->
  Stream.feed (body ++ rest) (Stream.mkStream Stream.CsiCollect acc, s)
  = Stream.feed rest (Stream.mkStream Stream.CsiCollect (acc ++ body), s).
Proof.
  revert acc. induction body as [|c body IH]; intros acc Hb.
  - rewrite app_nil_r. reflexivity.
  - cbn [forallb] in Hb. apply andb_true_iff in Hb. destruct Hb as [Hc Hb].
    cbn [app Stream.feed]. unfold Stream.feed_char at 1.
    cbn [Stream.state Stream.collected]. rewrite Hc.
    rewrite IH by assumption. rewrite <- app_assoc. reflexivity.
Qed.

Lemma final_not_body (c : N) :
  Stream.is_csi_final c = true -> Stream.is_csi_body c = false.
Proof.
  unfold Stream.is_csi_final, Stream.is_csi_body. intros H.
  apply andb_true_iff in H. destruct H as [H _]. apply N.leb_le in H.
  apply andb_false_iff. right. apply N.leb_gt. lia.
Qed.

(** A complete control sequence acts once, by its dispatch. *)
Lemma feed_csi_sequence (body : list N) (final : N) (s : Screen.t) :
  forallb Stream.is_csi_body body = true ->
  Stream.is_csi_final final = true ->
  Stream.feed (Spec.csi_sequence body final) (Stream.initial, s)
  = option_map (fun s' => (Stream.initial, s'))
               (Stream.csi_dispatch body final s).
Proof.
  intros Hb Hf. unfold Spec.csi_sequence.
  change (27%N :: 91%N :: body ++ [final])
    with ([27%N; 91%N] ++ body ++ [final]).
  rewrite feed_app.
  change (Stream.feed [27%N; 91%N] (Stream.initial, s))
    with (Some (Stream.mkStream Stream.CsiCollect [], s)).
  cbv iota. rewrite feed_csi_body by assumption.
  cbn [app Stream.feed]. unfold Stream.feed_char.
  cbn [Stream.state Stream.collected].
  rewrite (final_not_body final Hf), Hf.
  destruct (Stream.csi_dispatch body final s); reflexivity.
Qed.

(** An incomplete control sequence is held in the buffer and the
    screen is not touched. *)
Lemma feed_csi_prefix (body : list N) (final : N) (k : nat) (s : Screen.t) :
  forallb Stream.is_csi_body body = true ->
  (k <= length body + 1)%nat ->
  Stream.feed (firstn k (Spec.csi_sequence body final)) (Stream.initial, s)
  = Some (Spec.collecting k body, s).
Proof.
  intros Hb Hk. unfold Spec.csi_sequence.
  destruct k as [|[|j]]; [reflexivity|reflexivity|].
  cbn [firstn Spec.collecting].
  rewrite firstn_app.
  replace (j - length body)%nat with O by lia. cbn [firstn].
  rewrite app_nil_r.
  change (27%N :: 91%N :: firstn j body)
    with ([27%N; 91%N] ++ firstn j body).
  rewrite feed_app.
  change (Stream.feed [27%N; 91%N] (Stream.initial, s))
    with (Some (Stream.mkStream Stream.CsiCollect [], s)).
  cbv iota.
  assert (Hfirst : forallb Stream.is_csi_body (firstn j body) = true).
  { rewrite forallb_forall in *. intros c Hc. apply Hb.
    rewrite <- (firstn_skipn j body). apply in_or_app. left. exact Hc. }
  pose proof (feed_csi_body (firstn j body) [] [] s Hfirst) as E.
  rewrite app_nil_r in E. exact E.
Qed.

(** C1.  Feeding the chunks of any split of the stream one per
    [process_output] call leaves the same screen (grid, cursor,
    scrollback) and the same interpreter state as feeding the whole
    stream in one call; either both raise or neither does.  And a
    control sequence is acted upon only once it is complete: wherever
    it is cut before its final character, the call that receives the
    first part leaves the screen untouched and holds what arrived in
    the interpreter's buffer, and the call that receives the rest then
    has exactly the effect of the whole sequence on that screen. *)
Theorem chunk_boundary_invariance (w : TerminalWidget) (chunks : list pystr) :
  option_map Spec.model (Spec.process_outputs w chunks)
  = option_map Spec.model (process_output w (concat chunks))
  /\ (forall body final k,
         stream w = Stream.initial ->
         forallb Stream.is_csi_body body = true ->
         Stream.is_csi_final final = true ->
         (k <= length body + 1)%nat ->
         exists w1,
           process_output w (firstn k (Spec.csi_sequence body final)) = Some w1
           /\ screen w1 = screen w
           /\ stream w1 = Spec.collecting k body
           /\ option_map Spec.model
                (process_output w1 (skipn k (Spec.csi_sequence body final)))
              = option_map (fun s => (Stream.initial, s))
                           (Stream.csi_dispatch body final (screen w))).
Proof.
  split.
  - rewrite process_outputs_model, process_output_model. reflexivity.
  - intros body final k Hs Hb Hf Hk.
    pose proof (feed_csi_prefix body final k (screen w) Hb Hk) as Hpre.
    destruct (process_output_fed w (firstn k (Spec.csi_sequence body final))
                (Spec.collecting k body) (screen w)) as (w1 & E & Hs1 & Hp1).
    { unfold Spec.model. rewrite Hs. exact Hpre. }
    exists w1. split; [exact E|]. split; [exact Hs1|]. split; [exact Hp1|].
    rewrite process_output_model. unfold Spec.model. rewrite Hs1, Hp1.
    rewrite <- (feed_csi_sequence body final (screen w) Hb Hf).
    rewrite <- (firstn_skipn k (Spec.csi_sequence body final)) at 2.
    rewrite feed_app, Hpre. reflexivity.
Qed.

Lemma chunk_boundary_invariance_witness :
  (stream (init Started) = Stream.initial
   /\ forallb Stream.is_csi_body (str "10;20") = true
   /\ Stream.is_csi_final 72%N = true
   /\ (4 <= length (str "10;20") + 1)%nat)
  /\ exists w1,
       process_output (init Started) (27%N :: str "[10") = Some w1
       /\ screen w1 = screen (init Started)
       /\ stream w1 = Stream.mkStream Stream.CsiCollect (str "10")
       /\ option_map (fun w2 => (Screen.cursor_y (screen w2),
                                 Screen.cursor_x (screen w2)))
            (process_output w1 (str ";20H"))
          = Some (9, 19).
Proof.
  split; [repeat split; try reflexivity; cbn; lia|].
  destruct (proj2 (chunk_boundary_invariance (init Started) [])
              (str "10;20") 72%N 4%nat eq_refl eq_refl eq_refl
              ltac:(cbn; lia))
    as (w1 & E & Hs & Hp & Hrest).
  exists w1. split; [exact E|]. split; [exact Hs|]. split; [exact Hp|].
  change (skipn 4 (Spec.csi_sequence (str "10;20") 72%N)) with (str ";20H")
    in Hrest.
  transitivity
    (option_map (fun m => (Screen.cursor_y (snd m), Screen.cursor_x (snd m)))
       (option_map Spec.model (process_output w1 (str ";20H")))).
  - destruct (process_output w1 (str ";20H")); reflexivity.
  - rewrite Hrest. vm_compute. reflexivity.
Defined.

Lemma process_output_last_text (w w' : TerminalWidget) (data : pystr) :
  process_output w data = Some w' ->
  _last_text w' = screen_text (screen w').
Proof.
  unfold process_output.
  destruct (Stream.feed data (stream w, screen w)) as [[p s]|]; [|discriminate].
  intros H. injection H as <-.
  rewrite render_screen_last_text.
  match goal with
  | |- context [render_screen ?x] =>
      destruct (render_screen_screen x) as [-> _]
  end.
  reflexivity.
Qed.

Lemma process_outputs_last_text (chunks : list pystr) (w w' : TerminalWidget) :
  chunks <> [] ->
  Spec.process_outputs w chunks = Some w' ->
  _last_text w' = screen_text (screen w').
Proof.
  revert w. induction chunks as [|d rest IH]; intros w Hne H; [contradiction|].
  cbn [Spec.process_outputs] in H.
  destruct (process_output w d) as [w1|] eqn:E; [|discriminate].
  destruct rest as [|d' rest'].
  - cbn [Spec.process_outputs] in H. injection H as <-.
    eapply process_output_last_text. eassumption.
  - apply (IH w1); [discriminate|assumption].
Qed.

(** The text on display after the last chunk is the same as well. *)
Lemma chunking_same_text (w w1 w2 : TerminalWidget) (chunks : list pystr) :
  chunks <> [] ->
  Spec.process_outputs w chunks = Some w1 ->
  process_output w (concat chunks) = Some w2 ->
  _last_text w1 = _last_text w2.
Proof.
  intros Hne H1 H2.
  rewrite (process_outputs_last_text chunks w w1 Hne H1).
  rewrite (process_output_last_text w w2 _ H2).
  pose proof (process_outputs_model chunks w) as M1.
  pose proof (process_output_model w (concat chunks)) as M2.
  rewrite H1 in M1. rewrite H2 in M2. cbn [option_map] in M1, M2.
  rewrite <- M2 in M1. unfold Spec.model in M1.
  injection M1 as _ E. rewrite E. reflexivity.
Qed.

(** A sequence split inside its parameters is buffered by the first
    call and acted upon by the second. *)
Example split_cursor_position :
  option_map Spec.model
    (Spec.process_outputs (init Started) [27%N :: str "[1"; str "0;2"; str "0H"])
  = option_map Spec.model (process_output (init Started) (27%N :: str "[10;20H"))
  /\ option_map (fun w => (Stream.state (stream w), Stream.collected (stream w),
                           Screen.cursor_y (screen w), Screen.cursor_x (screen w)))
       (Spec.process_outputs (init Started) [27%N :: str "[1"; str "0;2"])
     = Some (Stream.CsiCollect, str "10;2", 0, 0)
  /\ option_map (fun w => (Stream.state (stream w), Stream.collected (stream w),
                           Screen.cursor_y (screen w), Screen.cursor_x (screen w)))
       (Spec.process_outputs (init Started) [27%N :: str "[1"; str "0;2"; str "0H"])
     = Some (Stream.Ground, [], 9, 19).
Proof. repeat split; vm_compute; reflexivity. Qed.

(** ** Invariants of a session *)

Lemma process_output_preserved (w : TerminalWidget) (data : pystr) :
  Spec.well_formed (screen w) ->
  exists w', process_output w data = Some w'
             /\ Spec.preserved (screen w) (screen w').
Proof.
  intros H. unfold process_output.
  destruct (feed_preserved data (stream w) (screen w) H) as (p & s & -> & Hp).
  eexists. split; [reflexivity|].
  match goal with
  | |- context [render_screen ?x] =>
      destruct (render_screen_screen x) as [-> _]
  end.
  exact Hp.
Qed.

Lemma process_outputs_preserved (chunks : list pystr) (w : TerminalWidget) :
  Spec.well_formed (screen w) ->
  exists w', Spec.process_outputs w chunks = Some w'
             /\ Spec.preserved (screen w) (screen w').
Proof.
  revert w. induction chunks as [|d rest IH]; intros w H;
    cbn [Spec.process_outputs].
  - exists w. split; [reflexivity|apply preserved_refl; assumption].
  - destruct (process_output_preserved w d H) as (w1 & -> & Hp1).
    destruct (IH w1 (proj1 Hp1)) as (w2 & -> & Hp2).
    exists w2. split; [reflexivity|eapply preserved_trans; eassumption].
Qed.

Lemma init_well_formed (start : StartOutcome) :
  Spec.well_formed (screen (init start))
  /\ Screen.history_maxlen (screen (init start)) = 10000
  /\ Screen.lines (screen (init start)) = 30
  /\ Screen.columns (screen (init start)) = 120.
Proof.
  unfold Spec.well_formed, Spec.cursor_in_grid, Spec.scrollback_bounded.
  destruct start; cbn; repeat split; try lia; repeat constructor.
Qed.
Lemma cursor_up_at_top (s : Screen.t) :
  Spec.well_formed s -> Screen.cursor_y s = 0 ->
  Stream.feed (27%N :: str "[A") (Stream.initial, s)
  = Some (Stream.initial, Screen.set_cursor s 0 (Screen.cursor_x s)).
Proof.
  intros H Hy. wf_parts H.
  change (Stream.feed (27%N :: str "[A") (Stream.initial, s))
    with (Some (Stream.initial, Screen.move_cursor s (Screen.Up 1))).
  unfold Screen.move_cursor, Screen.clamp. rewrite Hy.
  do 3 f_equal. lia.
Qed.

(** C2.  From a well-formed screen, any sequence of [process_output]
    calls returns and leaves the cursor inside the grid, whose
    dimensions are unchanged; and cursor-up at row 0, fed to an
    interpreter in the ground state, returns with the cursor still at
    row 0 in the same column. *)
Theorem cursor_stays_in_grid (w : TerminalWidget) (chunks : list pystr) :
  Spec.well_formed (screen w) ->
  (exists w',
      Spec.process_outputs w chunks = Some w'
      /\ 0 <= Screen.cursor_y (screen w') < Screen.lines (screen w')
      /\ 0 <= Screen.cursor_x (screen w') < Screen.columns (screen w')
      /\ Screen.lines (screen w') = Screen.lines (screen w)
      /\ Screen.columns (screen w') = Screen.columns (screen w))
  /\ (stream w = Stream.initial -> Screen.cursor_y (screen w) = 0 ->
      exists w',
        process_output w (27%N :: str "[A") = Some w'
        /\ Screen.cursor_y (screen w') = 0
        /\ Screen.cursor_x (screen w') = Screen.cursor_x (screen w)).
Proof.
  intros H. split.
  - destruct (process_outputs_preserved chunks w H) as (w' & E & Hwf & Hl & Hc & _).
    exists w'. split; [assumption|].
    destruct Hwf as (_ & _ & _ & _ & [Hy Hx] & _). auto.
  - intros Hs Hy. unfold process_output. rewrite Hs.
    rewrite (cursor_up_at_top (screen w) H Hy).
    eexists. split; [reflexivity|].
    match goal with
    | |- context [render_screen ?x] =>
        destruct (render_screen_screen x) as [-> _]
    end.
    split; reflexivity.
Qed.

Lemma cursor_stays_in_grid_witness :
  (exists w',
      Spec.process_outputs (init Started)
        [27%N :: str "[99;999H"; 27%N :: str "[5"; str "00C"] = Some w'
      /\ 0 <= Screen.cursor_y (screen w') < Screen.lines (screen w')
      /\ 0 <= Screen.cursor_x (screen w') < Screen.columns (screen w')
      /\ Screen.lines (screen w') = Screen.lines (screen (init Started))
      /\ Screen.columns (screen w') = Screen.columns (screen (init Started)))
  /\ (stream (init Started) = Stream.initial ->
      Screen.cursor_y (screen (init Started)) = 0 ->
      exists w',
        process_output (init Started) (27%N :: str "[A") = Some w'
        /\ Screen.cursor_y (screen w') = 0
        /\ Screen.cursor_x (screen w') = Screen.cursor_x (screen (init Started))).
Proof.
  apply (cursor_stays_in_grid (init Started)
           [27%N :: str "[99;999H"; 27%N :: str "[5"; str "00C"]).
  unfold Spec.well_formed, Spec.cursor_in_grid, Spec.scrollback_bounded.
  cbn. repeat split; try lia. repeat constructor.
Defined.



(** *** The order of the scrollback *)


















(** A 2-row grid with a scrollback of 2: rows a, b, c leave the grid in
    this order and the oldest, a, has been dropped. *)
Example scrollback_eviction_order :
  option_map (fun st => map (fun l => map (fun kv => Screen.data (snd kv)) l)
                            (Screen.history_top (snd st)))
    (Stream.feed (str "a" ++ [13; 10]%N ++ str "b" ++ [13; 10]%N
                  ++ str "c" ++ [13; 10]%N ++ str "d" ++ [13; 10]%N
                  ++ str "e")
       (Stream.initial, Screen.HistoryScreen 10 2 2))
  = Some [[str "b"]; [str "c"]].
Proof. vm_compute. reflexivity. Qed.

(** ** Malformed input *)

Lemma csi_dispatch_unsupported (body : list N) (final : N) (s : Screen.t) :
  Stream.plain_body body = false \/ Spec.supported_final final = false ->
  Stream.csi_dispatch body final s = Some s.
Proof.
  intros [H|H]; unfold Stream.csi_dispatch.
  - rewrite H. reflexivity.
  - destruct (negb (Stream.plain_body body)); [reflexivity|].
    unfold Spec.supported_final, existsb in H. cbv zeta.
    repeat match goal with
           | |- context [N.eqb final ?k] =>
               destruct (N.eqb final k); [cbn in H; try discriminate|]
           end;
      rewrite ?orb_true_r in H; try discriminate.
    reflexivity.
Qed.

Lemma feed_osc_body (body rest acc : list N) (s : Screen.t) :
  forallb (fun c => negb ((c =? Stream.BEL) || (c =? Stream.ESC))%N) body = true ->
  Stream.feed (body ++ rest) (Stream.mkStream Stream.OscCollect acc, s)
  = Stream.feed rest (Stream.mkStream Stream.OscCollect (acc ++ body), s).
Proof.
  revert acc. induction body as [|c body IH]; intros acc Hb.
  - rewrite app_nil_r. reflexivity.
  - cbn [forallb] in Hb. apply andb_true_iff in Hb. destruct Hb as [Hc Hb].
    apply negb_true_iff, orb_false_iff in Hc. destruct Hc as [Hc1 Hc2].
    cbn [app Stream.feed]. unfold Stream.feed_char at 1.
    cbn [Stream.state Stream.collected]. rewrite Hc1, Hc2.
    rewrite IH by assumption. rewrite <- app_assoc. reflexivity.
Qed.

(** The interpreter of the specification: from a well-formed screen
    [process_output] returns on every input and leaves a well-formed
    screen.  A control sequence still
    incomplete is buffered and the screen is untouched; one ended by an
    invalid character, by a final character the interpreter does not
    know, or carrying a body that is not plain parameters, is discarded;
    so are an unknown escape and an operating-system command; in each
    case the characters that follow are interpreted from the ground
    state on the same screen. *)
Lemma modelled_feed_total (w : TerminalWidget) (data : pystr) :
  Spec.well_formed (screen w) ->
  (exists w', process_output w data = Some w'
              /\ Spec.well_formed (screen w'))
  /\ (forall body,
         forallb Stream.is_csi_body body = true ->
         Stream.feed (27%N :: 91%N :: body) (Stream.initial, screen w)
         = Some (Stream.mkStream Stream.CsiCollect body, screen w))
  /\ (forall body c rest,
         forallb Stream.is_csi_body body = true ->
         Stream.is_csi_body c = false ->
         Stream.is_csi_final c = false
         \/ Spec.supported_final c = false
         \/ Stream.plain_body body = false ->
         Stream.feed (27%N :: 91%N :: body ++ c :: rest) (Stream.initial, screen w)
         = Stream.feed rest (Stream.initial, screen w))
  /\ (forall c rest,
         c <> 91%N -> c <> 93%N ->
         Stream.feed (27%N :: c :: rest) (Stream.initial, screen w)
         = Stream.feed rest (Stream.initial, screen w))
  /\ (forall body rest,
         forallb (fun c => negb ((c =? Stream.BEL) || (c =? Stream.ESC))%N) body
         = true ->
         Stream.feed (27%N :: 93%N :: body ++ Stream.BEL :: rest)
                     (Stream.initial, screen w)
         = Stream.feed rest (Stream.initial, screen w)).
Proof.
  intros H. split; [|split; [|split; [|split]]].
  - destruct (process_output_preserved w data H) as (w' & E & Hwf & _).
    exists w'. split; assumption.
  - intros body Hb.
    change (27%N :: 91%N :: body) with ([27%N; 91%N] ++ body).
    rewrite feed_app.
    change (Stream.feed [27%N; 91%N] (Stream.initial, screen w))
      with (Some (Stream.mkStream Stream.CsiCollect [], screen w)).
    cbv iota.
    pose proof (feed_csi_body body [] [] (screen w) Hb) as E.
    rewrite app_nil_r in E. exact E.
  - intros body c rest Hb Hc Hbad.
    change (27%N :: 91%N :: body ++ c :: rest)
      with ([27%N; 91%N] ++ body ++ c :: rest).
    rewrite feed_app.
    change (Stream.feed [27%N; 91%N] (Stream.initial, screen w))
      with (Some (Stream.mkStream Stream.CsiCollect [], screen w)).
    cbv iota. rewrite feed_csi_body by assumption.
    cbn [Stream.feed app]. unfold Stream.feed_char at 1.
    cbn [Stream.state Stream.collected]. rewrite Hc.
    destruct (Stream.is_csi_final c) eqn:Hf; [|reflexivity].
    rewrite csi_dispatch_unsupported; [reflexivity|].
    destruct Hbad as [Hbad|[Hbad|Hbad]]; [discriminate|right|left]; assumption.
  - intros c rest H1 H2. cbn [Stream.feed].
    change (Stream.feed_char (Stream.initial, screen w) 27%N)
      with (Some (Stream.mkStream Stream.Escape [], screen w)).
    unfold Stream.feed_char at 1. cbn [Stream.state].
    destruct (N.eqb_spec c 91); [contradiction|].
    destruct (N.eqb_spec c 93); [contradiction|]. reflexivity.
  - intros body rest Hb.
    change (27%N :: 93%N :: body ++ Stream.BEL :: rest)
      with ([27%N; 93%N] ++ body ++ Stream.BEL :: rest).
    rewrite feed_app.
    change (Stream.feed [27%N; 93%N] (Stream.initial, screen w))
      with (Some (Stream.mkStream Stream.OscCollect [], screen w)).
    cbv iota. rewrite feed_osc_body by assumption. reflexivity.
Qed.

Example modelled_feed_total_example :
  exists w', process_output (init Started)
               (str "ok" ++ 27%N :: str "[?25l" ++ 27%N :: str "[12;;zq"
                ++ 27%N :: str "(B" ++ 27%N :: str "[") = Some w'
             /\ Spec.well_formed (screen w').
Proof.
  apply (modelled_feed_total (init Started)
           (str "ok" ++ 27%N :: str "[?25l" ++ 27%N :: str "[12;;zq"
            ++ 27%N :: str "(B" ++ 27%N :: str "[")).
  unfold Spec.well_formed, Spec.cursor_in_grid, Spec.scrollback_bounded.
  cbn. repeat split; try lia. repeat constructor.
Defined.

(** ** Rendering: the projection *)

Lemma rstrip_space (t : pystr) : rstrip (t ++ [32%N]) = rstrip t.
Proof. unfold rstrip. rewrite rev_app_distr. reflexivity. Qed.

Lemma rstrip_solid (t d : pystr) (x : N) (r : list N) :
  rev d = x :: r -> isspace x = false -> rstrip (t ++ d) = t ++ d.
Proof.
  intros E Hx. unfold rstrip. rewrite rev_app_distr, E.
  cbn [app dropwhile]. rewrite Hx.
  change (x :: r ++ rev t) with ((x :: r) ++ rev t).
  rewrite <- E, <- rev_app_distr, rev_involutive. reflexivity.
Qed.

Lemma blank_cell_text (c : Screen.Char) :
  Spec.blank_cell c = true -> char_text c = [32%N].
Proof.
  unfold Spec.blank_cell, char_text.
  destruct (Screen.data c) as [|c0 [|c1 d]]; try discriminate; [reflexivity|].
  intros H. apply N.eqb_eq in H. subst. reflexivity.
Qed.

Lemma solid_cell_text (c : Screen.Char) :
  Spec.solid_cell c = true ->
  exists x r, rev (char_text c) = x :: r /\ isspace x = false.
Proof.
  unfold Spec.solid_cell, char_text.
  destruct (Screen.data c) as [|c0 d] eqn:E; [discriminate|].
  destruct (rev (c0 :: d)) as [|x r]; [discriminate|].
  intros H. exists x, r. split; [reflexivity|].
  apply negb_true_iff. assumption.
Qed.

Lemma rstrip_cells_rev (r : list Screen.Char) :
  Forall Spec.plain_cell r ->
  rstrip (Spec.cells_text (rev r))
  = Spec.cells_text (rev (dropwhile Spec.blank_cell r)).
Proof.
  unfold Spec.cells_text.
  induction r as [|c r IH]; intros HF; [reflexivity|].
  inversion HF as [|? ? Hc HF']; subst.
  cbn [rev dropwhile]. rewrite map_app, concat_app. cbn [map concat].
  rewrite app_nil_r.
  destruct (Spec.blank_cell c) eqn:Hb.
  - rewrite (blank_cell_text c Hb), rstrip_space. apply IH; assumption.
  - destruct Hc as [Hc|Hc]; [congruence|].
    destruct (solid_cell_text c Hc) as (x & t & E & Hx).
    rewrite (rstrip_solid _ _ x t E Hx).
    cbn [rev]. rewrite map_app, concat_app. cbn [map concat].
    rewrite app_nil_r. reflexivity.
Qed.

Lemma rstrip_cells (cells : list Screen.Char) :
  Forall Spec.plain_cell cells ->
  rstrip (Spec.cells_text cells)
  = Spec.cells_text (Spec.strip_trailing_blank cells).
Proof.
  intros HF. unfold Spec.strip_trailing_blank.
  rewrite <- (rev_involutive cells) at 1.
  apply rstrip_cells_rev. apply Forall_rev. assumption.
Qed.

Lemma char_text_not_empty (c : Screen.Char) : char_text c <> [].
Proof. unfold char_text. destruct (Screen.data c); discriminate. Qed.

Lemma is_empty_cells_text (cells : list Screen.Char) :
  is_empty (Spec.cells_text cells) = Spec.no_cells cells.
Proof.
  destruct cells as [|c r]; [reflexivity|].
  unfold Spec.cells_text. cbn [map concat Spec.no_cells].
  pose proof (char_text_not_empty c).
  destruct (char_text c); [contradiction|reflexivity].
Qed.

Lemma dropwhile_map {A B} (f : A -> B) (p : B -> bool) (q : A -> bool)
      (l : list A) :
  (forall a, p (f a) = q a) ->
  dropwhile p (map f l) = map f (dropwhile q l).
Proof.
  intros H. induction l as [|a l IH]; [reflexivity|].
  cbn [map dropwhile]. rewrite H. destruct (q a); [apply IH|reflexivity].
Qed.

Lemma pop_trailing_empty_cells (rows : list (list Screen.Char)) :
  pop_trailing_empty (map Spec.cells_text rows)
  = map Spec.cells_text (rev (dropwhile Spec.no_cells (rev rows))).
Proof.
  unfold pop_trailing_empty.
  rewrite <- map_rev, (dropwhile_map _ _ Spec.no_cells), map_rev;
    [reflexivity|apply is_empty_cells_text].
Qed.

Lemma dense_values_from (l : Screen.Line) (a : nat) :
  map fst l = map Z.of_nat (seq a (length l)) ->
  map (Spec.cell_at l) (map Z.of_nat (seq a (length l))) = values l.
Proof.
  unfold values.
  revert a. induction l as [|[k v] r IH]; intros a H; [reflexivity|].
  cbn [length seq map fst] in H. injection H as Hk Hr.
  cbn [length seq map snd]. f_equal.
  - unfold Spec.cell_at. cbn [get]. rewrite Hk, Z.eqb_refl. reflexivity.
  - rewrite <- (IH (S a) Hr). apply map_ext_in. intros x Hx.
    apply in_map_iff in Hx. destruct Hx as (j & <- & Hj).
    apply in_seq in Hj. unfold Spec.cell_at. cbn [get].
    destruct (Z.eqb_spec k (Z.of_nat j)); [lia|reflexivity].
Qed.

Lemma dense_width_from (l : Screen.Line) (a : nat) :
  map fst l = map Z.of_nat (seq a (length l)) ->
  Spec.line_width l
  = match l with [] => 0 | _ => Z.of_nat (a + length l) end.
Proof.
  revert a. induction l as [|[k v] r IH]; intros a H; [reflexivity|].
  cbn [length seq map fst] in H. injection H as Hk Hr.
  unfold Spec.line_width in *. cbn [fold_right fst].
  rewrite (IH (S a) Hr). destruct r; cbn [length]; lia.
Qed.

Lemma dense_row_cells (l : Screen.Line) :
  Spec.dense_row l -> Spec.row_cells (Spec.line_width l) l = values l.
Proof.
  unfold Spec.dense_row, range. rewrite Nat2Z.id. intros H.
  unfold Spec.row_cells, range.
  rewrite (dense_width_from l 0 H).
  replace (Z.to_nat (match l with [] => 0 | _ => Z.of_nat (0 + length l) end))
    with (length l) by (destruct l; cbn [length]; lia).
  apply dense_values_from. assumption.
Qed.

(** Where every scrollback row is dense and every cell is blank or
    solid, [render_screen] computes the projection of the
    specification. *)
Lemma render_refines_project (s : Screen.t) :
  Forall Spec.dense_row (Screen.history_top s) ->
  Forall (Forall Spec.plain_cell) (Spec.all_rows s) ->
  screen_text s = Spec.project s.
Proof.
  intros Hd Hp. unfold screen_text, Spec.project.
  rewrite <- pop_trailing_empty_cells. f_equal. f_equal.
  unfold Spec.all_rows in *. rewrite !map_app, !map_map.
  apply Forall_app in Hp. destruct Hp as [Hh Hg].
  rewrite Forall_map in Hh, Hg. rewrite Forall_forall in Hd, Hh, Hg.
  f_equal; apply map_ext_in; intros a Ha.
  - unfold history_line_text.
    rewrite <- (dense_row_cells a (Hd a Ha)).
    apply rstrip_cells. apply Hh. assumption.
  - unfold screen_line_text. rewrite <- map_map.
    apply rstrip_cells. apply Hg. assumption.
Qed.

(** The scenario of the specification: feeding Hello, carriage return,
    line feed and then World into a blank 5 x 80 grid renders as the two
    lines. *)
Example render_hello_world :
  option_map (fun w => (_last_text w, Spec.project (screen w)))
    (Spec.process_outputs
       (mkWidget true [] (Screen.HistoryScreen 80 5 10000) Stream.initial
                 true [] false [])
       [str "Hello" ++ [13; 10]%N; str "World"])
  = Some (str "Hello" ++ [10%N] ++ str "World",
          str "Hello" ++ [10%N] ++ str "World").
Proof. vm_compute. reflexivity. Qed.

(** The interpreter leaves [gap_row] in the scrollback: the cursor is
    moved to column 6, two letters are written, and two line feeds
    scroll the row out of a 2-row grid. *)
Example gap_row_reached :
  option_map (fun st => Screen.history_top (snd st))
    (Stream.feed (27%N :: str "[6GHi" ++ [10; 10]%N)
                 (Stream.initial, Screen.HistoryScreen 10 2 100))
  = Some [Spec.gap_row].
Proof. vm_compute. reflexivity. Qed.

(** C4 fails on the code.  A scrollback row that stores columns 5 and 6
    only is rendered as its stored cells, [Hi], although the row begins
    with five blank cells and its projection is five spaces followed by
    [Hi]; the same row still on the grid is rendered with them. *)
Theorem scrollback_row_loses_leading_blanks :
  screen_text Spec.gap_screen = str "Hi"
  /\ Spec.project Spec.gap_screen = str "     Hi"
  /\ screen_line_text
       (Screen.set_buffer Spec.gap_screen [Spec.gap_row; Screen.blank_line]) 0
     = str "     Hi".
Proof. repeat split; vm_compute; reflexivity. Qed.

(** ** Resizing the screen of the specification *)

Lemma restrict_all (c cols : Z) (l : Screen.Line) :
  Spec.row_in_columns c l -> c <= cols ->
  restrict (fun k => k <? cols) l = l.
Proof.
  unfold Spec.row_in_columns, restrict. intros HF Hc.
  induction HF as [|kv r Hk HF IH]; [reflexivity|].
  cbn [filter]. destruct (Z.ltb_spec (fst kv) cols); [|lia].
  rewrite IH. reflexivity.
Qed.

Lemma map_restrict_all (c cols : Z) (b : list Screen.Line) :
  Forall (Spec.row_in_columns c) b -> c <= cols ->
  map (restrict (fun k => k <? cols)) b = b.
Proof.
  intros HF Hc. induction HF as [|l r Hl HF IH]; [reflexivity|].
  cbn [map]. rewrite IH, (restrict_all c cols l Hl Hc). reflexivity.
Qed.

Lemma map_restrict_blank (cols : Z) (n : nat) :
  map (restrict (fun k => k <? cols)) (repeat Screen.blank_line n)
  = repeat Screen.blank_line n.
Proof. induction n as [|n IH]; [reflexivity|]. cbn. rewrite IH. reflexivity. Qed.

Lemma resize_unfold (rows cols : Z) (s : Screen.t) :
  0 < rows -> 0 < cols ->
  Screen.resize rows cols s
  = Screen.mkScreen rows cols
      (map (restrict (fun k => k <? cols))
           (firstn (Z.to_nat rows) (Screen.buffer s)
            ++ repeat Screen.blank_line
                 (Z.to_nat rows - length (Screen.buffer s))))
      (Screen.clamp 0 (rows - 1) (Screen.cursor_y s))
      (Screen.clamp 0 (cols - 1) (Screen.cursor_x s))
      (Screen.cursor_attrs s) 0 (rows - 1)
      (Screen.history_top s) (Screen.history_maxlen s).
Proof.
  intros Hr Hc. unfold Screen.resize.
  destruct (Z.leb_spec rows 0); [lia|].
  destruct (Z.leb_spec cols 0); [lia|]. reflexivity.
Qed.

(** A resize never touches the scrollback. *)
Lemma resize_keeps_scrollback (rows cols : Z) (s : Screen.t) :
  Screen.history_top (Screen.resize rows cols s) = Screen.history_top s.
Proof.
  unfold Screen.resize. destruct ((rows <=? 0) || (cols <=? 0)); reflexivity.
Qed.

(** A resize to at least one row and one column leaves a well-formed
    screen, the cursor clamped to the new bounds. *)
Lemma resize_well_formed (rows cols : Z) (s : Screen.t) :
  Spec.well_formed s -> 0 < rows -> 0 < cols ->
  Spec.well_formed (Screen.resize rows cols s)
  /\ Screen.cursor_y (Screen.resize rows cols s)
     = Screen.clamp 0 (rows - 1) (Screen.cursor_y s)
  /\ Screen.cursor_x (Screen.resize rows cols s)
     = Screen.clamp 0 (cols - 1) (Screen.cursor_x s).
Proof.
  intros H Hr Hc. rewrite (resize_unfold rows cols s Hr Hc).
  split; [|split; reflexivity]. wf_parts H.
  unfold Spec.well_formed, Spec.cursor_in_grid, Spec.scrollback_bounded.
  screen_fields.
  pose proof (clamp_range 0 (rows - 1) (Screen.cursor_y s) ltac:(lia)).
  pose proof (clamp_range 0 (cols - 1) (Screen.cursor_x s) ltac:(lia)).
  repeat split; try lia.
  - rewrite length_map, length_app, length_firstn, repeat_length. lia.
  - rewrite Forall_map. apply Forall_app. split.
    + apply Forall_firstn_keep.
      rewrite Forall_forall in *. intros l Hl.
      specialize (Hrows l Hl). unfold Spec.row_in_columns, restrict in *.
      rewrite Forall_forall in *. intros kv Hkv.
      apply filter_In in Hkv. destruct Hkv as [Hin Hlt].
      apply Z.ltb_lt in Hlt. specialize (Hrows kv Hin). lia.
    + apply Forall_forall. intros l Hl. apply repeat_spec in Hl. subst.
      constructor.
  - exact Hhist.
Qed.

(** Growing a well-formed screen and shrinking it back to its
    dimensions restores the grid and the cursor and leaves the
    scrollback as it was. *)
Lemma resize_round_trip (rows cols : Z) (s : Screen.t) :
  Spec.well_formed s ->
  Screen.lines s <= rows -> Screen.columns s <= cols ->
  let back := Screen.resize (Screen.lines s) (Screen.columns s)
                            (Screen.resize rows cols s) in
  Screen.buffer back = Screen.buffer s
  /\ Screen.lines back = Screen.lines s
  /\ Screen.columns back = Screen.columns s
  /\ Screen.cursor_y back = Screen.cursor_y s
  /\ Screen.cursor_x back = Screen.cursor_x s
  /\ Screen.history_top back = Screen.history_top s.
Proof.
  intros H Hr Hc. pose proof H as H'. wf_parts H'. cbv zeta.
  rewrite (resize_unfold rows cols s) by lia.
  rewrite resize_unfold by (screen_fields; lia).
  screen_fields. unfold Screen.clamp.
  repeat split; try lia.
  assert (Hgrown :
    map (restrict (fun k => k <? cols))
        (firstn (Z.to_nat rows) (Screen.buffer s)
         ++ repeat Screen.blank_line (Z.to_nat rows - length (Screen.buffer s)))
    = Screen.buffer s
      ++ repeat Screen.blank_line (Z.to_nat rows - length (Screen.buffer s))).
  { rewrite map_app, map_restrict_blank, firstn_all2 by lia.
    rewrite (map_restrict_all (Screen.columns s) cols) by assumption.
    reflexivity. }
  rewrite Hgrown.
  rewrite firstn_app.
  rewrite (firstn_all2 (n := Z.to_nat (Screen.lines s)) (Screen.buffer s))
    by lia.
  replace (Z.to_nat (Screen.lines s) - length (Screen.buffer s))%nat
    with O by lia.
  cbn [firstn]. rewrite length_app, repeat_length.
  replace (Z.to_nat (Screen.lines s)
           - (length (Screen.buffer s)
              + (Z.to_nat rows - length (Screen.buffer s))))%nat
    with O by lia.
  cbn [repeat]. rewrite !app_nil_r.
  apply (map_restrict_all (Screen.columns s)); [assumption|lia].
Qed.

(** A resize event leaves the screen well formed and its scrollback
    bound as it was, so the invariants above hold across any
    interleaving of output and resize events. *)
Lemma resize_event_well_formed (w w' : TerminalWidget)
      (vw vh cw ch : Z) (ok : bool) :
  Spec.well_formed (screen w) ->
  resizeEvent w vw vh cw ch ok = Some w' ->
  Spec.well_formed (screen w')
  /\ Screen.history_maxlen (screen w') = Screen.history_maxlen (screen w)
  /\ Screen.history_top (screen w') = Screen.history_top (screen w).
Proof.
  intros H E. unfold resizeEvent in E.
  destruct (pty_process w).
  - destruct ((cw =? 0) || (ch =? 0)); [discriminate|].
    injection E as <-. cbn [screen].
    destruct ok; [|auto].
    destruct (resize_well_formed (Z.max 24 (vh / ch)) (Z.max 80 (vw / cw))
                (screen w) H) as (Hwf & _); try lia.
    split; [assumption|].
    rewrite resize_keeps_scrollback.
    rewrite resize_unfold by lia. auto.
  - injection E as <-. auto.
Qed.

(* ================================================================== *)
(** * Further properties of the code *)

Import TerminalOps.

(** ** The reader thread, in general *)

Lemma emitted_app (a b : list WorkerEvent) :
  emitted (a ++ b) = emitted a ++ emitted b.
Proof.
  induction a as [|e a IH]; [reflexivity|].
  destruct e; cbn [app emitted]; rewrite IH; reflexivity.
Qed.

Lemma reads_made_app (a b : list WorkerEvent) :
  reads_made (a ++ b) = (reads_made a + reads_made b)%nat.
Proof.
  induction a as [|e a IH]; [reflexivity|].
  destruct e; cbn [app reads_made]; rewrite IH; reflexivity.
Qed.

Lemma data_read_not_empty (turns : list Turn) : ~ In [] (data_read turns).
Proof.
  induction turns as [|t turns IH]; cbn [data_read]; [intros []|].
  destruct (outcome t) as [[|c d]|]; try assumption.
  intros [H|H]; [discriminate|contradiction].
Qed.

(** X1.  Whatever the PTY and the [running] flag do, the reader thread
    reads some first part of the turns offered, once each, and hands on
    exactly the non-empty data it read, in the order read, followed by
    at most one session-ended notice; it never hands on empty data. *)
Theorem reader_delivers_reads_in_order (has_pty : bool) (world : list Turn) :
  exists used later notice,
    world = used ++ later
    /\ emitted (fst (read_pty has_pty world)) = data_read used ++ notice
    /\ (notice = [] \/ notice = [session_ended])
    /\ reads_made (fst (read_pty has_pty world)) = length used
    /\ ~ In [] (emitted (fst (read_pty has_pty world))).
Proof.
  assert (Hne : session_ended <> []) by discriminate.
  induction world as [|t world IH].
  - exists [], [], []. cbn. repeat split; auto.
  - cbn [read_pty].
    destruct (running_at_test t && has_pty) eqn:Hrun.
    + destruct (outcome t) as [d|] eqn:Ho.
      * destruct IH as (used & later & notice & Hw & He & Hn & Hr & Hin).
        destruct (read_pty has_pty world) as [events status].
        cbn [fst] in *.
        exists (t :: used), later, notice.
        split; [cbn [app]; congruence|].
        assert (E : emitted
                      (PtyRead :: (match d with [] => [] | _ => [DataReady d] end)
                         ++ Sleep :: events)
                    = data_read (t :: used) ++ notice).
        { cbn [data_read emitted]. rewrite Ho, emitted_app. cbn [emitted].
          rewrite He. destruct d; reflexivity. }
        split; [exact E|]. split; [exact Hn|]. split.
        -- cbn [reads_made]. rewrite reads_made_app. cbn [reads_made length].
           rewrite Hr. destruct d; reflexivity.
        -- rewrite E. intros H. apply in_app_or in H. destruct H as [H|H].
           ++ exact (data_read_not_empty _ H).
           ++ destruct Hn as [-> | ->]; cbn in H; [contradiction|].
              destruct H as [H|[]]. discriminate.
      * exists [t], world,
          (if running_at_except t then [session_ended] else []).
        cbn [fst app data_read emitted reads_made length]. rewrite Ho.
        destruct (running_at_except t); cbn [emitted app];
          repeat split; auto;
          intros H; cbn in H; tauto || (destruct H as [H|[]]; discriminate).
    + exists [], (t :: world), []. cbn. repeat split; auto.
Qed.

(** X2.  Once another thread has cleared [running], the worker ends
    without a notice: when it sees the flag cleared at the loop test it
    returns without reading again, and when the read raises after the
    flag was cleared it returns right after that read. *)
Theorem reader_stops_silently_after_cleanup
        (reads : list (pystr * bool)) (stop : Turn) (later : list Turn) :
  running_at_test stop = false
  \/ (outcome stop = Raises /\ running_at_except stop = false) ->
  read_pty true (map Spec.good_turn reads ++ stop :: later)
  = (Spec.delivered reads ++ (if running_at_test stop then [PtyRead] else []),
     Returned)
  /\ emitted (fst (read_pty true (map Spec.good_turn reads ++ stop :: later)))
     = emitted (Spec.delivered reads).
Proof.
  intros H.
  assert (E : read_pty true (map Spec.good_turn reads ++ stop :: later)
              = (Spec.delivered reads
                 ++ (if running_at_test stop then [PtyRead] else []),
                 Returned)).
  { rewrite read_pty_good_turns. cbn [read_pty].
    destruct H as [H|[Ho He]].
    - rewrite H. reflexivity.
    - rewrite Ho, He. destruct (running_at_test stop); reflexivity. }
  split; [exact E|]. rewrite E. cbn [fst]. rewrite emitted_app.
  destruct (running_at_test stop); cbn [emitted]; apply app_nil_r.
Qed.

Lemma reader_stops_silently_after_cleanup_witness :
  read_pty true (map Spec.good_turn [(str "dir", true)]
                 ++ mkTurn true Raises false :: [])
  = (Spec.delivered [(str "dir", true)]
     ++ (if running_at_test (mkTurn true Raises false) then [PtyRead] else []),
     Returned)
  /\ emitted (fst (read_pty true (map Spec.good_turn [(str "dir", true)]
                                  ++ mkTurn true Raises false :: [])))
     = emitted (Spec.delivered [(str "dir", true)]).
Proof.
  apply (reader_stops_silently_after_cleanup [(str "dir", true)]
           (mkTurn true Raises false) []).
  right. split; reflexivity.
Defined.

(** ** The display *)

Lemma displayed_from_app (shown : pystr) (a b : list UiCall) :
  displayed_from shown (a ++ b) = displayed_from (displayed_from shown a) b.
Proof.
  revert shown. induction a as [|c a IH]; intros shown; [reflexivity|].
  destruct c; cbn [app displayed_from]; apply IH.
Qed.

(** X3.  When the display holds the cached text, rendering leaves it
    holding the text of the current screen, which is then the cached
    text again: a display in step with the cache never shows a stale
    screen after [render_screen]. *)
Theorem render_screen_keeps_display_current (w : TerminalWidget) :
  displayed w = _last_text w ->
  displayed (render_screen w) = screen_text (screen w)
  /\ displayed (render_screen w) = _last_text (render_screen w).
Proof.
  intros H. rewrite render_screen_last_text.
  assert (E : displayed (render_screen w) = screen_text (screen w)).
  { unfold render_screen.
    destruct (pystr_eqb_spec (screen_text (screen w)) (_last_text w)) as [E|E];
      cbn [negb].
    - congruence.
    - unfold displayed. cbn [ui_calls]. rewrite displayed_from_app.
      destruct (negb (_user_scrolling w)); reflexivity. }
  split; [exact E|exact E].
Qed.

(** The widget inside [process_output], between [stream.feed("hi")]
    and [render_screen]: the screen has changed, the display and the
    cache have not. *)
Lemma render_screen_keeps_display_current_witness :
  exists s,
    Stream.feed (str "hi") (Spec.model (init Started))
    = Some (Stream.initial, s)
    /\ displayed (mkWidget true [] s Stream.initial true [] false [])
       = _last_text (mkWidget true [] s Stream.initial true [] false [])
    /\ displayed (init Started) = []
    /\ displayed (render_screen
                    (mkWidget true [] s Stream.initial true [] false []))
       = str "hi"
    /\ _last_text (render_screen
                     (mkWidget true [] s Stream.initial true [] false []))
       = str "hi".
Proof.
  eexists. split; [vm_compute; reflexivity|].
  match goal with
  | |- displayed ?w = _ /\ _ =>
      assert (H : displayed w = _last_text w) by reflexivity;
        destruct (render_screen_keeps_display_current w H) as [H1 H2]
  end.
  split; [exact H|]. split; [reflexivity|].
  split; [rewrite H1|rewrite <- H2, H1]; vm_compute; reflexivity.
Defined.

(** The start-up error message is not in step with the cache, and it
    stays on display while the screen is blank. *)
Lemma start_error_stays_displayed (message : pystr) :
  displayed (render_screen (init (PtyFailed message))) = message.
Proof. reflexivity. Qed.

(** A session without a PTY object. *)

(** X4.  A widget whose PTY could not be created never calls one: no
    key event records a PTY call, a resize event returns at once (even
    with a zero font metric, which is not divided by), the start-up
    timers type nothing, and the reader thread never reads. *)
Theorem no_pty_object_no_pty_call (w : TerminalWidget) :
  pty_process w = false ->
  (forall env key modifiers text,
      pty_calls (keyPressEvent w env key modifiers text) = pty_calls w)
  /\ (forall vw vh cw ch ok, resizeEvent w vw vh cw ch ok = Some w)
  /\ type_claude w = w
  /\ auto_press_one w = w
  /\ (forall world, fst (read_pty (pty_process w) world) = []).
Proof.
  intros H.
  assert (Hw : forall data, write_to_pty w data = w).
  { intros data. unfold write_to_pty. rewrite H. reflexivity. }
  split; [|split; [|split; [|split]]].
  - intros env key modifiers text. unfold keyPressEvent.
    repeat match goal with
           | |- context [if ?c then _ else _] => destruct c
           end;
      rewrite ?Hw; try reflexivity;
      unfold copy_selection, paste_clipboard;
      repeat match goal with
             | |- context [match ?x with [] => _ | _ :: _ => _ end] =>
                 destruct x
             end;
      rewrite ?Hw; reflexivity.
  - intros. unfold resizeEvent. rewrite H. reflexivity.
  - apply Hw.
  - unfold auto_press_one. rewrite Hw. destruct (running w); reflexivity.
  - intros world. rewrite H. destruct world as [|t world]; cbn [read_pty fst].
    + reflexivity.
    + rewrite andb_false_r. reflexivity.
Qed.

Lemma no_pty_object_no_pty_call_witness :
  (forall env key modifiers text,
      pty_calls (keyPressEvent (init (PtyFailed (str "no winpty")))
                               env key modifiers text)
      = pty_calls (init (PtyFailed (str "no winpty"))))
  /\ (forall vw vh cw ch ok,
         resizeEvent (init (PtyFailed (str "no winpty"))) vw vh cw ch ok
         = Some (init (PtyFailed (str "no winpty"))))
  /\ type_claude (init (PtyFailed (str "no winpty")))
     = init (PtyFailed (str "no winpty"))
  /\ auto_press_one (init (PtyFailed (str "no winpty")))
     = init (PtyFailed (str "no winpty"))
  /\ (forall world,
         fst (read_pty (pty_process (init (PtyFailed (str "no winpty")))) world)
         = []).
Proof.
  apply (no_pty_object_no_pty_call (init (PtyFailed (str "no winpty")))).
  reflexivity.
Defined.

(** ** The theme *)

Lemma update_to_light (c : Theme.palette) :
  c = Theme.DARK_THEME \/ c = Theme.LIGHT_THEME ->
  Theme.update c Theme.LIGHT_THEME = Theme.LIGHT_THEME.
Proof. intros [-> | ->]; vm_compute; reflexivity. Qed.

Lemma update_to_dark (c : Theme.palette) :
  c = Theme.DARK_THEME \/ c = Theme.LIGHT_THEME ->
  Theme.update c Theme.DARK_THEME = Theme.DARK_THEME.
Proof. intros [-> | ->]; vm_compute; reflexivity. Qed.

Lemma set_theme_palette (s : Theme.State) (theme : pystr) :
  Theme.COLORS s = Theme.DARK_THEME \/ Theme.COLORS s = Theme.LIGHT_THEME ->
  Theme.COLORS (Theme.set_theme s theme)
  = (if pystr_eqb theme (str "light")
     then Theme.LIGHT_THEME else Theme.DARK_THEME).
Proof.
  intros H. unfold Theme.set_theme. cbn [Theme.COLORS].
  destruct (pystr_eqb theme (str "light"));
    [apply update_to_light | apply update_to_dark]; assumption.
Qed.

Lemma theme_calls_palette (calls : list Theme.Call) (s : Theme.State) :
  Theme.COLORS s
  = (if pystr_eqb (Theme._current_theme s) (str "light")
     then Theme.LIGHT_THEME else Theme.DARK_THEME) ->
  Theme.COLORS (fold_left Theme.call calls s)
  = (if pystr_eqb (Theme._current_theme (fold_left Theme.call calls s))
                  (str "light")
     then Theme.LIGHT_THEME else Theme.DARK_THEME).
Proof.
  revert s. induction calls as [|c calls IH]; intros s H; [exact H|].
  cbn [fold_left]. apply IH.
  assert (Hp : Theme.COLORS s = Theme.DARK_THEME
               \/ Theme.COLORS s = Theme.LIGHT_THEME).
  { rewrite H. destruct (pystr_eqb _ _); auto. }
  destruct c as [theme|]; cbn [Theme.call Theme.toggle_theme fst];
    rewrite set_theme_palette by assumption; reflexivity.
Qed.

(** X5.  After any sequence of [set_theme] and [toggle_theme] calls the
    shared palette is exactly the light one when the current theme is
    named light and exactly the dark one for every other name, unknown
    names included; so every colour the widgets look up is defined. *)
Theorem palette_follows_theme (calls : list Theme.Call) :
  Theme.COLORS (fold_left Theme.call calls Theme.loaded)
  = (if pystr_eqb (Theme.get_theme (fold_left Theme.call calls Theme.loaded))
                  (str "light")
     then Theme.LIGHT_THEME else Theme.DARK_THEME)
  /\ (forall k, In k Theme.looked_up ->
        Theme.getitem (Theme.COLORS (fold_left Theme.call calls Theme.loaded)) k
        <> None).
Proof.
  assert (H := theme_calls_palette calls Theme.loaded eq_refl).
  split; [exact H|].
  intros k Hk. unfold Theme.get_theme in H. rewrite H.
  destruct (pystr_eqb _ _);
    cbn in Hk;
    repeat (destruct Hk as [<-|Hk]; [vm_compute; discriminate|]);
    contradiction.
Qed.

(** X6.  [toggle_theme] returns light exactly when the current theme is
    named dark and dark for every other name; the name it returns is
    the new current theme; and from a state reached by calls of the
    interface whose theme is dark or light, toggling twice restores
    both the name and the palette. *)
Theorem toggle_theme_round_trip (calls : list Theme.Call) :
  let s := fold_left Theme.call calls Theme.loaded in
  snd (Theme.toggle_theme s)
  = (if pystr_eqb (Theme.get_theme s) (str "dark")
     then str "light" else str "dark")
  /\ Theme.get_theme (fst (Theme.toggle_theme s)) = snd (Theme.toggle_theme s)
  /\ (Theme.get_theme s = str "dark" \/ Theme.get_theme s = str "light" ->
      fst (Theme.toggle_theme (fst (Theme.toggle_theme s))) = s).
Proof.
  cbv zeta. set (s := fold_left Theme.call calls Theme.loaded).
  assert (H := theme_calls_palette calls Theme.loaded eq_refl). fold s in H.
  split; [reflexivity|]. split; [reflexivity|].
  assert (Hp : Theme.COLORS s = Theme.DARK_THEME
               \/ Theme.COLORS s = Theme.LIGHT_THEME).
  { rewrite H. destruct (pystr_eqb _ _); auto. }
  unfold Theme.get_theme. intros Hn.
  destruct s as [name colors]. cbn [Theme._current_theme Theme.COLORS] in *.
  destruct Hn as [-> | ->]; subst colors;
    unfold Theme.toggle_theme, Theme.set_theme;
    cbn [Theme._current_theme Theme.COLORS fst];
    vm_compute; reflexivity.
Qed.

(** ** The translator *)

Lemma dropwhile_all {A} (p : A -> bool) (l : list A) :
  forallb p l = true -> dropwhile p l = [].
Proof.
  induction l as [|a l IH]; [reflexivity|]. cbn [forallb dropwhile].
  intros H. apply andb_true_iff in H. destruct H as [-> H]. auto.
Qed.

Lemma strip_blank (s : pystr) :
  forallb isspace s = true -> Translator.strip s = [].
Proof.
  intros H. unfold Translator.strip, Translator.lstrip.
  rewrite (dropwhile_all _ _ H). reflexivity.
Qed.

Lemma dropwhile_nil_all {A} (p : A -> bool) (l : list A) :
  dropwhile p l = [] -> forallb p l = true.
Proof.
  induction l as [|a l IH]; [reflexivity|]. cbn [forallb dropwhile].
  destruct (p a); [exact IH|discriminate].
Qed.

Lemma strip_nil_blank (s : pystr) :
  Translator.strip s = [] -> forallb isspace s = true.
Proof.
  unfold Translator.strip, Translator.lstrip, rstrip. intros H.
  assert (H1 : dropwhile isspace (rev (dropwhile isspace s)) = []).
  { rewrite <- (rev_involutive (dropwhile _ (rev _))). rewrite H. reflexivity. }
  apply dropwhile_nil_all in H1. rewrite forallb_forall in H1.
  assert (H2 : dropwhile isspace s = []).
  { destruct (dropwhile isspace s) as [|a r] eqn:E; [reflexivity|].
    exfalso.
    assert (Ha : isspace a = true).
    { apply H1. apply in_rev. rewrite rev_involutive. left. reflexivity. }
    clear H H1. induction s as [|b s IH]; [discriminate|].
    cbn [dropwhile] in E. destruct (isspace b) eqn:Hb; [auto|].
    injection E as -> _. congruence. }
  apply dropwhile_nil_all. exact H2.
Qed.

(** X7.  [translate] answers the empty text for an empty or
    all-whitespace input, and for such an input only in this way:
    without looking at the model, without loading it and without
    reporting a status, whatever loading or running would have met. *)
Theorem translate_blank_is_free (tr : Translator.t) (text : pystr)
        (load : Translator.LoadOutcome) (run : Translator.RunOutcome) :
  (forallb isspace text = true ->
   Translator.translate tr text load run = (tr, Some [], []))
  /\ (forallb isspace text = false ->
      Translator.model tr = true ->
      Translator.translate tr text load run
      = (tr,
         match run with
         | Translator.Decoded result => Some result
         | Translator.RunFails _ => None
         end,
         match run with
         | Translator.Decoded _ => []
         | Translator.RunFails e =>
             Translator._update_status tr (str "Translation error: " ++ e)
         end)).
Proof.
  split.
  - intros H. unfold Translator.translate.
    destruct text as [|c text]; [reflexivity|].
    rewrite (strip_blank _ H). reflexivity.
  - intros H Hm. unfold Translator.translate.
    destruct text as [|c text]; [discriminate|].
    destruct (Translator.strip (c :: text)) as [|c' s] eqn:E.
    + apply strip_nil_blank in E. congruence.
    + rewrite Hm. destruct run; reflexivity.
Qed.

(** ** The voice recognizer *)

Section VoiceFacts.

Variable sample : Type.

Lemma written_app (a b : list (Voice.Effect sample)) :
  Voice.written (a ++ b) = Voice.written a ++ Voice.written b.
Proof.
  induction a as [|e a IH]; [reflexivity|].
  destruct e; cbn [app Voice.written]; rewrite IH; reflexivity.
Qed.

Lemma results_app (a b : list (Voice.Effect sample)) :
  Voice.results (a ++ b) = Voice.results a ++ Voice.results b.
Proof.
  induction a as [|e a IH]; [reflexivity|].
  destruct e; cbn [app Voice.results]; rewrite IH; reflexivity.
Qed.

Lemma status_written (v : Voice.t sample) (status : pystr) :
  Voice.written (Voice._update_status v status) = [].
Proof. unfold Voice._update_status. destruct (Voice._on_status v); reflexivity. Qed.

Lemma status_results (v : Voice.t sample) (status : pystr) :
  Voice.results (Voice._update_status v status) = [].
Proof. unfold Voice._update_status. destruct (Voice._on_status v); reflexivity. Qed.

Lemma load_error_written (v : Voice.t sample) (r : Voice.Raised) :
  Voice.written (Voice.load_error v r) = [].
Proof. destruct r; apply status_written. Qed.

Lemma load_error_results (v : Voice.t sample) (r : Voice.Raised) :
  Voice.results (Voice.load_error v r) = [].
Proof. destruct r; apply status_results. Qed.

Lemma stopping_written (v : Voice.t sample) (stop : Voice.StopOutcome) :
  Voice.written
    match stop with
    | Voice.StreamStopped => []
    | Voice.StopRaises e =>
        Voice._update_status v (str "Error stopping stream: " ++ e)
    end = [].
Proof. destruct stop; [reflexivity|apply status_written]. Qed.

Lemma stopping_results (v : Voice.t sample) (stop : Voice.StopOutcome) :
  Voice.results
    match stop with
    | Voice.StreamStopped => []
    | Voice.StopRaises e =>
        Voice._update_status v (str "Error stopping stream: " ++ e)
    end = [].
Proof. destruct stop; [reflexivity|apply status_results]. Qed.

Lemma reported_written (v : Voice.t sample) (transcription : option pystr) :
  @Voice.written sample
    match transcription with
    | Some (c :: rest) =>
        if Voice._on_result v then [Voice.ResultReady (c :: rest)] else []
    | _ => []
    end = [].
Proof.
  destruct transcription as [[|c rest]|]; try reflexivity.
  destruct (Voice._on_result v); reflexivity.
Qed.

Ltac voice_effects :=
  repeat (rewrite ?written_app, ?results_app, ?status_written, ?status_results,
           ?load_error_written, ?load_error_results,
           ?stopping_written, ?stopping_results, ?reported_written;
          cbn [Voice.written Voice.results app]).

Lemma load_model_effects (v : Voice.t sample) (load : Voice.LoadOutcome) :
  Voice.written (snd (Voice.load_model v load)) = []
  /\ Voice.results (snd (Voice.load_model v load)) = []
  /\ Voice.is_recording (fst (fst (Voice.load_model v load))) = Voice.is_recording v
  /\ Voice.recorded_audio (fst (fst (Voice.load_model v load))) = Voice.recorded_audio v
  /\ Voice._on_result (fst (fst (Voice.load_model v load))) = Voice._on_result v.
Proof.
  destruct load; cbn [Voice.load_model fst snd Voice.is_recording
                      Voice.recorded_audio Voice._on_result];
    voice_effects; auto.
Qed.

Lemma transcribe_effects (v : Voice.t sample) (audio : list sample)
      (load : Voice.LoadOutcome) (tr : Voice.TranscribeOutcome) :
  let out := Voice._transcribe v audio load tr in
  (Voice.written (snd out) = [] \/ Voice.written (snd out) = [audio])
  /\ Voice.results (snd out) = []
  /\ Voice.is_recording (fst (fst out)) = Voice.is_recording v
  /\ Voice.recorded_audio (fst (fst out)) = Voice.recorded_audio v.
Proof.
  unfold Voice._transcribe.
  destruct (Voice.model v).
  - destruct tr; cbn [fst snd]; voice_effects; auto.
  - pose proof (load_model_effects v load) as (Hw & Hr & Hi & Ha & _).
    destruct (Voice.load_model v load) as [[v1 ok] effects].
    cbn [fst snd] in *.
    destruct ok; [destruct tr|]; cbn [fst snd]; voice_effects;
      rewrite ?Hw, ?Hr; cbn [app]; auto.
Qed.

Lemma hear_recording (v : Voice.t sample)
      (blocks : list (list sample * option pystr)) :
  Voice.is_recording v = true ->
  Voice.recorded_audio (fst (Voice.hear v blocks))
  = Voice.recorded_audio v ++ map fst blocks
  /\ Voice.is_recording (fst (Voice.hear v blocks)) = true.
Proof.
  revert v. induction blocks as [|[indata status] rest IH]; intros v Hrec.
  - cbn. rewrite app_nil_r. auto.
  - cbn [Voice.hear Voice._audio_callback map fst]. rewrite Hrec.
    match goal with
    | |- context [Voice.hear ?v1 rest] =>
        specialize (IH v1 eq_refl); destruct (Voice.hear v1 rest) as [v2 more]
    end.
    cbn [fst Voice.recorded_audio] in *. destruct IH as [-> ->].
    rewrite <- app_assoc. auto.
Qed.

Lemma hear_idle (v : Voice.t sample)
      (blocks : list (list sample * option pystr)) :
  Voice.is_recording v = false ->
  fst (Voice.hear v blocks) = v.
Proof.
  induction blocks as [|[indata status] rest IH]; intros Hrec; [reflexivity|].
  cbn [Voice.hear Voice._audio_callback]. rewrite Hrec.
  specialize (IH Hrec). destruct (Voice.hear v rest) as [v2 more].
  cbn [fst] in *. exact IH.
Qed.

(** X8.  A recording holds exactly the blocks heard since it was
    started, in order, whatever an earlier recording left behind: the
    only audio ever written for transcription is their concatenation,
    an empty recording is never transcribed or reported, and blocks
    that arrive after the stop are dropped. *)
Theorem recording_holds_what_was_heard
        (v : Voice.t sample) (blocks later : list (list sample * option pystr))
        (stop : Voice.StopOutcome) (load : Voice.LoadOutcome)
        (tr : Voice.TranscribeOutcome) :
  Voice.is_recording v = false ->
  let started := fst (Voice.start_recording v Voice.StreamStarted) in
  let heard := fst (Voice.hear started blocks) in
  let out := Voice.stop_recording heard stop load tr in
  Voice.recorded_audio heard = map fst blocks
  /\ (forall audio, In audio (Voice.written (snd out)) ->
        audio = concat (map fst blocks))
  /\ (blocks = [] ->
      snd (fst out) = None
      /\ Voice.written (snd out) = [] /\ Voice.results (snd out) = [])
  /\ Voice.recorded_audio (fst (Voice.hear (fst (fst out)) later))
     = map fst blocks.
Proof.
  intros Hidle started heard out.
  assert (Hstarted : Voice.is_recording started = true
                     /\ Voice.recorded_audio started = []).
  { subst started. unfold Voice.start_recording. rewrite Hidle. cbn. auto. }
  destruct Hstarted as [Hrec Hempty].
  pose proof (hear_recording started blocks Hrec) as [Haudio Hstill].
  fold heard in Haudio, Hstill. rewrite Hempty in Haudio. cbn [app] in Haudio.
  split; [exact Haudio|].
  subst out. unfold Voice.stop_recording. rewrite Hstill. cbn [negb].
  cbn [Voice.recorded_audio]. rewrite Haudio.
  destruct (map fst blocks) as [|b bs] eqn:Hblocks.
  - cbn [fst snd]. voice_effects.
    split; [intros audio []|]. split; [auto|].
    rewrite hear_idle by reflexivity. reflexivity.
  - match goal with
    | |- context [Voice._transcribe ?v1 ?a load tr] =>
        pose proof (transcribe_effects v1 a load tr) as (Hw & Hr & Hi & Ha);
          destruct (Voice._transcribe v1 a load tr) as [[v2 transcription] effects]
    end.
    cbn [fst snd Voice.is_recording Voice.recorded_audio] in *.
    split; [|split].
    + intros audio Hin. revert Hin. voice_effects. rewrite app_nil_r.
      destruct Hw as [Hw|Hw]; rewrite Hw; [intros []|intros [<-|[]]; reflexivity].
    + intros Hnil. destruct blocks; discriminate.
    + rewrite hear_idle by exact Hi. rewrite Ha. reflexivity.
Qed.

(** X9.  [stop_recording] always leaves the recognizer idle; when it
    was idle already it does nothing at all; and it calls the result
    callback at most once, only with a non-empty transcription, which
    is then the value it returns. *)
Theorem stop_recording_reports_one_result
        (v : Voice.t sample) (stop : Voice.StopOutcome) (load : Voice.LoadOutcome)
        (tr : Voice.TranscribeOutcome) :
  let out := Voice.stop_recording v stop load tr in
  Voice.is_recording (fst (fst out)) = false
  /\ (Voice.is_recording v = false -> out = (v, None, []))
  /\ (Voice.results (snd out) = []
      \/ exists text,
           Voice.results (snd out) = [text]
           /\ text <> [] /\ snd (fst out) = Some text
           /\ Voice.recorded_audio v <> []).
Proof.
  unfold Voice.stop_recording.
  destruct (Voice.is_recording v) eqn:Hrec; cbn [negb].
  2:{ cbn [fst snd Voice.results]. auto. }
  cbn [Voice.recorded_audio].
  destruct (Voice.recorded_audio v) as [|b bs] eqn:Haudio.
  - cbn [fst snd Voice.is_recording]. voice_effects.
    split; [reflexivity|]. split; [discriminate|]. left. reflexivity.
  - match goal with
    | |- context [Voice._transcribe ?v1 ?a load tr] =>
        pose proof (transcribe_effects v1 a load tr) as (Hw & Hr & Hi & Ha);
          destruct (Voice._transcribe v1 a load tr) as [[v2 transcription] effects]
    end.
    cbn [fst snd Voice.is_recording Voice.recorded_audio] in *.
    split; [exact Hi|]. split; [discriminate|].
    voice_effects. rewrite Hr. cbn [app].
    destruct transcription as [[|c rest]|]; [left; reflexivity| |left; reflexivity].
    destruct (Voice._on_result v2); [right|left; reflexivity].
    exists (c :: rest). repeat split; discriminate.
Qed.

End VoiceFacts.

Lemma recording_holds_what_was_heard_witness :
  Voice.is_recording (Voice.set_callbacks (@Voice.new Z) true true) = false
  /\ Voice.recorded_audio
       (fst (Voice.hear
               (fst (Voice.start_recording
                       (Voice.set_callbacks (@Voice.new Z) true true)
                       Voice.StreamStarted))
               [([1; 2]%Z, None); ([3]%Z, Some (str "overflow"))]))
     = [[1; 2]%Z; [3]%Z].
Proof.
  split; [reflexivity|].
  apply (proj1 (recording_holds_what_was_heard Z
                  (Voice.set_callbacks (@Voice.new Z) true true)
                  [([1; 2]%Z, None); ([3]%Z, Some (str "overflow"))] []
                  Voice.StreamStopped Voice.ModelLoaded
                  (Voice.Transcribed (str "privet")) eq_refl)).
Defined.

(** ** The title bar *)

Lemma last_nonempty {A} (a : A) (l : list A) (d d' : A) :
  last (a :: l) d = last (a :: l) d'.
Proof.
  revert a. induction l as [|b l IH]; intros a; [reflexivity|].
  change (last (b :: l) d = last (b :: l) d'). apply IH.
Qed.

Lemma drag_moves (tb : Widgets.TitleBar) (p : Widgets.QPoint)
      (moves : list Widgets.QPoint) :
  Widgets.dragging tb = true ->
  fold_left Widgets.mouse (map (Widgets.Move Widgets.LeftButton) moves) (tb, p)
  = (tb, match moves with
         | [] => p
         | _ => Widgets.sub (last moves p) (Widgets.drag_position tb)
         end).
Proof.
  intros Hdrag. revert p. induction moves as [|g moves IH]; intros p.
  - reflexivity.
  - cbn [map fold_left]. unfold Widgets.mouse at 2.
    cbn [fst snd]. unfold Widgets.mouseMoveEvent. rewrite Hdrag.
    cbn [andb]. rewrite Z.eqb_refl. rewrite IH.
    destruct moves as [|g' moves]; [reflexivity|].
    do 2 f_equal. change (last (g :: g' :: moves) p) with (last (g' :: moves) p).
    apply last_nonempty.
Qed.

Lemma idle_moves (tb : Widgets.TitleBar) (p : Widgets.QPoint)
      (moves : list (Z * Widgets.QPoint)) :
  Widgets.dragging tb = false ->
  fold_left Widgets.mouse
            (map (fun m => Widgets.Move (fst m) (snd m)) moves) (tb, p)
  = (tb, p).
Proof.
  intros Hidle. induction moves as [|m moves IH]; [reflexivity|].
  cbn [map fold_left]. unfold Widgets.mouse at 2. cbn [fst snd].
  unfold Widgets.mouseMoveEvent. rewrite Hidle. exact IH.
Qed.

(** X10.  Dragging the title bar keeps the grabbed point under the
    cursor: after a left-button press at [grab] and moves with the left
    button held, the window's corner is displaced from where it was by
    exactly the cursor's displacement from [grab]; and once the button
    is released, or after a press with another button on an idle title
    bar, no move event moves the window. *)
Theorem title_bar_drag_follows_cursor
        (tb : Widgets.TitleBar) (corner grab : Widgets.QPoint)
        (moves : list Widgets.QPoint) (cursor : Widgets.QPoint)
        (later : list (Z * Widgets.QPoint)) (button : Z) :
  let pressed := Widgets.mouse (tb, corner)
                               (Widgets.Press Widgets.LeftButton grab) in
  let dragged :=
    fold_left Widgets.mouse
              (map (Widgets.Move Widgets.LeftButton) (moves ++ [cursor]))
              pressed in
  let afterwards := map (fun m => Widgets.Move (fst m) (snd m)) later in
  fst (snd dragged) - fst corner = fst cursor - fst grab
  /\ snd (snd dragged) - snd corner = snd cursor - snd grab
  /\ snd (fold_left Widgets.mouse afterwards
                    (Widgets.mouse dragged Widgets.Release))
     = snd dragged
  /\ (Widgets.dragging tb = false -> button <> Widgets.LeftButton ->
      snd (fold_left Widgets.mouse afterwards
                     (Widgets.mouse (tb, corner) (Widgets.Press button grab)))
      = corner).
Proof.
  intros pressed dragged idle.
  assert (Hdragged :
            dragged
            = (Widgets.mkTitleBar true (Widgets.sub grab corner),
               Widgets.sub cursor (Widgets.sub grab corner))).
  { subst dragged pressed. unfold Widgets.mouse at 2. cbn [fst snd].
    unfold Widgets.mousePressEvent. rewrite Z.eqb_refl.
    rewrite drag_moves by reflexivity.
    assert (Hlast : last (moves ++ [cursor]) corner = cursor) by apply last_last.
    destruct (moves ++ [cursor]) as [|g rest] eqn:Hmoves.
    { destruct moves; discriminate. }
    rewrite Hlast. reflexivity. }
  rewrite Hdragged. cbn [fst snd Widgets.sub].
  split; [lia|]. split; [lia|]. split.
  - subst idle. unfold Widgets.mouse at 2. cbn [fst snd].
    unfold Widgets.mouseReleaseEvent.
    rewrite idle_moves by reflexivity. reflexivity.
  - intros Hidle Hbutton. subst idle. unfold Widgets.mouse at 2. cbn [fst snd].
    unfold Widgets.mousePressEvent.
    destruct (Z.eqb_spec button Widgets.LeftButton) as [E|_]; [contradiction|].
    rewrite idle_moves by exact Hidle. reflexivity.
Qed.

(** ** The window and its tabs *)

Section WindowFacts.

Variable sample : Type.

Import Window.

Lemma enumerate_map_length {A B} (f : Z -> A -> B) (i : Z) (l : list A) :
  length (enumerate_map f i l) = length l.
Proof.
  revert i. induction l as [|a l IH]; intros i; [reflexivity|].
  cbn [enumerate_map length]. rewrite IH. reflexivity.
Qed.

Lemma enumerate_map_nth {A B} (f : Z -> A -> B) (i : Z) (l : list A) (k : nat) :
  nth_error (enumerate_map f i l) k
  = option_map (f (i + Z.of_nat k)) (nth_error l k).
Proof.
  revert i k. induction l as [|a l IH]; intros i k.
  - destruct k; reflexivity.
  - destruct k as [|k].
    + cbn. rewrite Z.add_0_r. reflexivity.
    + cbn [enumerate_map nth_error]. rewrite IH. do 2 f_equal. lia.
Qed.

Lemma enumerate_map_text (f : Z -> TabButton -> TabButton) (i : Z)
      (l : list TabButton) :
  (forall j b, text (f j b) = text b) ->
  map text (enumerate_map f i l) = map text l.
Proof.
  intros Hf. revert i. induction l as [|a l IH]; intros i; [reflexivity|].
  cbn [enumerate_map map]. rewrite Hf, IH. reflexivity.
Qed.

Lemma consistent_wired (w : ClaudeWindow sample) : consistent w -> wired w.
Proof.
  intros (Hlen & _ & _ & Hnth). split; [exact Hlen|].
  intros i btn H. apply (Hnth i btn H).
Qed.

Lemma switch_tab_consistent (w : ClaudeWindow sample) (index : Z) :
  wired w ->
  0 <= index < Z.of_nat (length (terminals w)) ->
  consistent (switch_tab w index)
  /\ current_tab_index (switch_tab w index) = index
  /\ terminals (switch_tab w index) = terminals w
  /\ map text (tab_buttons (switch_tab w index)) = map text (tab_buttons w)
  /\ session_counter (switch_tab w index) = session_counter w
  /\ status_bar (switch_tab w index) = status_bar w
  /\ voice_recognizer (switch_tab w index) = voice_recognizer w
  /\ theme (switch_tab w index) = theme w
  /\ focus (switch_tab w index) = Some (Z.to_nat index).
Proof.
  intros [Hlen Hidx] Hrange. unfold switch_tab.
  replace ((0 <=? index) && (index <? Z.of_nat (length (terminals w))))
    with true by (symmetry; apply andb_true_iff; split; lia).
  cbn [with_focus with_tabs current_tab_index terminals tab_buttons
       session_counter status_bar voice_recognizer theme focus].
  split; [|repeat split; apply enumerate_map_text; reflexivity].
  unfold consistent.
  cbn [with_focus with_tabs current_tab_index terminals tab_buttons].
  rewrite enumerate_map_length.
  split; [exact Hlen|]. split; [lia|]. split; [lia|].
  intros i btn H. rewrite enumerate_map_nth in H.
  destruct (nth_error (tab_buttons w) i) as [b|] eqn:Hb; [|discriminate].
  cbn [option_map] in H. injection H as <-. cbn. rewrite (Hidx i b Hb). auto.
Qed.

Lemma replaced_length {A} (l : list A) (n : nat) (x y : A) :
  nth_error l n = Some x ->
  length (firstn n l ++ y :: skipn (S n) l) = length l.
Proof.
  intros H. apply nth_error_split in H. destruct H as (l1 & l2 & -> & <-).
  rewrite firstn_app, Nat.sub_diag, firstn_all. cbn [firstn].
  rewrite app_nil_r.
  replace (S (length l1)) with (length (l1 ++ [x])) by (rewrite length_app; cbn; lia).
  replace (l1 ++ x :: l2) with ((l1 ++ [x]) ++ l2) by (rewrite <- app_assoc; reflexivity).
  rewrite skipn_app, Nat.sub_diag, skipn_all. cbn [skipn app].
  rewrite !length_app. cbn [length]. lia.
Qed.

Lemma replaced_split {A} (l : list A) (n : nat) (x y : A) :
  nth_error l n = Some x ->
  exists l1 l2,
    l = l1 ++ x :: l2 /\ length l1 = n
    /\ firstn n l ++ y :: skipn (S n) l = l1 ++ y :: l2.
Proof.
  intros H. apply nth_error_split in H. destruct H as (l1 & l2 & -> & <-).
  exists l1, l2. split; [reflexivity|]. split; [reflexivity|].
  rewrite firstn_app, Nat.sub_diag, firstn_all. cbn [firstn].
  rewrite app_nil_r.
  replace (S (length l1)) with (length (l1 ++ [x])) by (rewrite length_app; cbn; lia).
  replace (l1 ++ x :: l2) with ((l1 ++ [x]) ++ l2) by (rewrite <- app_assoc; reflexivity).
  rewrite skipn_app, Nat.sub_diag, skipn_all. reflexivity.
Qed.

Lemma pop_some {A} (l : list A) (index : Z) :
  0 <= index < Z.of_nat (length l) ->
  exists x l1 l2,
    pop l index = Some (x, l1 ++ l2)
    /\ l = l1 ++ x :: l2 /\ length l1 = Z.to_nat index.
Proof.
  intros Hrange. unfold pop.
  replace (index <? 0) with false by (symmetry; apply Z.ltb_ge; lia).
  replace ((0 <=? index) && (index <? Z.of_nat (length l)))
    with true by (symmetry; apply andb_true_iff; split; lia).
  destruct (nth_error l (Z.to_nat index)) as [x|] eqn:Hx.
  2:{ apply nth_error_None in Hx. lia. }
  pose proof (nth_error_split l _ Hx) as (l1 & l2 & E & Hlen).
  exists x, l1, l2. split; [|auto].
  rewrite <- Hlen. subst l. clear.
  rewrite firstn_app, Nat.sub_diag, firstn_all. cbn [firstn]. rewrite app_nil_r.
  replace (S (length l1)) with (length (l1 ++ [x])) by (rewrite length_app; cbn; lia).
  replace (l1 ++ x :: l2) with ((l1 ++ [x]) ++ l2) by (rewrite <- app_assoc; reflexivity).
  rewrite skipn_app, Nat.sub_diag, skipn_all. reflexivity.
Qed.

Lemma keeps_refl (w : ClaudeWindow sample) : keeps w w.
Proof. unfold keeps. tauto. Qed.

Lemma keeps_trans (a b c : ClaudeWindow sample) :
  keeps a b -> keeps b c -> keeps a c.
Proof.
  unfold keeps. intros (A1 & A2 & A3 & A4 & A5 & A6 & A7 & A8)
                       (B1 & B2 & B3 & B4 & B5 & B6 & B7 & B8).
  repeat split; congruence.
Qed.

Lemma keeps_consistent (w w' : ClaudeWindow sample) :
  keeps w w' -> consistent w -> consistent w'.
Proof.
  unfold keeps, consistent.
  intros (K1 & K2 & K3 & _) (C1 & C2 & C3 & C4).
  rewrite K1, K2, K3. auto.
Qed.

Lemma keeps_numbered (w w' : ClaudeWindow sample) (numbers : list Z) :
  keeps w w' -> numbered w numbers -> numbered w' numbers.
Proof.
  unfold keeps, numbered.
  intros (K1 & _ & _ & K4 & _) (N1 & N2 & N3).
  rewrite K1, K4. auto.
Qed.

Lemma keeps_icon (w w' : ClaudeWindow sample) :
  keeps w w' -> icon_current w -> icon_current w'.
Proof.
  unfold keeps, icon_current.
  intros (_ & _ & _ & _ & _ & K6 & K7 & _) H. rewrite K6, K7. exact H.
Qed.

Lemma keeps_focus (w w' : ClaudeWindow sample) :
  keeps w w' -> focus_current w -> focus_current w'.
Proof.
  unfold keeps, focus_current.
  intros (_ & _ & K3 & _ & _ & _ & _ & K8) H. rewrite K3, K8. exact H.
Qed.

Lemma set_status_keeps (w : ClaudeWindow sample) (status : pystr) :
  keeps w (set_status w status).
Proof. unfold keeps. cbn. tauto. Qed.

Lemma fold_status_keeps (statuses : list pystr) (w : ClaudeWindow sample) :
  keeps w (fold_left _on_voice_status statuses w)
  /\ terminals (fold_left _on_voice_status statuses w) = terminals w
  /\ translator (fold_left _on_voice_status statuses w) = translator w
  /\ Widgets.is_recording (status_bar (fold_left _on_voice_status statuses w))
     = Widgets.is_recording (status_bar w).
Proof.
  revert w. induction statuses as [|s statuses IH]; intros w.
  - cbn. split; [apply keeps_refl|auto].
  - cbn [fold_left]. destruct (IH (_on_voice_status w s)) as (K & T & Tr & R).
    split; [|split; [|split]].
    + eapply keeps_trans; [apply set_status_keeps|exact K].
    + rewrite T. reflexivity.
    + rewrite Tr. reflexivity.
    + rewrite R. reflexivity.
Qed.

Lemma on_voice_result_keeps (w : ClaudeWindow sample) (result : pystr)
      (world : World) :
  keeps w (_on_voice_result w result world).
Proof.
  unfold _on_voice_result.
  destruct result as [|c result]; [unfold keeps; cbn; tauto|].
  destruct ((0 <=? current_tab_index w)
            && (current_tab_index w <? Z.of_nat (length (terminals w))));
    [|unfold keeps; cbn; tauto].
  destruct (nth_error (terminals w) (Z.to_nat (current_tab_index w)))
    as [session|] eqn:Hs; [|unfold keeps; cbn; tauto].
  destruct (Translator.translate _ _ _ _) as [[tr translated] statuses].
  match goal with
  | |- context [fold_left _on_voice_status statuses ?w0] =>
      pose proof (fold_status_keeps statuses w0) as (K & T & _);
        destruct (fold_left _on_voice_status statuses w0) as
          [counter buttons sessions current sb v tr' th cl fc]
  end.
  unfold keeps in *. cbn in *.
  destruct K as (K1 & K2 & K3 & K4 & K5 & K6 & K7 & K8). subst sessions.
  repeat split; try assumption.
  apply (replaced_length _ _ _ _ Hs).
Qed.

Lemma callback_keeps (world : World) (w : ClaudeWindow sample)
      (effect : Voice.Effect sample) :
  keeps w (callback world w effect).
Proof.
  destruct effect; cbn [callback].
  - apply set_status_keeps.
  - apply on_voice_result_keeps.
  - apply keeps_refl.
Qed.

Lemma callbacks_keep (world : World) (effects : list (Voice.Effect sample))
      (w : ClaudeWindow sample) :
  keeps w (fold_left (callback world) effects w).
Proof.
  revert w. induction effects as [|e effects IH]; intros w.
  - apply keeps_refl.
  - cbn [fold_left]. eapply keeps_trans; [apply callback_keeps|apply IH].
Qed.

(** What [_toggle_voice_recording] leaves: everything [keeps] names but
    the recognizer, which is the one [toggle_recording] leaves, and the
    indicator, which shows the value it returned. *)
Lemma toggle_voice_facts (w : ClaudeWindow sample) (world : World) :
  let out := Voice.toggle_recording (voice_recognizer w) (stream_start world)
               (stream_stop world) (voice_load world) (transcribe world) in
  let w' := _toggle_voice_recording w world in
  tab_buttons w' = tab_buttons w
  /\ length (terminals w') = length (terminals w)
  /\ current_tab_index w' = current_tab_index w
  /\ session_counter w' = session_counter w
  /\ theme w' = theme w
  /\ Widgets.theme_btn (status_bar w') = Widgets.theme_btn (status_bar w)
  /\ voice_recognizer w' = fst (fst out)
  /\ Widgets.is_recording (status_bar w') = snd (fst out)
  /\ focus w' = focus w.
Proof.
  cbn zeta. unfold _toggle_voice_recording.
  destruct (Voice.toggle_recording _ _ _ _ _) as [[v is_rec] effects].
  match goal with
  | |- context [fold_left (callback world) effects ?w0] =>
      pose proof (callbacks_keep world effects w0) as K;
        destruct (fold_left (callback world) effects w0) as
          [counter buttons sessions current sb v' tr' th cl fc]
  end.
  unfold keeps in K. cbn in *. tauto.
Qed.

(** What [audio_heard] leaves: everything [keeps] names but the
    recognizer, which is the one [_audio_callback] leaves, and the
    status bar's recording flag. *)
Lemma audio_heard_facts (w : ClaudeWindow sample) (indata : list sample)
      (status : option pystr) (world : World) :
  let w' := audio_heard w indata status world in
  tab_buttons w' = tab_buttons w
  /\ length (terminals w') = length (terminals w)
  /\ current_tab_index w' = current_tab_index w
  /\ session_counter w' = session_counter w
  /\ theme w' = theme w
  /\ Widgets.theme_btn (status_bar w') = Widgets.theme_btn (status_bar w)
  /\ voice_recognizer w'
     = fst (Voice._audio_callback (voice_recognizer w) indata status)
  /\ Widgets.is_recording (status_bar w') = Widgets.is_recording (status_bar w)
  /\ focus w' = focus w.
Proof.
  cbn zeta. unfold audio_heard, Voice._audio_callback.
  set (v := if Voice.is_recording (voice_recognizer w) then _ else _).
  destruct status as [text|]; cbn [fst];
    [|cbn; tauto].
  unfold Voice._update_status.
  destruct (Voice._on_status (voice_recognizer w)); cbn; tauto.
Qed.

Lemma with_focus_consistent (w : ClaudeWindow sample) (holder : option nat) :
  consistent w -> consistent (with_focus w holder).
Proof. intros H. exact H. Qed.

Lemma closeEvent_keeps (w : ClaudeWindow sample) : keeps w (closeEvent w).
Proof. unfold keeps. cbn. rewrite length_map. tauto. Qed.

Lemma enter_timer_keeps (w : ClaudeWindow sample) (position : nat) :
  keeps w (enter_timer_fires w position)
  /\ status_bar (enter_timer_fires w position) = status_bar w.
Proof.
  unfold enter_timer_fires.
  destruct (nth_error (terminals w) position) as [[t [|pending]]|] eqn:Hs;
    try (split; [apply keeps_refl|reflexivity]).
  unfold keeps. cbn. rewrite (replaced_length _ _ _ _ Hs). tauto.
Qed.

Lemma forward_keeps (w : ClaudeWindow sample) (key modifiers : Z)
      (event_text : pystr) (world : World) :
  let current := current_tab_index w in
  let forward :=
    if (0 <=? current) && (current <? Z.of_nat (length (terminals w))) then
      match nth_error (terminals w) (Z.to_nat current) with
      | Some session =>
          Some (with_tabs w (session_counter w) (tab_buttons w)
                  (firstn (Z.to_nat current) (terminals w)
                   ++ mkSession
                        (Terminal.keyPressEvent (terminal session)
                           (desktop world) key modifiers event_text)
                        (enter_timers session)
                   :: skipn (S (Z.to_nat current)) (terminals w))
                  (current_tab_index w))
      | None => Some w
      end
    else Some w in
  exists w', forward = Some w' /\ keeps w w' /\ status_bar w' = status_bar w.
Proof.
  cbn zeta.
  destruct ((0 <=? current_tab_index w)
            && (current_tab_index w <? Z.of_nat (length (terminals w))));
    [|exists w; split; [reflexivity|split; [apply keeps_refl|reflexivity]]].
  destruct (nth_error (terminals w) (Z.to_nat (current_tab_index w)))
    as [session|] eqn:Hs;
    [|exists w; split; [reflexivity|split; [apply keeps_refl|reflexivity]]].
  eexists. split; [reflexivity|]. split; [|reflexivity].
  unfold keeps. cbn. rewrite (replaced_length _ _ _ _ Hs). tauto.
Qed.

Lemma create_session_facts (w : ClaudeWindow sample) (start : StartOutcome) :
  wired w ->
  let w' := create_session w start in
  consistent w'
  /\ terminals w' = terminals w ++ [mkSession (init start) 0]
  /\ map text (tab_buttons w')
     = map text (tab_buttons w) ++ [session_name (session_counter w + 1)]
  /\ session_counter w' = session_counter w + 1
  /\ current_tab_index w' = Z.of_nat (length (terminals w))
  /\ voice_recognizer w' = voice_recognizer w
  /\ theme w' = theme w
  /\ Widgets.theme_btn (status_bar w') = Widgets.theme_btn (status_bar w)
  /\ Widgets.is_recording (status_bar w') = Widgets.is_recording (status_bar w)
  /\ focus w' = Some (length (terminals w)).
Proof.
  intros [Hlen Hidx]. cbn zeta. unfold create_session.
  match goal with
  | |- context [switch_tab ?w1 ?i] =>
      assert (Hw1 : wired w1);
        [|assert (Hi : 0 <= i < Z.of_nat (length (terminals w1)));
          [|pose proof (switch_tab_consistent w1 i Hw1 Hi)
             as (C & Cur & T & Tx & Cn & Sb & V & Th & _)]]
  end.
  - split; cbn [with_tabs tab_buttons terminals].
    + rewrite !length_app. cbn. lia.
    + intros i btn H.
      destruct (Nat.lt_ge_cases i (length (tab_buttons w))) as [Hlt|Hge].
      * rewrite nth_error_app1 in H by exact Hlt. apply (Hidx i btn H).
      * rewrite nth_error_app2 in H by exact Hge.
        destruct (i - length (tab_buttons w))%nat as [|k] eqn:Hk.
        -- cbn in H. injection H as <-. cbn. lia.
        -- destruct k; discriminate.
  - cbn [with_tabs terminals]. rewrite length_app. cbn. lia.
  - split; [apply with_focus_consistent;
            eapply keeps_consistent; [apply set_status_keeps|exact C]|].
    cbn [with_focus set_status with_status_bar terminals tab_buttons
         session_counter current_tab_index voice_recognizer theme status_bar
         focus Widgets.set_status Widgets.theme_btn Widgets.is_recording].
    rewrite T, Tx, Cn, Cur, V, Th, Sb. cbn. rewrite map_app. cbn.
    rewrite Hlen. tauto.
Qed.

Lemma close_session_facts (w : ClaudeWindow sample) (index : option Z) :
  consistent w ->
  let i := match index with
           | Some i => i
           | None => current_tab_index w
           end in
  if (1 <? Z.of_nat (length (terminals w)))
     && (0 <=? i) && (i <? Z.of_nat (length (terminals w)))
  then
    exists w' gone before after button left right,
      close_session w index = Some w'
      /\ terminals w = before ++ gone :: after
      /\ tab_buttons w = left ++ button :: right
      /\ length before = Z.to_nat i /\ length left = Z.to_nat i
      /\ consistent w'
      /\ terminals w' = before ++ after
      /\ map text (tab_buttons w') = map text (left ++ right)
      /\ current_tab_index w' = Z.min i (Z.of_nat (length (terminals w)) - 2)
      /\ session_counter w' = session_counter w
      /\ voice_recognizer w' = voice_recognizer w
      /\ theme w' = theme w
      /\ Widgets.theme_btn (status_bar w') = Widgets.theme_btn (status_bar w)
      /\ Widgets.is_recording (status_bar w')
         = Widgets.is_recording (status_bar w)
      /\ focus w' = Some (Z.to_nat (current_tab_index w'))
  else close_session w index = Some w.
Proof.
  intros (Hlen & Hone & Hcur & Hnth). cbn zeta. unfold close_session.
  set (i := match index with
            | Some i => i
            | None => current_tab_index w
            end).
  destruct ((1 <? Z.of_nat (length (terminals w)))
            && (0 <=? i) && (i <? Z.of_nat (length (terminals w)))) eqn:Hguard;
    [|reflexivity].
  apply andb_true_iff in Hguard. destruct Hguard as [Hguard H3].
  apply andb_true_iff in Hguard. destruct Hguard as [H1 H2].
  assert (Hrange : 0 <= i < Z.of_nat (length (terminals w))) by lia.
  assert (Hmany : 1 < Z.of_nat (length (terminals w))) by lia.
  destruct (pop_some (terminals w) i Hrange)
    as (gone & before & after & -> & Eterm & Hbefore).
  assert (Hrange' : 0 <= i < Z.of_nat (length (tab_buttons w)))
    by (rewrite Hlen; exact Hrange).
  destruct (pop_some (tab_buttons w) i Hrange')
    as (button & left & right & -> & Etabs & Hleft).
  assert (Hrest : length (before ++ after) = (length (terminals w) - 1)%nat).
  { rewrite Eterm, !length_app. cbn. lia. }
  assert (Hrest' : length (left ++ right) = length (before ++ after)).
  { rewrite Hrest, <- Hlen, Etabs, !length_app. cbn. lia. }
  match goal with
  | |- context [switch_tab ?w1 ?n] =>
      assert (Hw1 : wired w1);
        [|assert (Hn : 0 <= n < Z.of_nat (length (terminals w1)));
          [|pose proof (switch_tab_consistent w1 n Hw1 Hn)
             as (C & Cur & T & Tx & Cn & Sb & V & Th & Fc)]]
  end.
  - split; cbn [with_focus with_tabs tab_buttons terminals].
    + rewrite enumerate_map_length. exact Hrest'.
    + intros k btn H. rewrite enumerate_map_nth in H.
      destruct (nth_error (left ++ right) k); [|discriminate].
      cbn in H. injection H as <-. reflexivity.
  - cbn [with_focus with_tabs terminals]. rewrite Hrest. lia.
  - eexists _, gone, before, after, button, left, right.
    split; [reflexivity|].
    split; [exact Eterm|]. split; [exact Etabs|].
    split; [exact Hbefore|]. split; [exact Hleft|].
    split; [eapply keeps_consistent; [apply set_status_keeps|exact C]|].
    cbn [set_status with_status_bar terminals tab_buttons session_counter
         current_tab_index voice_recognizer theme status_bar focus
         Widgets.set_status Widgets.theme_btn Widgets.is_recording].
    rewrite T, Tx, Cn, Cur, V, Th, Sb, Fc. cbn.
    rewrite (enumerate_map_text (fun i b => connect_clicked b i) 0
               (left ++ right) (fun _ _ => eq_refl)).
    rewrite Hrest.
    replace (Z.of_nat (length (terminals w) - 1) - 1)
      with (Z.of_nat (length (terminals w)) - 2) by lia.
    tauto.
Qed.

Lemma tab_clicked_facts (w : ClaudeWindow sample) (position : nat) :
  consistent w ->
  let w' := tab_clicked w position in
  consistent w'
  /\ terminals w' = terminals w
  /\ map text (tab_buttons w') = map text (tab_buttons w)
  /\ session_counter w' = session_counter w
  /\ voice_recognizer w' = voice_recognizer w
  /\ theme w' = theme w
  /\ status_bar w' = status_bar w
  /\ current_tab_index w'
     = (if (position <? length (tab_buttons w))%nat
        then Z.of_nat position else current_tab_index w)
  /\ (focus_current w -> focus_current w').
Proof.
  intros Hc. pose proof Hc as (Hlen & Hone & Hcur & Hnth).
  cbn zeta. unfold tab_clicked.
  destruct (nth_error (tab_buttons w) position) as [btn|] eqn:Hb.
  2:{ apply nth_error_None in Hb.
      replace (position <? length (tab_buttons w))%nat with false
        by (symmetry; apply Nat.ltb_ge; exact Hb).
      tauto. }
  assert (Hpos : (position < length (tab_buttons w))%nat)
    by (apply nth_error_Some; congruence).
  replace (position <? length (tab_buttons w))%nat with true
    by (symmetry; apply Nat.ltb_lt; exact Hpos).
  destruct (Hnth position btn Hb) as (Hidx & _ & _).
  match goal with
  | |- context [switch_tab ?w1 ?n] =>
      assert (Hw1 : wired w1);
        [|assert (Hn : 0 <= n < Z.of_nat (length (terminals w1)));
          [|pose proof (switch_tab_consistent w1 n Hw1 Hn)
             as (C & Cur & T & Tx & Cn & Sb & V & Th & Fc)]]
  end.
  - split; cbn [with_tabs tab_buttons terminals].
    + rewrite (replaced_length _ _ _ _ Hb). exact Hlen.
    + intros k b H.
      destruct (replaced_split _ _ _ (setChecked btn (negb (checked btn))) Hb)
        as (l1 & l2 & E & Hl1 & Erep).
      rewrite Erep in H.
      destruct (Nat.lt_ge_cases k (length l1)) as [Hlt|Hge].
      * rewrite nth_error_app1 in H by exact Hlt.
        apply (Hnth k b). rewrite E. rewrite nth_error_app1 by exact Hlt.
        exact H.
      * rewrite nth_error_app2 in H by exact Hge.
        destruct (k - length l1)%nat as [|j] eqn:Hj.
        -- cbn in H. injection H as <-. cbn. rewrite Hidx. lia.
        -- cbn in H. apply (Hnth k b). rewrite E.
           rewrite nth_error_app2 by exact Hge. rewrite Hj. exact H.
  - cbn [with_tabs terminals]. rewrite Hidx. lia.
  - split; [exact C|].
    rewrite T, Tx, Cn, Cur, V, Th, Sb.
    cbn [with_tabs terminals tab_buttons session_counter current_tab_index
         voice_recognizer theme status_bar].
    split; [reflexivity|]. split.
    + destruct (replaced_split _ _ _ (setChecked btn (negb (checked btn))) Hb)
        as (l1 & l2 & E & Hl1 & Erep).
      rewrite Erep. rewrite E. rewrite !map_app. reflexivity.
    + rewrite Hidx in *. repeat (split; [reflexivity|]).
      intros _. right. unfold focus_current. rewrite Fc, Cur. reflexivity.
Qed.

Lemma toggle_theme_facts (w : ClaudeWindow sample) :
  consistent w ->
  let w' := _toggle_theme w in
  consistent w'
  /\ terminals w' = terminals w
  /\ map text (tab_buttons w') = map text (tab_buttons w)
  /\ session_counter w' = session_counter w
  /\ current_tab_index w' = current_tab_index w
  /\ voice_recognizer w' = voice_recognizer w
  /\ Widgets.is_recording (status_bar w') = Widgets.is_recording (status_bar w)
  /\ icon_current w'
  /\ focus w' = focus w.
Proof.
  intros (Hlen & Hone & Hcur & Hnth). cbn zeta.
  unfold _toggle_theme, Theme.toggle_theme, icon_current.
  cbn [_apply_theme set_status with_status_bar with_tabs terminals tab_buttons
       session_counter current_tab_index voice_recognizer theme status_bar
       focus Widgets.set_status Widgets.update_theme_icon Widgets.theme_btn
       Widgets.is_recording Theme.get_theme Theme.set_theme
       Theme._current_theme].
  split; [|repeat split; apply enumerate_map_text; reflexivity].
  unfold consistent, set_status, _apply_theme.
  cbn [with_status_bar with_tabs terminals tab_buttons current_tab_index].
  rewrite enumerate_map_length.
  split; [exact Hlen|]. split; [exact Hone|]. split; [exact Hcur|].
  intros i btn H. rewrite enumerate_map_nth in H.
  destruct (nth_error (tab_buttons w) i) as [b|] eqn:Hb; [|discriminate].
  cbn [option_map] in H. injection H as <-. cbn.
  destruct (Hnth i b Hb) as (H1 & H2 & H3). auto.
Qed.

Lemma numbered_same (w w' : ClaudeWindow sample) (numbers : list Z) :
  map text (tab_buttons w') = map text (tab_buttons w) ->
  session_counter w' = session_counter w ->
  numbered w numbers -> numbered w' numbers.
Proof. unfold numbered. intros -> ->. auto. Qed.

Lemma removed_Forall {A} (P : A -> Prop) (l : list A) (k : nat) :
  Forall P l -> Forall P (firstn k l ++ skipn (S k) l).
Proof.
  intros H. apply Forall_app. split.
  - apply Forall_forall. intros x Hx. rewrite Forall_forall in H.
    apply H. eapply In_nth_error in Hx. destruct Hx as [n Hn].
    rewrite <- (firstn_skipn k l). apply in_or_app. left.
    eapply nth_error_In. exact Hn.
  - apply Forall_forall. intros x Hx. rewrite Forall_forall in H.
    apply H. rewrite <- (firstn_skipn (S k) l). apply in_or_app. right.
    exact Hx.
Qed.

Lemma removed_sorted (l : list Z) (k : nat) :
  Sorted.StronglySorted Z.lt l ->
  Sorted.StronglySorted Z.lt (firstn k l ++ skipn (S k) l).
Proof.
  revert k. induction l as [|a l IH]; intros k H.
  - destruct k; cbn; constructor.
  - inversion H as [|? ? Hs Hall]; subst. destruct k as [|k].
    + cbn. exact Hs.
    + cbn [firstn skipn app]. constructor.
      * apply IH. exact Hs.
      * apply removed_Forall. exact Hall.
Qed.

Lemma appended_sorted (l : list Z) (x : Z) :
  Sorted.StronglySorted Z.lt l -> Forall (fun n => n < x) l ->
  Sorted.StronglySorted Z.lt (l ++ [x]).
Proof.
  induction l as [|a l IH]; intros Hs Hall.
  - cbn. constructor; constructor.
  - inversion Hs as [|? ? Hs' Ha]; subst.
    inversion Hall as [|? ? Hax Hall']; subst.
    cbn. constructor.
    + apply IH; assumption.
    + apply Forall_app. split; [exact Ha|]. constructor; [exact Hax|constructor].
Qed.

Lemma numbered_counter (w : ClaudeWindow sample) (numbers : list Z) :
  consistent w -> numbered w numbers -> 1 <= session_counter w.
Proof.
  intros (Hlen & Hone & _) (Htext & _ & Hall).
  destruct numbers as [|n numbers].
  - apply (f_equal (@length _)) in Htext. rewrite length_map in Htext.
    cbn in Htext. lia.
  - inversion Hall; subst. lia.
Qed.

Lemma create_session_numbered (w : ClaudeWindow sample) (start : StartOutcome)
      (numbers : list Z) :
  wired w -> 0 <= session_counter w -> numbered w numbers ->
  numbered (create_session w start) (numbers ++ [session_counter w + 1]).
Proof.
  intros Hw Hcounter (Htext & Hsorted & Hall).
  pose proof (create_session_facts w start Hw) as (_ & _ & Tx & Cn & _).
  cbn zeta in *. unfold numbered. rewrite Tx, Cn, Htext, map_app.
  split; [reflexivity|]. split.
  - apply appended_sorted; [exact Hsorted|].
    eapply Forall_impl; [|exact Hall]. cbn. intros; lia.
  - apply Forall_app. split.
    + eapply Forall_impl; [|exact Hall]. cbn. intros; lia.
    + constructor; [lia|constructor].
Qed.

Lemma close_session_numbered (w w' : ClaudeWindow sample) (numbers : list Z)
      (left right : list TabButton) (button : TabButton) :
  tab_buttons w = left ++ button :: right ->
  map text (tab_buttons w') = map text (left ++ right) ->
  session_counter w' = session_counter w ->
  numbered w numbers ->
  numbered w' (firstn (length left) numbers ++ skipn (S (length left)) numbers).
Proof.
  intros Etabs Tx Cn (Htext & Hsorted & Hall). unfold numbered.
  rewrite Tx, Cn. split; [|split].
  - transitivity (firstn (length left) (map text (tab_buttons w))
                  ++ skipn (S (length left)) (map text (tab_buttons w))).
    + rewrite Etabs, !map_app. cbn [map].
      rewrite firstn_app, length_map, Nat.sub_diag. cbn [firstn].
      rewrite app_nil_r.
      rewrite <- (length_map text left) at 1. rewrite firstn_all.
      replace (S (length left)) with (length (map text left ++ [text button]))
        by (rewrite length_app, length_map; cbn; lia).
      replace (map text left ++ text button :: map text right)
        with ((map text left ++ [text button]) ++ map text right)
        by (rewrite <- app_assoc; reflexivity).
      rewrite skipn_app, Nat.sub_diag, skipn_all. reflexivity.
    + rewrite Htext, firstn_map, skipn_map, map_app. reflexivity.
  - apply removed_sorted. exact Hsorted.
  - apply removed_Forall. exact Hall.
Qed.

Lemma sound_frame (w w' : ClaudeWindow sample) :
  tab_buttons w' = tab_buttons w ->
  length (terminals w') = length (terminals w) ->
  current_tab_index w' = current_tab_index w ->
  session_counter w' = session_counter w ->
  theme w' = theme w ->
  Widgets.theme_btn (status_bar w') = Widgets.theme_btn (status_bar w) ->
  focus w' = focus w ->
  sound w -> sound w'.
Proof.
  unfold sound, consistent, numbered, icon_current, focus_current.
  intros -> -> -> -> -> -> ->. auto.
Qed.

Lemma keeps_sound (w w' : ClaudeWindow sample) :
  keeps w w' -> sound w -> sound w'.
Proof.
  intros (K1 & K2 & K3 & K4 & _ & K6 & K7 & K8). apply sound_frame; assumption.
Qed.

Lemma create_session_sound (w : ClaudeWindow sample) (start : StartOutcome) :
  sound w -> sound (create_session w start).
Proof.
  intros (Hc & [numbers Hn] & Hi & _).
  pose proof (create_session_facts w start (consistent_wired w Hc))
    as (C & _ & _ & _ & Cur & _ & Th & Tb & _ & Fc).
  cbn zeta in *. split; [exact C|]. split; [|split].
  - eexists. apply create_session_numbered;
      [apply consistent_wired; exact Hc| |exact Hn].
    pose proof (numbered_counter w numbers Hc Hn). lia.
  - unfold icon_current in *. rewrite Th, Tb. exact Hi.
  - right. rewrite Fc, Cur, Nat2Z.id. reflexivity.
Qed.

Lemma close_session_sound (w : ClaudeWindow sample) (index : option Z) :
  sound w -> exists w', close_session w index = Some w' /\ sound w'.
Proof.
  intros Hs. pose proof Hs as (Hc & [numbers Hn] & Hi & Hf).
  pose proof (close_session_facts w index Hc) as F. cbn zeta in F.
  destruct (_ && _ && _) in F.
  - destruct F as (w' & gone & before & after & button & left & right
                   & E & _ & Etabs & _ & _ & C & _ & Tx & _ & Cn & _
                   & Th & Tb & _ & Fc).
    exists w'. split; [exact E|]. split; [exact C|]. split; [|split].
    + eexists. eapply close_session_numbered; eauto.
    + unfold icon_current in *. rewrite Th, Tb. exact Hi.
    + right. exact Fc.
  - exists w. split; [exact F|exact Hs].
Qed.

Lemma toggle_voice_sound (w : ClaudeWindow sample) (world : World) :
  sound w -> sound (_toggle_voice_recording w world).
Proof.
  pose proof (toggle_voice_facts w world)
    as (T1 & T2 & T3 & T4 & T5 & T6 & _ & _ & T9).
  cbn zeta in *. apply sound_frame; assumption.
Qed.

Lemma audio_heard_sound (w : ClaudeWindow sample) (indata : list sample)
      (status : option pystr) (world : World) :
  sound w -> sound (audio_heard w indata status world).
Proof.
  pose proof (audio_heard_facts w indata status world)
    as (T1 & T2 & T3 & T4 & T5 & T6 & _ & _ & T9).
  cbn zeta in *. apply sound_frame; assumption.
Qed.

Lemma keyPressEvent_sound (w : ClaudeWindow sample) (key modifiers : Z)
      (event_text : pystr) (world : World) :
  sound w ->
  exists w', keyPressEvent w key modifiers event_text world = Some w' /\ sound w'.
Proof.
  intros Hs. unfold keyPressEvent.
  destruct (forward_keeps w key modifiers event_text world)
    as (wf & Ef & Kf & _).
  cbn zeta in Ef. rewrite Ef.
  assert (Hfwd : sound wf) by (eapply keeps_sound; eauto).
  destruct (modifiers =? Qt.ControlModifier).
  { destruct (key =? Key_T);
      [eexists; split; [reflexivity|apply create_session_sound; exact Hs]|].
    destruct (key =? Key_W); [apply close_session_sound; exact Hs|].
    exists wf. auto. }
  destruct (modifiers =? Qt.AltModifier).
  { destruct (key =? Key_T);
      [eexists; split; [reflexivity|apply toggle_voice_sound; exact Hs]|].
    exists wf. auto. }
  destruct (modifiers =? Z.lor Qt.ControlModifier Qt.ShiftModifier).
  { destruct (key =? Key_Q).
    - eexists. split; [reflexivity|].
      eapply keeps_sound; [apply closeEvent_keeps|exact Hs].
    - exists wf. auto. }
  exists wf. auto.
Qed.

(** A key taken by the terminal that holds the focus changes that
    terminal alone. *)
Lemma terminal_key_keeps (w : ClaudeWindow sample) (position : nat)
      (session : Session) (t : TerminalWidget) :
  nth_error (terminals w) position = Some session ->
  keeps w (with_tabs w (session_counter w) (tab_buttons w)
             (firstn position (terminals w)
              ++ mkSession t (enter_timers session)
              :: skipn (S position) (terminals w))
             (current_tab_index w)).
Proof.
  intros Hs. unfold keeps. cbn. rewrite (replaced_length _ _ _ _ Hs). tauto.
Qed.

(** Every event keeps the window sound: it is handled without an
    exception, the tabs stay consistent and numbered, the theme button
    shows the theme, and the focus is on no terminal but the current
    one. *)
Lemma handle_sound (w : ClaudeWindow sample) (e : Event sample) (world : World) :
  sound w -> exists w', handle w e world = Some w' /\ sound w'.
Proof.
  intros Hs.
  destruct e as [|position| | |key modifiers event_text| | | |indata status
                 |position];
    cbn [handle].
  - eexists. split; [reflexivity|]. apply create_session_sound. exact Hs.
  - eexists. split; [reflexivity|].
    destruct Hs as (Hc & [numbers Hn] & Hi & Hf).
    pose proof (tab_clicked_facts w position Hc)
      as (C & _ & Tx & Cn & _ & Th & Sb & _ & Fc).
    cbn zeta in *. split; [exact C|]. split; [|split].
    + exists numbers. eapply numbered_same; eauto.
    + unfold icon_current in *. rewrite Th, Sb. exact Hi.
    + exact (Fc Hf).
  - eexists. split; [reflexivity|]. unfold terminal_clicked.
    destruct (_ && _); [|exact Hs].
    destruct Hs as (Hc & Hn & Hi & _).
    split; [exact Hc|]. split; [exact Hn|]. split; [exact Hi|].
    right. reflexivity.
  - eexists. split; [reflexivity|].
    destruct Hs as (Hc & Hn & Hi & _).
    split; [exact Hc|]. split; [exact Hn|]. split; [exact Hi|].
    left. reflexivity.
  - unfold key_pressed.
    destruct (focus w) as [position|];
      [|apply keyPressEvent_sound; exact Hs].
    destruct (nth_error (terminals w) position) as [session|] eqn:Hp;
      [|apply keyPressEvent_sound; exact Hs].
    eexists. split; [reflexivity|].
    eapply keeps_sound; [apply terminal_key_keeps; exact Hp|exact Hs].
  - eexists. split; [reflexivity|]. apply toggle_voice_sound. exact Hs.
  - eexists. split; [reflexivity|].
    destruct Hs as (Hc & [numbers Hn] & Hi & Hf).
    pose proof (toggle_theme_facts w Hc)
      as (C & _ & Tx & Cn & Cur & _ & _ & I & Fc).
    cbn zeta in *. split; [exact C|]. split; [|split; [exact I|]].
    + exists numbers. eapply numbered_same; eauto.
    + unfold focus_current in *. rewrite Fc, Cur. exact Hf.
  - eexists. split; [reflexivity|].
    eapply keeps_sound; [apply closeEvent_keeps|exact Hs].
  - eexists. split; [reflexivity|]. apply audio_heard_sound. exact Hs.
  - eexists. split; [reflexivity|].
    eapply keeps_sound; [apply enter_timer_keeps|exact Hs].
Qed.

Lemma new_sound (start : StartOutcome) :
  sound (@Window.new sample start)
  /\ numbered (@Window.new sample start) [1]
  /\ indicator_current (@Window.new sample start)
  /\ focus (@Window.new sample start) = Some O.
Proof.
  unfold Window.new.
  match goal with
  | |- context [create_session ?w0 start] =>
      assert (Hw : wired w0) by (split; [reflexivity|intros [|i] btn H; discriminate]);
        pose proof (create_session_facts w0 start Hw)
          as (C & _ & Tx & Cn & Cur & V & Th & Tb & R & Fc);
        pose proof (create_session_numbered w0 start [] Hw) as N
  end.
  cbn zeta in *.
  assert (Hn : numbered
                 (create_session
                    (mkWindow 0 [] [] (-1)
                       (Widgets.new_status_bar (Theme.get_theme Theme.loaded))
                       (Voice.set_callbacks (@Voice.new sample) true true)
                       (Translator.set_status_callback Translator.new)
                       Theme.loaded false None) start) [1]).
  { apply N; [cbn; lia|]. split; [reflexivity|]. split; constructor. }
  split; [|split; [exact Hn|split; [|exact Fc]]].
  - split; [exact C|]. split; [eexists; exact Hn|]. split.
    + unfold icon_current. rewrite Th, Tb. reflexivity.
    + right. rewrite Fc, Cur. reflexivity.
  - unfold indicator_current. rewrite V, R. reflexivity.
Qed.

Lemma run_sound (events : list (Event sample * World)) (w : ClaudeWindow sample) :
  sound w -> exists w', run w events = Some w' /\ sound w'.
Proof.
  revert w. induction events as [|[e world] events IH]; intros w Hs.
  - exists w. cbn. auto.
  - cbn [run]. destruct (handle_sound w e world Hs) as (w1 & -> & Hs1).
    apply IH. exact Hs1.
Qed.

Lemma str_inj (a b : string) : str a = str b -> a = b.
Proof.
  unfold str. intros H.
  assert (Hl : list_ascii_of_string a = list_ascii_of_string b).
  { revert H. generalize (list_ascii_of_string a) (list_ascii_of_string b).
    induction l as [|x l IH]; intros [|y l'] H; try discriminate; [reflexivity|].
    cbn in H. injection H as Hxy Hrest. f_equal; [|apply IH; exact Hrest].
    rewrite <- (ascii_N_embedding x), <- (ascii_N_embedding y), Hxy.
    reflexivity. }
  rewrite <- (string_of_list_ascii_of_string a),
          <- (string_of_list_ascii_of_string b), Hl.
  reflexivity.
Qed.

Lemma session_name_inj (a b : Z) : session_name a = session_name b -> a = b.
Proof.
  unfold session_name, decimal. intros H.
  apply app_inv_head, str_inj in H.
  apply DecimalZ.to_int_inj.
  pose proof (DecimalString.NilEmpty.isi (Z.to_int a)) as Ha.
  pose proof (DecimalString.NilEmpty.isi (Z.to_int b)) as Hb.
  rewrite H in Ha. congruence.
Qed.

Lemma sorted_names_NoDup (numbers : list Z) :
  Sorted.StronglySorted Z.lt numbers -> NoDup (map session_name numbers).
Proof.
  induction 1 as [|n numbers Hs IH Hall]; cbn; constructor; [|exact IH].
  intros Hin. apply in_map_iff in Hin. destruct Hin as (m & Hm & Hin).
  apply session_name_inj in Hm. subst m.
  rewrite Forall_forall in Hall. specialize (Hall n Hin). lia.
Qed.

(** X11.  Whatever reaches the window (clicks, key presses, audio,
    voice, theme, timers, the focus moving), in any order and whatever
    the outside world answers, no handler raises, and the tab bar stays
    in step with the terminals: as many buttons as terminals and at
    least one, a valid current index, each button switching to its own
    position, exactly the current one checked and styled; the theme
    button shows the current theme; and when a terminal holds the
    focus it is the current one. *)
Theorem window_tabs_stay_consistent
        (start : StartOutcome) (events : list (Event sample * World)) :
  exists w,
    run (@Window.new sample start) events = Some w
    /\ consistent w /\ icon_current w /\ focus_current w.
Proof.
  destruct (new_sound start) as (S & _).
  destruct (run_sound events _ S) as (w & E & C' & _ & I' & F').
  exists w. auto.
Qed.

(** X12.  The tabs always read [Claude n] for strictly increasing
    session numbers between 1 and the session counter, so no two open
    tabs ever carry the same label, also after sessions were closed. *)
Theorem tab_labels_never_repeat
        (start : StartOutcome) (events : list (Event sample * World)) :
  exists w numbers,
    run (@Window.new sample start) events = Some w
    /\ map text (tab_buttons w) = map session_name numbers
    /\ Sorted.StronglySorted Z.lt numbers
    /\ Forall (fun n => 1 <= n <= session_counter w) numbers
    /\ NoDup (map text (tab_buttons w)).
Proof.
  destruct (new_sound start) as (S & _).
  destruct (run_sound events _ S)
    as (w & E & _ & [numbers (Ht & Hs & Hall)] & _).
  exists w, numbers. repeat split; try assumption.
  rewrite Ht. apply sorted_names_NoDup. exact Hs.
Qed.

Lemma stop_recording_idle (v : Voice.t sample) (stop : Voice.StopOutcome)
      (load : Voice.LoadOutcome) (tr : Voice.TranscribeOutcome) :
  Voice.is_recording (fst (fst (Voice.stop_recording v stop load tr))) = false.
Proof.
  unfold Voice.stop_recording.
  destruct (Voice.is_recording v) eqn:Hrec; cbn [negb]; [|exact Hrec].
  cbn [Voice.recorded_audio].
  destruct (Voice.recorded_audio v) as [|b bs]; [reflexivity|].
  match goal with
  | |- context [Voice._transcribe ?v1 ?a load tr] =>
      pose proof (transcribe_effects sample v1 a load tr) as (_ & _ & Hi & _);
        destruct (Voice._transcribe v1 a load tr) as [[v2 transcription] effects]
  end.
  exact Hi.
Qed.

(** The docstring of [toggle_recording] promises the new recording
    state; the value returned is that state exactly when the stream
    could be started. *)
Lemma toggle_recording_state (v : Voice.t sample) (start : Voice.StartOutcome)
      (stop : Voice.StopOutcome) (load : Voice.LoadOutcome)
      (tr : Voice.TranscribeOutcome) :
  let out := Voice.toggle_recording v start stop load tr in
  snd (fst out) = negb (Voice.is_recording v)
  /\ Voice.is_recording (fst (fst out))
     = snd (fst out) && match start with
                        | Voice.StreamStarted => true
                        | Voice.StartRaises _ => false
                        end.
Proof.
  cbn zeta. unfold Voice.toggle_recording.
  destruct (Voice.is_recording v) eqn:Hrec.
  - pose proof (stop_recording_idle v stop load tr) as Hidle.
    destruct (Voice.stop_recording v stop load tr) as [[v1 r] effects].
    cbn in *. auto.
  - unfold Voice.start_recording. rewrite Hrec. destruct start; cbn; auto.
Qed.

Lemma keyPressEvent_indicator (w w' : ClaudeWindow sample) (key modifiers : Z)
      (event_text : pystr) (world : World) :
  consistent w -> indicator_current w ->
  stream_start world = Voice.StreamStarted ->
  keyPressEvent w key modifiers event_text world = Some w' ->
  indicator_current w'.
Proof.
  intros Hc Hi Hstart E.
  assert (Hsame : forall w1,
             voice_recognizer w1 = voice_recognizer w ->
             Widgets.is_recording (status_bar w1)
             = Widgets.is_recording (status_bar w) ->
             indicator_current w1).
  { intros w1 V R. unfold indicator_current in *. rewrite V, R. exact Hi. }
  unfold keyPressEvent in E.
  destruct (forward_keeps w key modifiers event_text world)
    as (wf & Ef & Kf & Sf).
  cbn zeta in Ef. rewrite Ef in E.
  assert (Hfwd : indicator_current wf).
  { destruct Kf as (_ & _ & _ & _ & V & _).
    apply Hsame; [exact V|rewrite Sf; reflexivity]. }
  destruct (modifiers =? Qt.ControlModifier).
  { destruct (key =? Key_T).
    - injection E as <-.
      pose proof (create_session_facts w (pty_start world)
                    (consistent_wired w Hc))
        as (_ & _ & _ & _ & _ & V & _ & _ & R & _).
      apply Hsame; assumption.
    - destruct (key =? Key_W); [|injection E as <-; exact Hfwd].
      pose proof (close_session_facts w None Hc) as F.
      cbn zeta in F. destruct (_ && _ && _) in F.
      + destruct F as (w2 & gone & before & after & button & left & right
                       & E2 & _ & _ & _ & _ & _ & _ & _ & _ & _ & V & _ & _
                       & R & _).
        rewrite E in E2. injection E2 as <-. apply Hsame; assumption.
      + rewrite E in F. injection F as ->. exact Hi. }
  destruct (modifiers =? Qt.AltModifier).
  { destruct (key =? Key_T); injection E as <-; [|exact Hfwd].
    pose proof (toggle_voice_facts w world)
      as (_ & _ & _ & _ & _ & _ & V & R & _).
    cbn zeta in *. unfold indicator_current. rewrite V, R.
    pose proof (toggle_recording_state (voice_recognizer w)
                  (stream_start world) (stream_stop world) (voice_load world)
                  (transcribe world)) as [_ H].
    cbn zeta in H. rewrite H, Hstart, andb_true_r. reflexivity. }
  destruct (modifiers =? Z.lor Qt.ControlModifier Qt.ShiftModifier).
  { destruct (key =? Key_Q); injection E as <-; [|exact Hfwd].
    apply Hsame; reflexivity. }
  injection E as <-. exact Hfwd.
Qed.

(** Every event keeps the microphone button in step with the
    recognizer, provided the input stream starts when a recording is
    begun. *)
Lemma handle_indicator (w w' : ClaudeWindow sample) (e : Event sample)
      (world : World) :
  consistent w -> indicator_current w ->
  stream_start world = Voice.StreamStarted ->
  handle w e world = Some w' ->
  indicator_current w'.
Proof.
  intros Hc Hi Hstart.
  assert (Hsame : forall w1,
             voice_recognizer w1 = voice_recognizer w ->
             Widgets.is_recording (status_bar w1)
             = Widgets.is_recording (status_bar w) ->
             indicator_current w1).
  { intros w1 V R. unfold indicator_current in *. rewrite V, R. exact Hi. }
  destruct e as [|position| | |key modifiers event_text| | | |indata status
                 |position];
    cbn [handle]; intros E.
  - injection E as <-.
    pose proof (create_session_facts w (pty_start world)
                  (consistent_wired w Hc))
      as (_ & _ & _ & _ & _ & V & _ & _ & R & _).
    apply Hsame; assumption.
  - injection E as <-.
    pose proof (tab_clicked_facts w position Hc)
      as (_ & _ & _ & _ & V & _ & Sb & _).
    cbn zeta in *. apply Hsame; [exact V|rewrite Sb; reflexivity].
  - injection E as <-. unfold terminal_clicked.
    destruct (_ && _); [apply Hsame; reflexivity|exact Hi].
  - injection E as <-. apply Hsame; reflexivity.
  - unfold key_pressed in E.
    destruct (focus w) as [position|];
      [|eapply keyPressEvent_indicator; eauto].
    destruct (nth_error (terminals w) position) as [session|];
      [|eapply keyPressEvent_indicator; eauto].
    injection E as <-. apply Hsame; reflexivity.
  - injection E as <-.
    pose proof (toggle_voice_facts w world)
      as (_ & _ & _ & _ & _ & _ & V & R & _).
    cbn zeta in *. unfold indicator_current. rewrite V, R.
    pose proof (toggle_recording_state (voice_recognizer w)
                  (stream_start world) (stream_stop world) (voice_load world)
                  (transcribe world)) as [_ H].
    cbn zeta in H. rewrite H, Hstart, andb_true_r. reflexivity.
  - injection E as <-.
    pose proof (toggle_theme_facts w Hc) as (_ & _ & _ & _ & _ & V & R & _).
    apply Hsame; assumption.
  - injection E as <-. apply Hsame; reflexivity.
  - injection E as <-.
    pose proof (audio_heard_facts w indata status world)
      as (_ & _ & _ & _ & _ & _ & V & R & _).
    cbn zeta in *. unfold indicator_current in *. rewrite V, R, Hi.
    unfold Voice._audio_callback. cbn [fst].
    destruct (Voice.is_recording (voice_recognizer w)) eqn:Hrec;
      [reflexivity|exact (eq_sym Hrec)].
  - injection E as <-.
    destruct (enter_timer_keeps w position) as [(_ & _ & _ & _ & V & _) Sb].
    apply Hsame; [exact V|rewrite Sb; reflexivity].
Qed.

Lemma run_indicator (events : list (Event sample * World))
      (w : ClaudeWindow sample) :
  sound w -> indicator_current w ->
  Forall (fun ew => stream_start (snd ew) = Voice.StreamStarted) events ->
  exists w', run w events = Some w' /\ sound w' /\ indicator_current w'.
Proof.
  revert w. induction events as [|[e world] events IH];
    intros w Hs Hr Hall.
  - exists w. cbn. auto.
  - cbn [run]. inversion Hall as [|? ? Hstart Hrest]; subst. cbn in Hstart.
    destruct (handle_sound w e world Hs) as (w1 & E & Hs1).
    rewrite E. apply (IH w1 Hs1); [|exact Hrest].
    apply (handle_indicator w w1 e world (proj1 Hs) Hr Hstart E).
Qed.

(** X13.  As long as the input stream can be started whenever a
    recording is begun, the microphone button shows exactly whether the
    recognizer is recording: after any events from the start of the
    program, audio heard and results delivered included, and after any
    one event from any consistent window in which it did.  When the
    stream cannot be started the two part: [toggle_recording] still
    returns [True], so the button shows a recording while the
    recognizer is idle. *)
Theorem mic_indicator_follows_recognizer
        (start : StartOutcome) (events : list (Event sample * World)) :
  (Forall (fun ew => stream_start (snd ew) = Voice.StreamStarted) events ->
   exists w,
     run (@Window.new sample start) events = Some w
     /\ Widgets.is_recording (status_bar w)
        = Voice.is_recording (voice_recognizer w))
  /\ (forall (w w' : ClaudeWindow sample) e world,
         consistent w ->
         Widgets.is_recording (status_bar w)
         = Voice.is_recording (voice_recognizer w) ->
         stream_start world = Voice.StreamStarted ->
         handle w e world = Some w' ->
         Widgets.is_recording (status_bar w')
         = Voice.is_recording (voice_recognizer w'))
  /\ (forall (w : ClaudeWindow sample) world e,
         Voice.is_recording (voice_recognizer w) = false ->
         stream_start world = Voice.StartRaises e ->
         Widgets.is_recording (status_bar (_toggle_voice_recording w world))
         = true
         /\ Voice.is_recording
              (voice_recognizer (_toggle_voice_recording w world))
            = false).
Proof.
  split; [|split].
  - intros Hall. destruct (new_sound start) as (S & _ & R & _).
    destruct (run_indicator events _ S R Hall) as (w & E & _ & H).
    exists w. split; [exact E|exact H].
  - intros w w' e world Hc Hi Hstart E.
    exact (handle_indicator w w' e world Hc Hi Hstart E).
  - intros w world e Hidle Hstart.
    pose proof (toggle_voice_facts w world)
      as (_ & _ & _ & _ & _ & _ & V & R & _).
    cbn zeta in *. rewrite V, R.
    pose proof (toggle_recording_state (voice_recognizer w)
                  (stream_start world) (stream_stop world) (voice_load world)
                  (transcribe world)) as [H1 H2].
    cbn zeta in *. rewrite H2, H1, Hidle, Hstart. auto.
Qed.

Lemma replaced_nth {A} (l : list A) (n : nat) (x y : A) :
  nth_error l n = Some x ->
  nth_error (firstn n l ++ y :: skipn (S n) l) n = Some y
  /\ forall j, j <> n ->
       nth_error (firstn n l ++ y :: skipn (S n) l) j = nth_error l j.
Proof.
  intros H. destruct (replaced_split l n x y H) as (l1 & l2 & -> & <- & ->).
  split.
  - rewrite nth_error_app2 by lia. rewrite Nat.sub_diag. reflexivity.
  - intros j Hj. destruct (Nat.lt_ge_cases j (length l1)) as [Hlt|Hge].
    + rewrite !nth_error_app1 by exact Hlt. reflexivity.
    + rewrite !nth_error_app2 by exact Hge.
      destruct (j - length l1)%nat as [|k] eqn:Hk; [lia|reflexivity].
Qed.

Lemma switch_tab_terminals (w : ClaudeWindow sample) (index : Z) :
  terminals (switch_tab w index) = terminals w.
Proof. unfold switch_tab. destruct (_ && _); reflexivity. Qed.

(** What [_on_voice_result] sends for [result]: the translation when
    there is a non-empty one, else [result] itself. *)
Lemma on_voice_result_terminals (w : ClaudeWindow sample) (result : pystr)
      (world : World) (session : Session) :
  result <> [] ->
  0 <= current_tab_index w ->
  nth_error (terminals w) (Z.to_nat (current_tab_index w)) = Some session ->
  terminals (_on_voice_result w result world)
  = firstn (Z.to_nat (current_tab_index w)) (terminals w)
    ++ mkSession
         (write_to_pty (terminal session)
            match snd (fst (Translator.translate (translator w) result
                              (translator_load world) (translator_run world)))
            with
            | Some (c :: rest) => c :: rest
            | _ => result
            end)
         (S (enter_timers session))
    :: skipn (S (Z.to_nat (current_tab_index w))) (terminals w).
Proof.
  intros Hresult Hcur Hs. unfold _on_voice_result.
  destruct result as [|c result]; [contradiction|].
  assert (Hlt : (Z.to_nat (current_tab_index w) < length (terminals w))%nat)
    by (apply nth_error_Some; congruence).
  replace ((0 <=? current_tab_index w)
           && (current_tab_index w <? Z.of_nat (length (terminals w))))
    with true by (symmetry; apply andb_true_iff; split; lia).
  rewrite Hs.
  cbn [_on_voice_status set_status with_status_bar translator].
  destruct (Translator.translate _ _ _ _) as [[tr translated] statuses].
  match goal with
  | |- context [fold_left _on_voice_status statuses ?w0] =>
      pose proof (fold_status_keeps statuses w0) as (_ & T & _);
        destruct (fold_left _on_voice_status statuses w0) as
          [counter buttons sessions current sb v tr' th cl]
  end.
  cbn in T. subst sessions. reflexivity.
Qed.

Lemma enter_timer_terminals (w : ClaudeWindow sample) (position : nat)
      (t : TerminalWidget) (pending : nat) :
  nth_error (terminals w) position = Some (mkSession t (S pending)) ->
  terminals (enter_timer_fires w position)
  = firstn position (terminals w)
    ++ mkSession (write_to_pty t [13%N]) pending
    :: skipn (S position) (terminals w).
Proof. intros H. unfold enter_timer_fires. rewrite H. reflexivity. Qed.

(** X14.  A voice result that arrives while a terminal with a PTY is
    current is written to that terminal, and the Enter that the timer
    sends later goes to the same terminal even when another tab has
    been selected meanwhile; no other terminal is touched.  What is
    written is the translation when there is a non-empty one and the
    recognized text otherwise, never the empty text; and the recording
    indicator is switched off. *)
Theorem voice_result_is_typed_then_entered
        (w : ClaudeWindow sample) (result : pystr) (world : World)
        (session : Session) (other : Z) :
  result <> [] ->
  0 <= current_tab_index w ->
  nth_error (terminals w) (Z.to_nat (current_tab_index w)) = Some session ->
  pty_process (terminal session) = true ->
  let k := Z.to_nat (current_tab_index w) in
  let sent :=
    match snd (fst (Translator.translate (translator w) result
                      (translator_load world) (translator_run world)))
    with
    | Some (c :: rest) => c :: rest
    | _ => result
    end in
  let heard := _on_voice_result w result world in
  let later := enter_timer_fires (switch_tab heard other) k in
  sent <> []
  /\ option_map (fun s => pty_calls (terminal s)) (nth_error (terminals heard) k)
     = Some (pty_calls (terminal session) ++ [PtyWrite sent])
  /\ option_map (fun s => pty_calls (terminal s)) (nth_error (terminals later) k)
     = Some (pty_calls (terminal session) ++ [PtyWrite sent; PtyWrite [13%N]])
  /\ (forall j, j <> k -> nth_error (terminals later) j = nth_error (terminals w) j)
  /\ Widgets.is_recording (status_bar heard) = false.
Proof.
  intros Hresult Hcur Hs Hpty k sent heard later.
  assert (Hsent : sent <> []).
  { subst sent. destruct (snd (fst _)) as [[|c rest]|]; try exact Hresult.
    discriminate. }
  pose proof (on_voice_result_terminals w result world session Hresult Hcur Hs)
    as Hheard.
  fold sent in Hheard. fold heard in Hheard. fold k in Hheard, Hs.
  destruct (replaced_nth (terminals w) k session
              (mkSession (write_to_pty (terminal session) sent)
                         (S (enter_timers session))) Hs) as [Hk Hother].
  rewrite <- Hheard in Hk, Hother.
  assert (Hswitched : terminals (switch_tab heard other) = terminals heard)
    by apply switch_tab_terminals.
  assert (Hk' : nth_error (terminals (switch_tab heard other)) k
                = Some (mkSession (write_to_pty (terminal session) sent)
                                  (S (enter_timers session))))
    by (rewrite Hswitched; exact Hk).
  pose proof (enter_timer_terminals _ _ _ _ Hk') as Hlater.
  fold later in Hlater.
  destruct (replaced_nth _ k _
              (mkSession (write_to_pty (write_to_pty (terminal session) sent)
                                       [13%N])
                         (enter_timers session)) Hk') as [Hk2 Hother2].
  rewrite <- Hlater in Hk2, Hother2.
  split; [exact Hsent|]. split; [|split; [|split]].
  - rewrite Hk. cbn [option_map terminal]. unfold write_to_pty.
    rewrite Hpty. reflexivity.
  - rewrite Hk2. cbn [option_map terminal]. unfold write_to_pty.
    rewrite Hpty. cbn [pty_process pty_calls]. rewrite <- app_assoc.
    reflexivity.
  - intros j Hj. rewrite (Hother2 j Hj), Hswitched. apply Hother. exact Hj.
  - reflexivity.
Qed.

Lemma removed_nth {A} (l1 l2 : list A) (x : A) (j : nat) :
  nth_error (l1 ++ l2) j
  = nth_error (l1 ++ x :: l2) (if (j <? length l1)%nat then j else S j).
Proof.
  destruct (Nat.ltb_spec j (length l1)) as [Hlt|Hge].
  - rewrite !nth_error_app1 by exact Hlt. reflexivity.
  - rewrite !nth_error_app2 by lia.
    replace (S j - length l1)%nat with (S (j - length l1)) by lia.
    reflexivity.
Qed.

(** X15.  [close_session] never closes the only session and ignores an
    index that names no session.  Otherwise it removes exactly the
    session at the index together with its tab, keeps the others in
    order, and makes current the session that followed the closed one,
    or the one before it when the last was closed; the tabs stay
    consistent. *)
Theorem close_session_selects_neighbour
        (w : ClaudeWindow sample) (index : option Z) :
  consistent w ->
  let i := match index with
           | Some i => i
           | None => current_tab_index w
           end in
  let n := Z.of_nat (length (terminals w)) in
  (n <= 1 \/ i < 0 \/ n <= i -> close_session w index = Some w)
  /\ (1 < n -> 0 <= i < n ->
      exists w',
        close_session w index = Some w'
        /\ consistent w'
        /\ Z.of_nat (length (terminals w')) = n - 1
        /\ (forall j,
              nth_error (terminals w') j
              = nth_error (terminals w)
                          (if (j <? Z.to_nat i)%nat then j else S j))
        /\ (forall j,
              nth_error (map text (tab_buttons w')) j
              = nth_error (map text (tab_buttons w))
                          (if (j <? Z.to_nat i)%nat then j else S j))
        /\ current_tab_index w' = (if i <? n - 1 then i else i - 1)).
Proof.
  intros Hc i n. pose proof (close_session_facts w index Hc) as F.
  cbn zeta in F. fold i in F. fold n in F.
  split.
  - intros Hout.
    replace ((1 <? n) && (0 <=? i) && (i <? n)) with false in F; [exact F|].
    symmetry. apply andb_false_iff.
    destruct Hout as [H|[H|H]].
    + left. apply andb_false_iff. left. apply Z.ltb_ge. lia.
    + left. apply andb_false_iff. right. apply Z.leb_gt. lia.
    + right. apply Z.ltb_ge. lia.
  - intros Hmany Hrange.
    replace ((1 <? n) && (0 <=? i) && (i <? n)) with true in F
      by (symmetry; rewrite !andb_true_iff; repeat split; lia).
    destruct F as (w' & gone & before & after & button & left & right
                   & E & Eterm & Etabs & Hbefore & Hleft & C & T & Tx & Cur & _).
    exists w'. split; [exact E|]. split; [exact C|].
    split; [|split; [|split]].
    + rewrite T. subst n. rewrite Eterm, !length_app. cbn [length]. lia.
    + intros j. rewrite T, Eterm, <- Hbefore. apply removed_nth.
    + intros j. rewrite Tx, Etabs, !map_app. cbn [map].
      rewrite <- Hleft, <- (length_map text left). apply removed_nth.
    + rewrite Cur. fold n.
      destruct (Z.ltb_spec i (n - 1)); lia.
Qed.

End WindowFacts.

(** ** The translator's model *)

Lemma translate_loaded (tr : Translator.t) (text : pystr)
      (load : Translator.LoadOutcome) (run : Translator.RunOutcome) :
  Translator.model tr = true ->
  fst (fst (Translator.translate tr text load run)) = tr
  /\ Forall (fun status => exists e, status = str "Translation error: " ++ e)
            (snd (Translator.translate tr text load run)).
Proof.
  intros Hm. unfold Translator.translate.
  destruct text as [|c text]; [cbn; auto|].
  destruct (Translator.strip (c :: text)); [cbn; auto|].
  rewrite Hm. destruct run as [result|e]; cbn [fst snd app]; [auto|].
  split; [reflexivity|]. unfold Translator._update_status.
  destruct (Translator._on_status tr); [|constructor].
  constructor; [exists e; reflexivity|constructor].
Qed.

(** X16.  A translator whose model is loaded never loads again:
    whatever is asked of it and whatever loading would meet, every call
    leaves it as it is and the only statuses reported are translation
    errors.  A call that has to load and fails returns [None] and
    leaves the model unloaded, so that the next call tries again. *)
Theorem translator_loads_once
        (tr : Translator.t) (requests : list Translator.Request) :
  (Translator.model tr = true ->
   fst (Translator.translate_all tr requests) = tr
   /\ Forall (fun status => exists e, status = str "Translation error: " ++ e)
             (snd (Translator.translate_all tr requests)))
  /\ (forall text e run,
         Translator.model tr = false -> forallb isspace text = false ->
         let failed :=
           Translator.translate tr text (Translator.ModelFails e) run in
         snd (fst failed) = None
         /\ Translator.model (fst (fst failed)) = false
         /\ Translator.model
              (fst (fst (Translator.translate (fst (fst failed)) text
                           Translator.Loaded run)))
            = true).
Proof.
  split.
  - intros Hm. induction requests as [|r requests IH]; [cbn; auto|].
    cbn [Translator.translate_all].
    pose proof (translate_loaded tr (Translator.text r) (Translator.load r)
                  (Translator.run r) Hm) as [Htr Hst].
    destruct (Translator.translate tr _ _ _) as [[tr1 result] statuses].
    cbn [fst snd] in *. subst tr1.
    destruct (Translator.translate_all tr requests) as [tr2 more].
    cbn [fst snd] in *. destruct IH as [-> Hmore].
    split; [reflexivity|]. apply Forall_app. auto.
  - intros text e run Hm Hblank. cbn zeta.
    assert (Hstrip : exists c s, Translator.strip text = c :: s).
    { destruct (Translator.strip text) as [|c s] eqn:E; [|eauto].
      apply strip_nil_blank in E. congruence. }
    destruct Hstrip as (c & s & Hstrip).
    unfold Translator.translate.
    destruct text as [|c0 text]; [discriminate|].
    rewrite Hstrip, Hm. cbn [Translator.load_model fst snd Translator.model].
    rewrite Hm. split; [reflexivity|]. split; [reflexivity|].
    destruct run; reflexivity.
Qed.

(** ** The window's shortcuts *)

Section WindowKeys.

Variable sample : Type.

Import Window.



End WindowKeys.

(** ** Instances *)

Lemma voice_result_is_typed_then_entered_witness :
  let w := @Window.new unit Started in
  let world :=
    Window.mkWorld Started (mkDesktop [] []) Voice.StreamStarted
                   Voice.StreamStopped Voice.ModelLoaded
                   (Voice.Transcribed (str "privet")) Translator.Loaded
                   (Translator.Decoded (str "hello")) in
  (str "privet" <> []
   /\ 0 <= Window.current_tab_index w
   /\ nth_error (Window.terminals w) (Z.to_nat (Window.current_tab_index w))
      = Some (Window.mkSession (init Started) 0)
   /\ pty_process (init Started) = true)
  /\ option_map (fun s => pty_calls (Window.terminal s))
       (nth_error
          (Window.terminals
             (Window.enter_timer_fires
                (Window.switch_tab
                   (Window._on_voice_result w (str "privet") world) 5)
                0))
          0)
     = Some [PtyWrite (str "hello"); PtyWrite [13%N]].
Proof.
  intros w world.
  assert (H1 : str "privet" <> []) by discriminate.
  assert (H2 : 0 <= Window.current_tab_index w) by (vm_compute; discriminate).
  assert (H3 : nth_error (Window.terminals w)
                         (Z.to_nat (Window.current_tab_index w))
               = Some (Window.mkSession (init Started) 0)) by reflexivity.
  assert (H4 : pty_process (Window.terminal (Window.mkSession (init Started) 0))
               = true) by reflexivity.
  split; [auto|].
  pose proof (voice_result_is_typed_then_entered unit w (str "privet") world
                (Window.mkSession (init Started) 0) 5 H1 H2 H3 H4) as H.
  cbv zeta in H. destruct H as (_ & _ & H & _). exact H.
Defined.

Lemma close_session_selects_neighbour_witness :
  let w := Window.create_session (@Window.new unit Started) Started in
  Window.consistent w
  /\ exists w',
       Window.close_session w (Some 0) = Some w'
       /\ Window.current_tab_index w' = 0
       /\ map Window.text (Window.tab_buttons w') = [Window.session_name 2].
Proof.
  intros w.
  assert (Hc : Window.consistent w).
  { apply (create_session_facts unit).
    apply consistent_wired, new_sound. }
  split; [exact Hc|].
  pose proof (close_session_selects_neighbour unit w (Some 0) Hc) as H.
  cbv zeta in H. destruct H as [_ H].
  destruct H as (w' & E & _ & _ & _ & Hx & Hcur);
    [vm_compute; reflexivity|split; [lia|vm_compute; reflexivity]|].
  exists w'. split; [exact E|]. split; [exact Hcur|].
  vm_compute in E. injection E as <-. reflexivity.
Defined.

Lemma translate_blank_is_free_witness :
  forallb isspace (str "  ") = true
  /\ Translator.translate Translator.new (str "  ") Translator.Loaded
                          (Translator.Decoded (str "x"))
     = (Translator.new, Some [], []).
Proof.
  split; [reflexivity|].
  apply (proj1 (translate_blank_is_free Translator.new (str "  ")
                  Translator.Loaded (Translator.Decoded (str "x")))).
  reflexivity.
Defined.

Lemma translator_loads_once_witness :
  let tr := Translator.mkTranslator true true true in
  let requests :=
    [Translator.mkRequest (str "da") (Translator.ModelFails (str "gone"))
                          (Translator.Decoded (str "yes"))] in
  Translator.model tr = true
  /\ fst (Translator.translate_all tr requests) = tr.
Proof.
  intros tr requests. split; [reflexivity|].
  apply (proj1 (translator_loads_once tr requests)). reflexivity.
Defined.

Lemma toggle_theme_round_trip_witness :
  let s := fold_left Theme.call [Theme.ToggleTheme] Theme.loaded in
  (Theme.get_theme s = str "dark" \/ Theme.get_theme s = str "light")
  /\ fst (Theme.toggle_theme (fst (Theme.toggle_theme s))) = s.
Proof.
  intros s.
  assert (H : Theme.get_theme s = str "dark" \/ Theme.get_theme s = str "light")
    by (right; reflexivity).
  split; [exact H|].
  apply (proj2 (proj2 (toggle_theme_round_trip [Theme.ToggleTheme]))).
  exact H.
Defined.

Lemma title_bar_drag_follows_cursor_witness :
  (Widgets.dragging Widgets.new_title_bar = false /\ 2 <> Widgets.LeftButton)
  /\ snd (fold_left Widgets.mouse
            (map (fun m => Widgets.Move (fst m) (snd m))
                 [(2, (30, 40)); (1, (50, 60))])
            (Widgets.mouse (Widgets.new_title_bar, (100, 100))
                           (Widgets.Press 2 (10, 10))))
     = (100, 100).
Proof.
  assert (H1 : Widgets.dragging Widgets.new_title_bar = false) by reflexivity.
  assert (H2 : 2 <> Widgets.LeftButton) by discriminate.
  split; [auto|].
  pose proof (title_bar_drag_follows_cursor Widgets.new_title_bar (100, 100)
                (10, 10) [] (20, 20) [(2, (30, 40)); (1, (50, 60))] 2) as H.
  cbv zeta in H. destruct H as (_ & _ & _ & H). exact (H H1 H2).
Defined.

Lemma mic_indicator_follows_recognizer_witness :
  let world :=
    Window.mkWorld Started (mkDesktop [] []) Voice.StreamStarted
                   Voice.StreamStopped Voice.ModelLoaded
                   (Voice.Transcribed (str "privet")) Translator.Loaded
                   (Translator.Decoded (str "hello")) in
  let events :=
    [(Window.MicClicked, world);
     (Window.AudioHeard [1; 2]%Z None, world);
     (Window.AudioHeard [3]%Z (Some (str "overflow")), world);
     (Window.MicClicked, world);
     (Window.EnterTimerFires 0, world)] in
  Forall (fun ew => Window.stream_start (snd ew) = Voice.StreamStarted) events
  /\ exists w,
       Window.run (@Window.new Z Started) events = Some w
       /\ Widgets.is_recording (Window.status_bar w)
          = Voice.is_recording (Window.voice_recognizer w)
       /\ Voice.recorded_audio (Window.voice_recognizer w) = [[1; 2]; [3]]%Z
       /\ map (fun s => pty_calls (Window.terminal s)) (Window.terminals w)
          = [[PtyWrite (str "hello"); PtyWrite [13%N]]].
Proof.
  intros world events.
  assert (H : Forall (fun ew => Window.stream_start (snd ew)
                                = Voice.StreamStarted) events)
    by (repeat constructor).
  split; [exact H|].
  destruct (proj1 (mic_indicator_follows_recognizer Z Started events) H)
    as (w & E & Hi).
  exists w. split; [exact E|]. split; [exact Hi|].
  vm_compute in E. injection E as <-. split; reflexivity.
Defined.

